(** * rdsbackup: cross-region RDS snapshot copies, embedded in Rocq

    The development follows the two Go programs of the repository: the
    current tool (version 1.2: locate, idempotency check, copy, wait,
    purge) and the first release (version 1.0, [Module Legacy]: locate,
    copy, wait).

    Modelling decisions.
    - The AWS endpoints are an oracle [Provider]: every operation answers
      from the list of calls issued so far in the run, so the remote side
      may change between two calls in any way (a copy appears, a status
      moves on, a call fails once and succeeds later).
    - A method on [*config] is a computation on [state], the configuration
      together with the log of remote calls.
    - [time.Time] is an instant in nanoseconds relative to the Unix epoch;
      [time.Now] and [Time.Format] come from a [Clock].
    - The polling loop of [waitForCopy] has no bound in the source; the
      model takes fuel and answers [Spinning] when it runs out.
    - Pointer-typed response fields that the source dereferences are
      present in every response; [c.debug] only prints and is left out. *)

From Stdlib Require Import ZArith String Ascii List Lia DecimalString.
From stdpp Require Import base option list sorting gmap strings.

Local Open Scope string_scope.
Local Open Scope list_scope.
Local Open Scope Z_scope.

(** ** Go values *)

(** A Go [error] value: one made by [fmt.Errorf] in this program, or one
    handed back by the SDK. *)
Inductive error : Type :=
| Errorf (msg : string)
| RemoteError (msg : string).

(** The pair [(value, error)] a Go call returns. *)
Inductive result (A : Type) : Type :=
| Ok (a : A)
| Err (e : error).
Arguments Ok {A} a.
Arguments Err {A} e.

Definition is_Err {A} (r : result A) : bool :=
  match r with Ok _ => false | Err _ => true end.

(** [time.Time]: nanoseconds since 1970-01-01T00:00:00Z. *)
Definition Time := Z.

Definition time_Unix (sec nsec : Z) : Time := sec * 1000000000 + nsec.
Definition After (t u : Time) : bool := u <? t.
Definition Unix (t : Time) : Z := t / 1000000000.

(** The zero [time.Time] (January 1, year 1), what a response leaves in a
    time field it does not fill in. *)
Definition zeroTime : Time := time_Unix (-62135596800) 0.

(** [fmt.Sprintf("%d", n)] *)
Definition sprintf_d (n : Z) : string := NilZero.string_of_int (Z.to_int n).

(** [strings.Split(s, sep)] for a one-byte separator, the only use in the
    program: the fields between the occurrences of [sep], one more than
    there are separators. *)
Fixpoint strings_Split (s : string) (sep : ascii) : list string :=
  match s with
  | EmptyString => [EmptyString]
  | String ch rest =>
      if Ascii.eqb ch sep then EmptyString :: strings_Split rest sep
      else match strings_Split rest sep with
           | f :: fs => String ch f :: fs
           | [] => [String ch EmptyString]
           end
  end.

(** [strings.Join], used to state what [strings_Split] computes. *)
Fixpoint strings_Join (fs : list string) (sep : ascii) : string :=
  match fs with
  | [] => EmptyString
  | [f] => f
  | f :: fs' => f +:+ String sep (strings_Join fs' sep)
  end.

Fixpoint contains_byte (s : string) (b : ascii) : bool :=
  match s with
  | EmptyString => false
  | String ch rest => Ascii.eqb ch b || contains_byte rest b
  end.

(** ** The SDK's messages *)

Record Tag : Type := mkTag { Key : string; Value : string }.

Record DBSnapshot : Type := mkDBSnapshot {
  DBSnapshotIdentifier : string;
  DBInstanceIdentifier : string;
  SnapshotCreateTime : Time;
  Status : string;
  PercentProgress : Z
}.

Record DescribeDBSnapshotsMessage : Type := mkDescribe {
  q_DBInstanceIdentifier : option string;
  q_DBSnapshotIdentifier : option string
}.

Record CopyDBSnapshotMessage : Type := mkCopy {
  SourceDBSnapshotIdentifier : string;
  Tags : list Tag;
  TargetDBSnapshotIdentifier : string
}.

(** A remote call: the region of the client it goes through and its
    request. *)
Inductive Call : Type :=
| GetUser (region : string)
| DescribeDBSnapshots (region : string) (q : DescribeDBSnapshotsMessage)
| ListTagsForResource (region : string) (ResourceName : string)
| CopyDBSnapshot (region : string) (m : CopyDBSnapshotMessage)
| DeleteDBSnapshot (region : string) (DBSnapshotIdentifier : string).

Definition is_ListTags (r : Call) : bool :=
  match r with ListTagsForResource _ _ => true | _ => false end.
Definition is_Copy (r : Call) : bool :=
  match r with CopyDBSnapshot _ _ => true | _ => false end.
Definition is_Delete (r : Call) : bool :=
  match r with DeleteDBSnapshot _ _ => true | _ => false end.

(** The remote side. Each answer may depend on all earlier calls of the
    run; [on_GetUser] answers with the user's ARN. *)
Record Provider : Type := mkProvider {
  on_GetUser : list Call -> string -> result string;
  on_DescribeDBSnapshots :
    list Call -> string -> DescribeDBSnapshotsMessage -> result (list DBSnapshot);
  on_ListTagsForResource : list Call -> string -> string -> result (list Tag);
  on_CopyDBSnapshot : list Call -> string -> CopyDBSnapshotMessage -> result DBSnapshot;
  on_DeleteDBSnapshot : list Call -> string -> string -> result DBSnapshot
}.

(** [time.Now()] at the one place the program reads it, and
    [Time.Format] by layout. *)
Record Clock : Type := mkClock {
  Now : Time;
  Format : Time -> string -> string
}.

(** ** Machine state and computations *)

Record config : Type := mkConfig {
  dbid : string;
  src : string;
  dst : string;
  arn : string;
  copyId : string;
  awsAcctId : string;
  awsKeyId : string;
  awsSecret : string;
  purge : Z;
  quiet : bool
}.

(** The state of a run: the program's [config] struct (each version has
    its own) and the remote calls issued so far. *)
Record state (C : Type) : Type := mkState { cfg : C; calls : list Call }.
Arguments mkState {C} cfg calls.
Arguments cfg {C} s.
Arguments calls {C} s.

(** How a computation ends: with a value, in a Go run-time panic, or
    still looping when the fuel is spent. *)
Inductive run (A : Type) : Type :=
| Done (a : A)
| Panicked (msg : string)
| Spinning.
Arguments Done {A} a.
Arguments Panicked {A} msg.
Arguments Spinning {A}.

Definition M (C A : Type) : Type := state C -> run A * state C.

Definition ret {C A} (a : A) : M C A := fun st => (Done a, st).

Definition bind {C A B} (m : M C A) (k : A -> M C B) : M C B :=
  fun st =>
    match m st with
    | (Done a, st') => k a st'
    | (Panicked msg, st') => (Panicked msg, st')
    | (Spinning, st') => (Spinning, st')
    end.

Notation "x <- m ;; k" := (bind m (fun x => k))
  (at level 100, m at next level, right associativity).

Definition get_cfg {C} : M C C := fun st => (Done (cfg st), st).
Definition set_cfg {C} (c : C) : M C unit :=
  fun st => (Done tt, mkState c (calls st)).
Definition panic {C A} (msg : string) : M C A := fun st => (Panicked msg, st).
Definition spin {C A} : M C A := fun st => (Spinning, st).

Definition logged {C} (r : Call) (st : state C) : state C :=
  mkState (cfg st) (calls st ++ [r]).

Definition set_arn (c : config) (a : string) : config :=
  mkConfig (dbid c) (src c) (dst c) a (copyId c) (awsAcctId c)
           (awsKeyId c) (awsSecret c) (purge c) (quiet c).
Definition set_copyId (c : config) (i : string) : config :=
  mkConfig (dbid c) (src c) (dst c) (arn c) i (awsAcctId c)
           (awsKeyId c) (awsSecret c) (purge c) (quiet c).
Definition set_awsAcctId (c : config) (a : string) : config :=
  mkConfig (dbid c) (src c) (dst c) (arn c) (copyId c) a
           (awsKeyId c) (awsSecret c) (purge c) (quiet c).

(** [fmt.Sprintf("arn:aws:rds:%s:%s:snapshot:%s", region, acct, id)] *)
Definition snapshot_arn (region acct id : string) : string :=
  "arn:aws:rds:" +:+ region +:+ ":" +:+ acct +:+ ":snapshot:" +:+ id.

Definition by_instance (id : string) : DescribeDBSnapshotsMessage :=
  mkDescribe (Some id) None.
Definition by_snapshot (id : string) : DescribeDBSnapshotsMessage :=
  mkDescribe None (Some id).

(** The scan of [findLatestSnap]: [newest] and [newestId] after the
    [range] loop. *)
Definition newer (acc : Time * string) (r : DBSnapshot) : Time * string :=
  if After (SnapshotCreateTime r) (fst acc)
  then (SnapshotCreateTime r, DBSnapshotIdentifier r)
  else acc.

Definition latest_scan (snaps : list DBSnapshot) : Time * string :=
  fold_left newer snaps (time_Unix 0 0, EmptyString).

(** The inner loop of [checkSnapCopied] over one tag list. *)
Definition tag_flags (a : string) (acc : bool * bool) (t : Tag) : bool * bool :=
  if String.eqb (Key t) "managedby" && String.eqb (Value t) "rdsbackup"
  then (true, snd acc)
  else if String.eqb (Key t) "sourcearn" && String.eqb (Value t) a
       then (fst acc, true)
       else acc.

(** The inner loop of [cleanupSnaps] over one tag list: [snaps] and
    [keys] after it. *)
Definition tag_collect (s : DBSnapshot) (acc : gmap Z string * list Z) (t : Tag)
  : gmap Z string * list Z :=
  if String.eqb (Key t) "managedby" && String.eqb (Value t) "rdsbackup"
  then if 0 <? Unix (SnapshotCreateTime s)
       then (<[Unix (SnapshotCreateTime s) := DBSnapshotIdentifier s]> (fst acc),
             snd acc ++ [Unix (SnapshotCreateTime s)])
       else acc
  else acc.

(** [sort.Sort(keys)] with [int64arr]'s [Less]. *)
Definition sort_int64arr (keys : list Z) : list Z := merge_sort Z.le keys.

(** The tags [copySnap] attaches. *)
Definition copy_tags (clk : Clock) (c : config) : list Tag :=
  [ mkTag "time" (Format clk (Now clk) "2006-01-02 15:04:05 -0700");
    mkTag "timestamp" (sprintf_d (Unix (Now clk)));
    mkTag "source" (src c);
    mkTag "sourceid" (dbid c);
    mkTag "sourcearn" (arn c);
    mkTag "managedby" "rdsbackup" ].

Section Program.

Variable P : Provider.
Variable clk : Clock.

(** *** Remote calls *)

Definition iam_GetUser {C} (region : string) : M C (result string) :=
  fun st => (Done (on_GetUser P (calls st) region), logged (GetUser region) st).

Definition rds_DescribeDBSnapshots {C} (region : string) (q : DescribeDBSnapshotsMessage)
  : M C (result (list DBSnapshot)) :=
  fun st => (Done (on_DescribeDBSnapshots P (calls st) region q),
             logged (DescribeDBSnapshots region q) st).

Definition rds_ListTagsForResource {C} (region name : string) : M C (result (list Tag)) :=
  fun st => (Done (on_ListTagsForResource P (calls st) region name),
             logged (ListTagsForResource region name) st).

Definition rds_CopyDBSnapshot {C} (region : string) (m : CopyDBSnapshotMessage)
  : M C (result DBSnapshot) :=
  fun st => (Done (on_CopyDBSnapshot P (calls st) region m),
             logged (CopyDBSnapshot region m) st).

Definition rds_DeleteDBSnapshot {C} (region id : string) : M C (result DBSnapshot) :=
  fun st => (Done (on_DeleteDBSnapshot P (calls st) region id),
             logged (DeleteDBSnapshot region id) st).

(** Did the call [r], issued after the calls [h], come back with an
    error? *)
Definition failed (h : list Call) (r : Call) : bool :=
  match r with
  | GetUser region => is_Err (on_GetUser P h region)
  | DescribeDBSnapshots region q => is_Err (on_DescribeDBSnapshots P h region q)
  | ListTagsForResource region n => is_Err (on_ListTagsForResource P h region n)
  | CopyDBSnapshot region m => is_Err (on_CopyDBSnapshot P h region m)
  | DeleteDBSnapshot region i => is_Err (on_DeleteDBSnapshot P h region i)
  end.

(** [waitForCopy]'s loop, the same in both versions: poll until the
    status leaves "creating". *)
Fixpoint waitForCopy_loop {C} (fuel : nat) (region : string)
    (q : DescribeDBSnapshotsMessage) : M C (option error) :=
  match fuel with
  | O => spin
  | S fuel' =>
      resp <- rds_DescribeDBSnapshots region q ;;
      match resp with
      | Err e => ret (Some e)
      | Ok snaps =>
          if negb (Nat.eqb (length snaps) 1)
          then ret (Some (Errorf "New snapshot missing!"))
          else match snaps !! 0%nat with
               | None => panic "index out of range"
               | Some s =>
                   if negb (String.eqb (Status s) "creating")
                   then ret None
                   else (* time.Sleep(10 * time.Second) *)
                        waitForCopy_loop fuel' region q
               end
      end
  end.

(** *** The program, version 1.2 *)

(** [findAcccountID] returns the AWS account ID. *)
Definition findAcccountID : M config (result string) :=
  c <- get_cfg ;;
  u <- iam_GetUser (src c) ;;
  match u with
  | Err e => ret (Err e)
  | Ok user_arn =>
      let parts := strings_Split user_arn ":"%char in
      if negb (Nat.eqb (length parts) 6)
      then ret (Err (Errorf "Error parsing user ARN"))
      else match parts !! 4%nat with
           | Some p => ret (Ok p)
           | None => panic "index out of range"
           end
  end.

(** [findLatestSnap] finds the source snapshot to copy. *)
Definition findLatestSnap : M config (option error) :=
  c <- get_cfg ;;
  resp <- rds_DescribeDBSnapshots (src c) (by_instance (dbid c)) ;;
  match resp with
  | Err e => ret (Some e)
  | Ok snaps =>
      if Nat.ltb (length snaps) 1
      then ret (Some (Errorf "No snapshots found"))
      else
        let '(newest, newestId) := latest_scan snaps in
        if Nat.ltb (String.length newestId) 1
        then ret (Some (Errorf "No usable snapshot found"))
        else
          _ <- set_cfg (set_arn c (snapshot_arn (src c) (awsAcctId c) newestId)) ;;
          ret None
  end.

(** [checkSnapCopied] returns true if the source snapshot has already
    been copied to the destination region. *)
Fixpoint checkSnapCopied_loop (c : config) (snaps : list DBSnapshot) : M config bool :=
  match snaps with
  | [] => ret false
  | s :: rest =>
      tags <- rds_ListTagsForResource (dst c)
                (snapshot_arn (dst c) (awsAcctId c) (DBSnapshotIdentifier s)) ;;
      match tags with
      | Err _ => checkSnapCopied_loop c rest
      | Ok tl =>
          let '(managedByUs, matchedSource) :=
            fold_left (tag_flags (arn c)) tl (false, false) in
          if managedByUs && matchedSource
          then ret true
          else checkSnapCopied_loop c rest
      end
  end.

Definition checkSnapCopied : M config bool :=
  c <- get_cfg ;;
  resp <- rds_DescribeDBSnapshots (dst c) (by_instance (dbid c)) ;;
  match resp with
  | Err _ => ret false
  | Ok snaps => checkSnapCopied_loop c snaps
  end.

(** [copySnap] starts the RDS snapshot copy. *)
Definition copySnap : M config (option error) :=
  c0 <- get_cfg ;;
  let t := Now clk in
  let c := set_copyId c0 (dbid c0 +:+ "-" +:+ Format clk t "2006-01-02at15-04MST") in
  _ <- set_cfg c ;;
  resp <- rds_CopyDBSnapshot (dst c) (mkCopy (arn c) (copy_tags clk c) (copyId c)) ;;
  match resp with
  | Err e => ret (Some e)
  | Ok snap =>
      if negb (String.eqb (Status snap) "creating")
      then ret (Some (Errorf ("Error creating snapshot - unexpected status: "
                              +:+ Status snap)))
      else ret None
  end.

(** [waitForCopy] waits for the RDS snapshot copy to finish. *)
Definition waitForCopy (fuel : nat) : M config (option error) :=
  c <- get_cfg ;;
  waitForCopy_loop fuel (dst c) (by_snapshot (copyId c)).

(** [cleanupSnaps]: the scan that fills [snaps] and [keys], the purge
    loop with its counter [i] and the [n] iterations left, and the
    method. *)
Fixpoint cleanup_scan (c : config) (l : list DBSnapshot)
    (acc : gmap Z string * list Z) : M config (gmap Z string * list Z) :=
  match l with
  | [] => ret acc
  | s :: rest =>
      tags <- rds_ListTagsForResource (dst c)
                (snapshot_arn (dst c) (awsAcctId c) (DBSnapshotIdentifier s)) ;;
      match tags with
      | Err _ => cleanup_scan c rest acc
      | Ok tl => cleanup_scan c rest (fold_left (tag_collect s) tl acc)
      end
  end.

Fixpoint purge_loop (c : config) (snaps : gmap Z string) (keys : list Z)
    (i n : nat) : M config (option error) :=
  match n with
  | O => ret None
  | S n' =>
      match keys !! i with
      | None => panic "index out of range"
      | Some k =>
          resp <- rds_DeleteDBSnapshot (dst c) (default EmptyString (snaps !! k)) ;;
          match resp with
          | Err e => ret (Some e)
          | Ok _ => purge_loop c snaps keys (S i) n'
          end
      end
  end.

Definition cleanupSnaps : M config (option error) :=
  c <- get_cfg ;;
  if purge c <=? 0 then ret None
  else
    resp <- rds_DescribeDBSnapshots (dst c) (by_instance (dbid c)) ;;
    match resp with
    | Err e => ret (Some e)
    | Ok l =>
        acc <- cleanup_scan c l (∅, []) ;;
        let '(snaps, keys) := acc in
        if Z.of_nat (size snaps) <=? purge c
        then ret None
        else purge_loop c snaps (sort_int64arr keys) 0
                        (Z.to_nat (Z.of_nat (size snaps) - purge c))
    end.

(** [main], from the value of [parseArgs()] on: the exit status.
    [log.Fatal] exits with status 1. *)
Definition main_body (fuel : nat) : M config Z :=
  acct <- findAcccountID ;;
  c <- get_cfg ;;
  _ <- set_cfg (set_awsAcctId c (match acct with Ok a => a | Err _ => EmptyString end)) ;;
  match acct with
  | Err _ => ret 1
  | Ok _ =>
      err <- findLatestSnap ;;
      match err with
      | Some _ => ret 1
      | None =>
          copied <- checkSnapCopied ;;
          if (copied : bool) then ret 0
          else
            err <- copySnap ;;
            match err with
            | Some _ => ret 1
            | None =>
                err <- waitForCopy fuel ;;
                match err with
                | Some _ => ret 1
                | None =>
                    err <- cleanupSnaps ;;
                    match err with
                    | Some _ => ret 1
                    | None => ret 0
                    end
                end
            end
      end
  end.

Definition main (fuel : nat) (parsed : config * option error) : run Z * state config :=
  match snd parsed with
  | Some _ => (Done 1, mkState (fst parsed) [])
  | None => main_body fuel (mkState (fst parsed) [])
  end.

End Program.

(** *** The program, version 1.0 (rdsbackup.go) *)

Module Legacy.

Record config : Type := mkConfig {
  dbid : string;
  src : string;
  dst : string;
  arn : string;
  copyId : string;
  awsKeyId : string;
  awsSecret : string;
  debugOn : bool
}.

Definition set_arn (c : config) (a : string) : config :=
  mkConfig (dbid c) (src c) (dst c) a (copyId c) (awsKeyId c) (awsSecret c) (debugOn c).
Definition set_copyId (c : config) (i : string) : config :=
  mkConfig (dbid c) (src c) (dst c) (arn c) i (awsKeyId c) (awsSecret c) (debugOn c).

(** The tags this version's [copySnap] attaches. *)
Definition copy_tags (clk : Clock) (c : config) : list Tag :=
  [ mkTag "time" (Format clk (Now clk) "2006-01-02 15:04:05 -0700");
    mkTag "timestamp" (sprintf_d (Unix (Now clk)));
    mkTag "source" (src c);
    mkTag "sourceid" (dbid c);
    mkTag "managedby" "rdsbackup" ].

Section Program.

Variable P : Provider.
Variable clk : Clock.

(** [findAcccountID], as in version 1.2. *)
Definition findAcccountID : M config (result string) :=
  c <- get_cfg ;;
  u <- iam_GetUser P (src c) ;;
  match u with
  | Err e => ret (Err e)
  | Ok user_arn =>
      let parts := strings_Split user_arn ":"%char in
      if negb (Nat.eqb (length parts) 6)
      then ret (Err (Errorf "Error parsing user ARN"))
      else match parts !! 4%nat with
           | Some p => ret (Ok p)
           | None => panic "index out of range"
           end
  end.

(** [findLatestSnap] resolves the account itself, then lists and scans. *)
Definition findLatestSnap : M config (option error) :=
  acct <- findAcccountID ;;
  match acct with
  | Err e => ret (Some e)
  | Ok awsacctid =>
      c <- get_cfg ;;
      resp <- rds_DescribeDBSnapshots P (src c) (by_instance (dbid c)) ;;
      match resp with
      | Err e => ret (Some e)
      | Ok snaps =>
          if Nat.ltb (length snaps) 1
          then ret (Some (Errorf "No snapshots found"))
          else
            let '(newest, newestId) := latest_scan snaps in
            if Nat.ltb (String.length newestId) 1
            then ret (Some (Errorf "No usable snapshot found"))
            else
              _ <- set_cfg (set_arn c (snapshot_arn (src c) awsacctid newestId)) ;;
              ret None
      end
  end.

(** [copySnap], with this version's tags. *)
Definition copySnap : M config (option error) :=
  c0 <- get_cfg ;;
  let t := Now clk in
  let c := set_copyId c0 (dbid c0 +:+ "-" +:+ Format clk t "2006-01-02at15-04MST") in
  _ <- set_cfg c ;;
  resp <- rds_CopyDBSnapshot P (dst c) (mkCopy (arn c) (copy_tags clk c) (copyId c)) ;;
  match resp with
  | Err e => ret (Some e)
  | Ok snap =>
      if negb (String.eqb (Status snap) "creating")
      then ret (Some (Errorf ("Error creating snapshot - unexpected status: "
                              +:+ Status snap)))
      else ret None
  end.

(** [waitForCopy], as in version 1.2. *)
Definition waitForCopy (fuel : nat) : M config (option error) :=
  c <- get_cfg ;;
  waitForCopy_loop P fuel (dst c) (by_snapshot (copyId c)).

(** [main] returns after "All done!": exit status 0. *)
Definition main_body (fuel : nat) : M config Z :=
  err <- findLatestSnap ;;
  match err with
  | Some _ => ret 1
  | None =>
      err <- copySnap ;;
      match err with
      | Some _ => ret 1
      | None =>
          err <- waitForCopy fuel ;;
          match err with
          | Some _ => ret 1
          | None => ret 0
          end
      end
  end.

Definition main (fuel : nat) (parsed : config * option error) : run Z * state config :=
  match snd parsed with
  | Some _ => (Done 1, mkState (fst parsed) [])
  | None => main_body fuel (mkState (fst parsed) [])
  end.

End Program.

End Legacy.

(** ** Vocabulary of the statements *)

(** The tag list carries the tag [k = v]. *)
Definition has_tag (k v : string) (tl : list Tag) : bool :=
  existsb (fun t => String.eqb (Key t) k && String.eqb (Value t) v) tl.

(** What a tag read came back with marks the snapshot as ours. *)
Definition is_managed (r : result (list Tag)) : bool :=
  match r with
  | Ok tl => has_tag "managedby" "rdsbackup" tl
  | Err _ => false
  end.

(** ... and as the copy of the snapshot with reference [a]. *)
Definition is_copy_of (a : string) (r : result (list Tag)) : bool :=
  match r with
  | Ok tl => has_tag "managedby" "rdsbackup" tl && has_tag "sourcearn" a tl
  | Err _ => false
  end.

(** The tag reads of a scan over [l] that starts after the calls [h]:
    each snapshot with what [ListTagsForResource] answers when the scan
    reaches it. *)
Fixpoint tag_reads (P : Provider) (h : list Call) (region acct : string)
    (l : list DBSnapshot) : list (DBSnapshot * result (list Tag)) :=
  match l with
  | [] => []
  | s :: rest =>
      let name := snapshot_arn region acct (DBSnapshotIdentifier s) in
      (s, on_ListTagsForResource P h region name)
        :: tag_reads P (h ++ [ListTagsForResource region name]) region acct rest
  end.

(** The snapshots of a scan that are marked as ours, in listing order. *)
Definition managed_of (reads : list (DBSnapshot * result (list Tag))) : list DBSnapshot :=
  map fst (filter (fun p => is_managed (snd p) = true) reads).

(** The second-resolution creation timestamp, the key of [snaps]. *)
Definition stamp (s : DBSnapshot) : Z := Unix (SnapshotCreateTime s).

(** The managed snapshots that the purge counts: those created after the
    epoch. *)
Definition counted (reads : list (DBSnapshot * result (list Tag))) : list DBSnapshot :=
  List.filter (fun s => 0 <? stamp s) (managed_of reads).

(** A trace with, for each call, whether it failed: the calls [tr] were
    issued after the calls [h]. *)
Fixpoint annotate (P : Provider) (h : list Call) (tr : list Call) : list (Call * bool) :=
  match tr with
  | [] => []
  | r :: tr' => (r, failed P h r) :: annotate P (h ++ [r]) tr'
  end.

(** The two errors of the Locator that the specification calls NotFound. *)
Definition NotFound (r : run (option error)) : Prop :=
  r = Done (Some (Errorf "No snapshots found")) \/
  r = Done (Some (Errorf "No usable snapshot found")).

(** The polls of [waitForCopy]. *)
Definition poll (region id : string) : Call :=
  DescribeDBSnapshots region (by_snapshot id).

(** What a poll's answer makes [waitForCopy] do: go on polling, or stop
    with a result. *)
Inductive verdict : Type :=
| Continue
| Stop (r : option error).

Definition poll_verdict (resp : result (list DBSnapshot)) : verdict :=
  match resp with
  | Err e => Stop (Some e)
  | Ok [s] => if String.eqb (Status s) "creating" then Continue else Stop None
  | Ok _ => Stop (Some (Errorf "New snapshot missing!"))
  end.

(** The answer to poll number [i] (from 0) of a wait that starts after
    the calls [h]. *)
Definition poll_answer (P : Provider) (h : list Call) (region : string)
    (q : DescribeDBSnapshotsMessage) (i : nat) : result (list DBSnapshot) :=
  on_DescribeDBSnapshots P (h ++ repeat (DescribeDBSnapshots region q) i) region q.

(** A failed call that does no harm: a tag read. *)
Definition benign (e : Call * bool) : Prop :=
  snd e = true -> is_ListTags (fst e) = true.

(** The discipline of a method that returns an [error]: only tag reads
    fail on the way, and an error comes with a last call that is not a
    tag read. *)
Definition disciplined (P : Provider) (h tr : list Call) (r : run (option error)) : Prop :=
  match r with
  | Done None | Spinning => Forall benign (annotate P h tr)
  | Done (Some _) =>
      exists tr0 x, tr = tr0 ++ [x] /\ Forall benign (annotate P h tr0) /\
                    is_ListTags x = false
  | Panicked _ => False
  end.

(** What one tag read adds to [snaps] and [keys], and what a whole scan
    leaves in them. *)
Definition collect_read (acc : gmap Z string * list Z)
    (p : DBSnapshot * result (list Tag)) : gmap Z string * list Z :=
  match snd p with
  | Ok tl => fold_left (tag_collect (fst p)) tl acc
  | Err _ => acc
  end.

Definition collected (reads : list (DBSnapshot * result (list Tag)))
  : gmap Z string * list Z :=
  fold_left collect_read reads (∅, []).

(** Every key leads to an identifier, there are no more identifiers than
    keys, and every identifier is that of a snapshot read as ours, under
    its own positive timestamp. *)
Definition collect_inv (reads : list (DBSnapshot * result (list Tag)))
    (acc : gmap Z string * list Z) : Prop :=
  (size (fst acc) <= length (snd acc))%nat /\
  (forall k, k ∈ snd acc -> is_Some (fst acc !! k)) /\
  (forall k id, fst acc !! k = Some id ->
     exists s, s ∈ managed_of reads /\ stamp s = k /\
               DBSnapshotIdentifier s = id /\ 0 < k).

(** The tag reads a scan over [l] issues. *)
Definition tag_calls (c : config) (l : list DBSnapshot) : list Call :=
  map (fun s => ListTagsForResource (dst c)
                  (snapshot_arn (dst c) (awsAcctId c) (DBSnapshotIdentifier s))) l.

(** The deletions the purge loop issues in [j] rounds from index [i]. *)
Definition purge_calls (c : config) (snaps : gmap Z string) (keys : list Z)
    (i j : nat) : list Call :=
  map (fun k => DeleteDBSnapshot (dst c) (default EmptyString (snaps !! k)))
      (take j (drop i keys)).

(** Snapshot [a] is not younger than [b], by second-resolution creation
    time. *)
Definition not_younger (a b : DBSnapshot) : Prop := stamp a <= stamp b.

(** The tag [managedby = rdsbackup] and how often a tag list has it. *)
Definition is_mark (t : Tag) : bool :=
  String.eqb (Key t) "managedby" && String.eqb (Value t) "rdsbackup".

Definition marks (tl : list Tag) : nat := length (List.filter is_mark tl).

#[global] Instance not_younger_dec : RelDecision not_younger :=
  fun a b => Z_le_dec (stamp a) (stamp b).

(** [snaps] after the managed snapshots [ms] went in, one by one. *)
Definition put (m : gmap Z string) (s : DBSnapshot) : gmap Z string :=
  <[stamp s := DBSnapshotIdentifier s]> m.

(** *** The stages of a run of [main]

    For a provider, a clock and the configuration [c0] that [parseArgs]
    returned: what each stage saw and which calls the run has issued when
    it gets there. *)
Section Stages.

Variable P : Provider.
Variable clk : Clock.
Variable c0 : config.

Definition user_call : Call := GetUser (src c0).
Definition source_listing : Call := DescribeDBSnapshots (src c0) (by_instance (dbid c0)).
Definition dest_listing_call : Call := DescribeDBSnapshots (dst c0) (by_instance (dbid c0)).

Definition at_locate : list Call := [user_call].
Definition at_check : list Call := [user_call; source_listing].

(** Account resolution gave the account identifier [acct]. *)
Definition resolved (acct : string) : Prop :=
  exists user_arn,
    on_GetUser P [] (src c0) = Ok user_arn /\
    length (strings_Split user_arn ":"%char) = 6%nat /\
    strings_Split user_arn ":"%char !! 4%nat = Some acct.

(** The Locator listed the source snapshots [l] and chose one. *)
Definition located (l : list DBSnapshot) : Prop :=
  on_DescribeDBSnapshots P at_locate (src c0) (by_instance (dbid c0)) = Ok l /\
  l <> [] /\ snd (latest_scan l) <> EmptyString.

(** The Fully-Qualified Snapshot Reference of the chosen snapshot. *)
Definition chosen_arn (acct : string) (l : list DBSnapshot) : string :=
  snapshot_arn (src c0) acct (snd (latest_scan l)).

(** The configuration after the Locator, and after [copySnap] named the
    copy. *)
Definition located_config (acct : string) (l : list DBSnapshot) : config :=
  set_arn (set_awsAcctId c0 acct) (chosen_arn acct l).

Definition copying_config (acct : string) (l : list DBSnapshot) : config :=
  set_copyId (located_config acct l)
    (dbid c0 +:+ "-" +:+ Format clk (Now clk) "2006-01-02at15-04MST").

Definition copy_message (acct : string) (l : list DBSnapshot) : CopyDBSnapshotMessage :=
  mkCopy (chosen_arn acct l) (copy_tags clk (copying_config acct l))
         (copyId (copying_config acct l)).

Definition copy_call (acct : string) (l : list DBSnapshot) : Call :=
  CopyDBSnapshot (dst c0) (copy_message acct l).

Definition poll_call (acct : string) (l : list DBSnapshot) : Call :=
  poll (dst c0) (copyId (copying_config acct l)).

(** The idempotency check answered [b] after the tag reads [tags]. *)
Definition checked (acct : string) (l : list DBSnapshot) (b : bool)
    (tags : list Call) : Prop :=
  checkSnapCopied P (mkState (located_config acct l) at_check) =
    (Done b, mkState (located_config acct l) (at_check ++ dest_listing_call :: tags)) /\
  Forall (fun r => is_ListTags r = true) tags /\
  (failed P at_check dest_listing_call = true -> tags = [] /\ b = false).

Definition at_copy (tags : list Call) : list Call :=
  at_check ++ dest_listing_call :: tags.

(** The provider accepted the copy request: no error, status
    "creating". *)
Definition accepted (acct : string) (l : list DBSnapshot) (tags : list Call) : Prop :=
  exists snap,
    on_CopyDBSnapshot P (at_copy tags) (dst c0) (copy_message acct l) = Ok snap /\
    Status snap = "creating".

Definition at_wait (acct : string) (l : list DBSnapshot) (tags : list Call) : list Call :=
  at_copy tags ++ [copy_call acct l].

(** The first [n] polls all showed the copy in status "creating". *)
Definition still_creating (acct : string) (l : list DBSnapshot) (tags : list Call)
    (n : nat) : Prop :=
  forall i, (i < n)%nat ->
    poll_verdict (poll_answer P (at_wait acct l tags) (dst c0)
                    (by_snapshot (copyId (copying_config acct l))) i) = Continue.

(** Poll number [n] ended the wait with [r]. *)
Definition wait_ended (acct : string) (l : list DBSnapshot) (tags : list Call)
    (n : nat) (r : option error) : Prop :=
  poll_verdict (poll_answer P (at_wait acct l tags) (dst c0)
                  (by_snapshot (copyId (copying_config acct l))) n) = Stop r.

Definition at_cleanup (acct : string) (l : list DBSnapshot) (tags : list Call)
    (n : nat) : list Call :=
  at_wait acct l tags ++ repeat (poll_call acct l) (S n).

(** The ways [main] runs, with its exit status and the calls it issued. *)
Inductive main_run (fuel : nat) : run Z -> list Call -> Prop :=
| run_unresolved e :
    fst (findAcccountID P (mkState c0 [])) = Done (Err e) ->
    main_run fuel (Done 1) at_locate
| run_not_located acct e :
    resolved acct ->
    fst (findLatestSnap P (mkState (set_awsAcctId c0 acct) at_locate)) = Done (Some e) ->
    main_run fuel (Done 1) at_check
| run_already_copied acct l tags :
    resolved acct -> located l -> checked acct l true tags ->
    main_run fuel (Done 0) (at_copy tags)
| run_copy_rejected acct l tags :
    resolved acct -> located l -> checked acct l false tags ->
    ~ accepted acct l tags ->
    main_run fuel (Done 1) (at_wait acct l tags)
| run_spinning acct l tags :
    resolved acct -> located l -> checked acct l false tags ->
    accepted acct l tags ->
    still_creating acct l tags fuel ->
    main_run fuel Spinning (at_wait acct l tags ++ repeat (poll_call acct l) fuel)
| run_wait_failed acct l tags n e :
    resolved acct -> located l -> checked acct l false tags ->
    accepted acct l tags ->
    (n < fuel)%nat -> still_creating acct l tags n ->
    wait_ended acct l tags n (Some e) ->
    main_run fuel (Done 1) (at_cleanup acct l tags n)
| run_cleaned acct l tags n tr r :
    resolved acct -> located l -> checked acct l false tags ->
    accepted acct l tags ->
    (n < fuel)%nat -> still_creating acct l tags n ->
    wait_ended acct l tags n None ->
    cleanupSnaps P (mkState (copying_config acct l) (at_cleanup acct l tags n)) =
      (Done r, mkState (copying_config acct l) (at_cleanup acct l tags n ++ tr)) ->
    disciplined P (at_cleanup acct l tags n) tr (Done r) ->
    Forall (fun x => is_Copy x = false) tr ->
    main_run fuel (Done (match r with None => 0 | Some _ => 1 end))
             (at_cleanup acct l tags n ++ tr).

End Stages.

(** How a run with exit status [out] treats a failed call [r], the call
    number [k] (from 0) of the run and followed by the calls [post]: a
    tag read does not end the run with an error; the third call of a
    run, the listing of the idempotency check, is followed by the copy
    request; any other call is the last one and the exit status is 1. *)
Definition failure_handled (c0 : config) (out : run Z) (k : nat) (r : Call)
    (post : list (Call * bool)) : Prop :=
  (is_ListTags r = true /\ (post = [] -> out = Done 0)) \/
  (k = 2%nat /\ r = dest_listing_call c0 /\
   exists m b post', post = (CopyDBSnapshot (dst c0) m, b) :: post') \/
  (k <> 2%nat /\ is_ListTags r = false /\ post = [] /\ out = Done 1).

Fixpoint failures_handled (c0 : config) (out : run Z) (k : nat)
    (A : list (Call * bool)) : Prop :=
  match A with
  | [] => True
  | e :: A' =>
      (snd e = true -> failure_handled c0 out k (fst e) A') /\
      failures_handled c0 out (S k) A'
  end.

(** ** Example runs

    A [Scenario] fixes what the remote side answers: the user's ARN, the
    snapshots of each region, the tags by resource name, the answer to
    the copy request and to the polls (by number; the last one repeats),
    and the identifiers whose deletion fails. *)

Record Scenario : Type := mkScenario {
  sc_user : result string;
  sc_source : result (list DBSnapshot);
  sc_dest : result (list DBSnapshot);
  sc_tags : list (string * result (list Tag));
  sc_copy : result DBSnapshot;
  sc_polls : list (result (list DBSnapshot));
  sc_undeletable : list string
}.

Fixpoint assoc {A} (k : string) (l : list (string * A)) : option A :=
  match l with
  | [] => None
  | (k', v) :: l' => if String.eqb k k' then Some v else assoc k l'
  end.

Definition is_poll (r : Call) : bool :=
  match r with
  | DescribeDBSnapshots _ (mkDescribe None (Some _)) => true
  | _ => false
  end.

Fixpoint nth_or_last {A} (d : A) (l : list A) (n : nat) : A :=
  match l, n with
  | [], _ => d
  | [x], _ => x
  | x :: _, O => x
  | _ :: l', S n' => nth_or_last d l' n'
  end.

Definition deleted_snapshot (id : string) : DBSnapshot :=
  mkDBSnapshot id "mydb" 0 "deleted" 100.

Definition provider_of (sc : Scenario) : Provider :=
  mkProvider
    (fun _ _ => sc_user sc)
    (fun h region q =>
       match q_DBSnapshotIdentifier q with
       | Some _ =>
           nth_or_last (Err (RemoteError "DBSnapshotNotFound")) (sc_polls sc)
                       (length (filter (fun r => is_poll r = true) h))
       | None => if String.eqb region "us-east-1" then sc_source sc else sc_dest sc
       end)
    (fun _ _ name =>
       match assoc name (sc_tags sc) with
       | Some r => r
       | None => Ok []
       end)
    (fun _ _ _ => sc_copy sc)
    (fun _ _ id =>
       if existsb (String.eqb id) (sc_undeletable sc)
       then Err (RemoteError "InvalidDBSnapshotState")
       else Ok (deleted_snapshot id)).

Definition clock0 : Clock :=
  mkClock (time_Unix 1420070400 0)
          (fun _ layout =>
             if String.eqb layout "2006-01-02at15-04MST" then "2015-01-01at00-00UTC"
             else "2015-01-01 00:00:00 +0000").

Definition config0 (keep : Z) : config :=
  mkConfig "mydb" "us-east-1" "us-west-1" "" "" "" "AKIAEXAMPLE" "secret" keep false.

Definition user0 : string := "arn:aws:iam::123456789012:user/backup".

Definition snap (id : string) (sec : Z) (status : string) : DBSnapshot :=
  mkDBSnapshot id "mydb" (time_Unix sec 0) status 100.

Definition source0 : list DBSnapshot :=
  [ snap "rds:mydb-2014-12-30" 1419897600 "available";
    snap "rds:mydb-2014-12-31" 1419984000 "available";
    snap "rds:mydb-2014-12-29" 1419811200 "available" ].

Definition arn0 : string :=
  "arn:aws:rds:us-east-1:123456789012:snapshot:rds:mydb-2014-12-31".

Definition dst_arn (id : string) : string :=
  snapshot_arn "us-west-1" "123456789012" id.

Definition managed_tags (source_arn : string) : list Tag :=
  [ mkTag "source" "us-east-1"; mkTag "sourceid" "mydb";
    mkTag "sourcearn" source_arn; mkTag "managedby" "rdsbackup" ].

Definition creating0 : DBSnapshot :=
  mkDBSnapshot "mydb-2015-01-01at00-00UTC" "mydb" 0 "creating" 0.

(** A first run: nothing in the destination region yet; the copy is
    accepted and is available at the third poll. *)
Definition fresh_run : Scenario :=
  mkScenario (Ok user0) (Ok source0) (Ok []) []
    (Ok creating0)
    [ Ok [mkDBSnapshot "mydb-2015-01-01at00-00UTC" "mydb" 0 "creating" 10];
      Ok [mkDBSnapshot "mydb-2015-01-01at00-00UTC" "mydb" 0 "creating" 55];
      Ok [snap "mydb-2015-01-01at00-00UTC" 1420070460 "available"] ]
    [].


(** The only source snapshot is still being created: its creation time
    is not filled in. *)
Definition in_progress : DBSnapshot :=
  mkDBSnapshot "mydb-first" "mydb" zeroTime "creating" 40.

Definition source_in_progress : Scenario :=
  mkScenario (Ok user0) (Ok [in_progress]) (Ok []) [] (Ok creating0)
    [Ok [snap "mydb-2015-01-01at00-00UTC" 1420070460 "available"]] [].

(** The state in which [main] calls [findLatestSnap]. *)
Definition located0 (keep : Z) : state config :=
  mkState (set_awsAcctId (config0 keep) "123456789012") [GetUser "us-east-1"].

(** The state in which [main] reaches the purge, with keep-count
    [keep]. *)
Definition purging0 (keep : Z) : state config :=
  mkState (set_copyId (set_arn (set_awsAcctId (config0 keep) "123456789012") arn0)
                      "mydb-2015-01-01at00-00UTC")
          [].

Definition dest_listing : Call := DescribeDBSnapshots "us-west-1" (by_instance "mydb").

(** Five copies of ours in the destination region, listed out of order,
    next to an older manual snapshot, a snapshot marked by another tool
    and one whose tags cannot be read. *)
Definition copy1 : DBSnapshot := snap "mydb-2014-12-01at00-00UTC" 1417392000 "available".
Definition copy2 : DBSnapshot := snap "mydb-2014-12-08at00-00UTC" 1417996800 "available".
Definition copy3 : DBSnapshot := snap "mydb-2014-12-15at00-00UTC" 1418601600 "available".
Definition copy4 : DBSnapshot := snap "mydb-2014-12-22at00-00UTC" 1419206400 "available".
Definition copy5 : DBSnapshot := snap "mydb-2015-01-01at00-00UTC" 1420070460 "available".
Definition manual : DBSnapshot := snap "before-upgrade" 1388534400 "available".
Definition foreign : DBSnapshot := snap "nightly-2014-01-01" 1388620800 "available".
Definition unreadable : DBSnapshot := snap "mydb-2014-11-01at00-00UTC" 1414800000 "available".

Definition dest_five : list DBSnapshot :=
  [copy3; manual; copy1; copy5; foreign; copy2; unreadable; copy4].

Definition tags_five : list (string * result (list Tag)) :=
  [ (dst_arn "mydb-2014-12-01at00-00UTC", Ok (managed_tags "arn:aws:rds:us-east-1:123456789012:snapshot:rds:mydb-2014-12-01"));
    (dst_arn "mydb-2014-12-08at00-00UTC", Ok (managed_tags "arn:aws:rds:us-east-1:123456789012:snapshot:rds:mydb-2014-12-08"));
    (dst_arn "mydb-2014-12-15at00-00UTC", Ok (managed_tags "arn:aws:rds:us-east-1:123456789012:snapshot:rds:mydb-2014-12-15"));
    (dst_arn "mydb-2014-12-22at00-00UTC", Ok (managed_tags "arn:aws:rds:us-east-1:123456789012:snapshot:rds:mydb-2014-12-22"));
    (dst_arn "mydb-2015-01-01at00-00UTC", Ok (managed_tags arn0));
    (dst_arn "nightly-2014-01-01", Ok [mkTag "managedby" "cron"; mkTag "sourceid" "mydb"]);
    (dst_arn "mydb-2014-11-01at00-00UTC", Err (RemoteError "Throttling")) ].

Definition five_copies : Scenario :=
  mkScenario (Ok user0) (Ok source0) (Ok dest_five) tags_five (Ok creating0)
    [Ok [copy5]] [].

(** An earlier copy of ours is still being created (no creation time
    yet) next to the copy of this run. *)
Definition stale_copy : DBSnapshot :=
  mkDBSnapshot "mydb-2014-12-31at23-50UTC" "mydb" zeroTime "creating" 80.

Definition dest_stale : list DBSnapshot := [stale_copy; copy5].

Definition stale_in_progress : Scenario :=
  mkScenario (Ok user0) (Ok source0) (Ok dest_stale)
    [ (dst_arn "mydb-2014-12-31at23-50UTC", Ok (managed_tags arn0));
      (dst_arn "mydb-2015-01-01at00-00UTC", Ok (managed_tags arn0)) ]
    (Ok creating0) [Ok [copy5]] [].

(** The provider answers the copy request with a snapshot in status
    "failed". *)
Definition copy_refused : Scenario :=
  mkScenario (Ok user0) (Ok source0) (Ok []) []
    (Ok (mkDBSnapshot "mydb-2015-01-01at00-00UTC" "mydb" 0 "failed" 0))
    [Ok [copy5]] [].

(** A second run right after a first one: the copy of the latest source
    snapshot is already in the destination region, next to an older copy
    of ours. *)
Definition second_run : Scenario :=
  mkScenario (Ok user0) (Ok source0) (Ok [copy4; copy5])
    [ (dst_arn "mydb-2014-12-22at00-00UTC",
       Ok (managed_tags "arn:aws:rds:us-east-1:123456789012:snapshot:rds:mydb-2014-12-22"));
      (dst_arn "mydb-2015-01-01at00-00UTC", Ok (managed_tags arn0)) ]
    (Ok creating0) [Ok [copy5]] [].

(** The listing of the destination region fails (here: not authorized),
    everything else works. *)
Definition dest_unlisted : Scenario :=
  mkScenario (Ok user0) (Ok source0) (Err (RemoteError "AccessDenied")) []
    (Ok creating0) [Ok [copy5]] [].

(** The listing of the source region fails. *)
Definition source_unlisted : Scenario :=
  mkScenario (Ok user0) (Err (RemoteError "Throttling")) (Ok []) []
    (Ok creating0) [Ok [copy5]] [].

Definition legacy_config0 : Legacy.config :=
  Legacy.mkConfig "mydb" "us-east-1" "us-west-1" "" "" "AKIAEXAMPLE" "secret" true.

(** The state in which [main] starts waiting in the first run. *)
Definition waiting0 : state config :=
  mkState (copying_config clock0 (config0 0) "123456789012" source0)
          (at_wait clock0 (config0 0) "123456789012" source0 []).

(** The copy is gone at the second poll. *)
Definition copy_vanishes : Scenario :=
  mkScenario (Ok user0) (Ok source0) (Ok []) [] (Ok creating0)
    [ Ok [mkDBSnapshot "mydb-2015-01-01at00-00UTC" "mydb" 0 "creating" 10]; Ok [] ] [].

(** ** Tactics *)

Ltac unfold_m :=
  unfold bind, ret, get_cfg, set_cfg, panic, spin,
    iam_GetUser, rds_DescribeDBSnapshots, rds_ListTagsForResource,
    rds_CopyDBSnapshot, rds_DeleteDBSnapshot in *.

Ltac mem := rewrite ?elem_of_app, ?elem_of_cons; intuition (auto; congruence).

Ltac decide_it := apply (bool_decide_unpack _); vm_compute; exact I.

Ltac main_steps :=
  unfold main_body, bind, ret, get_cfg, set_cfg;
  repeat (match goal with
          | H : ?f = (_, _) |- context [?f] => rewrite H; cbv beta iota
          end);
  try reflexivity.

Ltac calls_eq :=
  unfold logged; cbn [calls]; rewrite <- ?app_assoc; reflexivity.

(** ** More vocabulary: calls by kind and region *)

(** The region of the client a call goes through. *)
Definition call_region (r : Call) : string :=
  match r with
  | GetUser region => region
  | DescribeDBSnapshots region _ => region
  | ListTagsForResource region _ => region
  | CopyDBSnapshot region _ => region
  | DeleteDBSnapshot region _ => region
  end.

(** A call that changes the remote side. *)
Definition is_write (r : Call) : bool := is_Copy r || is_Delete r.

(** A poll: a listing by snapshot identifier. *)
Definition is_poll_for (id : string) (r : Call) : Prop :=
  exists region, r = poll region id.

(** The calls of the retention pass are listings by instance, tag reads
    and deletions, all through the destination client. *)
Definition cleanup_call (c : config) (r : Call) : Prop :=
  r = DescribeDBSnapshots (dst c) (by_instance (dbid c)) \/
  (exists name, r = ListTagsForResource (dst c) name) \/
  (exists id, r = DeleteDBSnapshot (dst c) id).

(** The error a call comes back with, if any: the call [r] was issued
    after the calls [h]. *)
Definition call_error (P : Provider) (h : list Call) (r : Call) : option error :=
  let err {A} (x : result A) := match x with Ok _ => None | Err e => Some e end in
  match r with
  | GetUser region => err (on_GetUser P h region)
  | DescribeDBSnapshots region q => err (on_DescribeDBSnapshots P h region q)
  | ListTagsForResource region n => err (on_ListTagsForResource P h region n)
  | CopyDBSnapshot region m => err (on_CopyDBSnapshot P h region m)
  | DeleteDBSnapshot region i => err (on_DeleteDBSnapshot P h region i)
  end.

(** The first two steps of [main] in version 1.2, as one computation:
    resolve the account, store it, locate the snapshot. *)
Definition resolve_and_locate (P : Provider) : M config (option error) :=
  acct <- findAcccountID P ;;
  c <- get_cfg ;;
  _ <- set_cfg (set_awsAcctId c (match acct with Ok a => a | Err _ => EmptyString end)) ;;
  match acct with
  | Err e => ret (Some e)
  | Ok _ => findLatestSnap P
  end.

(** ** The command line (version 1.2)

    [docopt.Parse] returns a map from option and argument names to
    values of any type; [parseArgs] reads it with type assertions. *)
Inductive value : Type :=
| VNil
| VString (s : string)
| VBool (b : bool).

(** [v, ok := args[k].(string)]: a missing key gives the nil interface. *)
Definition as_string (v : option value) : option string :=
  match v with
  | Some (VString s) => Some s
  | _ => None
  end.

Definition as_bool (v : option value) : option bool :=
  match v with
  | Some (VBool b) => Some b
  | _ => None
  end.

(** [config{}] *)
Definition zero_config : config :=
  mkConfig EmptyString EmptyString EmptyString EmptyString EmptyString EmptyString
           EmptyString EmptyString 0 false.

Definition set_purge (c : config) (n : Z) : config :=
  mkConfig (dbid c) (src c) (dst c) (arn c) (copyId c) (awsAcctId c)
           (awsKeyId c) (awsSecret c) n (quiet c).

Definition credentials_missing : error :=
  Errorf "Must use -K and -S options or set AWS_ACCESS_KEY_ID and AWS_SECRET_ACCESS_KEY environment variables.".

Section CommandLine.

(** Outside the program: the environment ([os.Getenv] gives the empty
    string for a variable that is not set) and [strconv.Atoi], which
    returns a number next to its error. *)
Variable Getenv : string -> string.
Variable Atoi : string -> Z * option error.

(** [parseArgs], from what [docopt.Parse] returned.  A type assertion
    without [ok] panics when the value has another type. *)
Definition parseArgs (parse : result (gmap string value)) : run (config * option error) :=
  let c := zero_config in
  match parse with
  | Err e => Done (c, Some e)
  | Ok args =>
      let counted_purge :=
        match as_string (args !! "--purge") with
        | Some p => Atoi p
        | None => (0, None)
        end in
      let c := set_purge c (fst counted_purge) in
      match snd counted_purge with
      | Some e => Done (c, Some e)
      | None =>
          match as_string (args !! "<db_instance_id>") with
          | None => Panicked "interface conversion: interface is not string"
          | Some id =>
          match as_string (args !! "--source") with
          | None => Panicked "interface conversion: interface is not string"
          | Some source =>
          match as_string (args !! "--dest") with
          | None => Panicked "interface conversion: interface is not string"
          | Some dest =>
          match as_bool (args !! "--quiet") with
          | None => Panicked "interface conversion: interface is not bool"
          | Some q =>
              let key :=
                match as_string (args !! "--awskey") with
                | Some arg => arg
                | None => Getenv "AWS_ACCESS_KEY_ID"
                end in
              let secret :=
                match as_string (args !! "--awssecret") with
                | Some arg => arg
                | None => Getenv "AWS_SECRET_ACCESS_KEY"
                end in
              let c := mkConfig id source dest (arn c) (copyId c) (awsAcctId c)
                                key secret (purge c) q in
              if Nat.ltb (String.length key) 1 || Nat.ltb (String.length secret) 1
              then Done (c, Some credentials_missing)
              else Done (c, None)
          end end end end
      end
  end.

End CommandLine.

(** ** [int64arr], the [sort.Interface] of the timestamps

    An index out of range panics: [None]. *)
Definition int64arr : Type := list Z.

Definition Len (a : int64arr) : nat := length a.

Definition Swap (a : int64arr) (i j : nat) : option int64arr :=
  match (a : list Z) !! i, (a : list Z) !! j with
  | Some x, Some y => Some (<[j := x]> (<[i := y]> (a : list Z)))
  | _, _ => None
  end.

Definition Less (a : int64arr) (i j : nat) : option bool :=
  match (a : list Z) !! i, (a : list Z) !! j with
  | Some x, Some y => Some (x <? y)
  | _, _ => None
  end.

(** What [sort.Sort] can make of an array: it changes its argument by
    calls of [Swap] only. *)
Inductive swapped : int64arr -> int64arr -> Prop :=
| swapped_refl a : swapped a a
| swapped_step a i j b c : Swap a i j = Some b -> swapped b c -> swapped a c.

(** ** More example runs *)

(** A weekly run with keep-count 3: four older copies of ours are in the
    destination region, none of them a copy of the latest source
    snapshot. *)
Definition older_tags : list (string * result (list Tag)) :=
  [ (dst_arn "mydb-2014-12-01at00-00UTC", Ok (managed_tags "arn:aws:rds:us-east-1:123456789012:snapshot:rds:mydb-2014-12-01"));
    (dst_arn "mydb-2014-12-08at00-00UTC", Ok (managed_tags "arn:aws:rds:us-east-1:123456789012:snapshot:rds:mydb-2014-12-08"));
    (dst_arn "mydb-2014-12-15at00-00UTC", Ok (managed_tags "arn:aws:rds:us-east-1:123456789012:snapshot:rds:mydb-2014-12-15"));
    (dst_arn "mydb-2014-12-22at00-00UTC", Ok (managed_tags "arn:aws:rds:us-east-1:123456789012:snapshot:rds:mydb-2014-12-22")) ].

Definition weekly_run : Scenario :=
  mkScenario (Ok user0) (Ok source0) (Ok [copy3; copy1; copy4; copy2]) older_tags
    (Ok creating0) [Ok [copy5]] [].

(** The five copies again, the oldest of which cannot be deleted. *)
Definition locked_copy : Scenario :=
  mkScenario (Ok user0) (Ok source0) (Ok dest_five) tags_five (Ok creating0)
    [Ok [copy5]] ["mydb-2014-12-01at00-00UTC"].

(** The state in which [main] calls [checkSnapCopied]. *)
Definition checking0 : state config :=
  mkState (set_arn (set_awsAcctId (config0 0) "123456789012") arn0)
          [GetUser "us-east-1"; DescribeDBSnapshots "us-east-1" (by_instance "mydb")].

(** A rerun: the copy in the destination region carries the six tags of
    the run that made it. *)
Definition rerun : Scenario :=
  mkScenario (Ok user0) (Ok source0) (Ok [copy5])
    [ (dst_arn "mydb-2015-01-01at00-00UTC", Ok (copy_tags clock0 (cfg (purging0 0)))) ]
    (Ok creating0) [Ok [copy5]] [].

(** The copies in the destination region were made by the first
    release. *)
Definition legacy_made : Legacy.config :=
  Legacy.mkConfig "mydb" "us-east-1" "us-west-1" arn0 "mydb-2015-01-01at00-00UTC"
                  "AKIAEXAMPLE" "secret" true.

Definition legacy_copies : Scenario :=
  mkScenario (Ok user0) (Ok source0) (Ok [copy4; copy5])
    [ (dst_arn "mydb-2014-12-22at00-00UTC", Ok (Legacy.copy_tags clock0 legacy_made));
      (dst_arn "mydb-2015-01-01at00-00UTC", Ok (Legacy.copy_tags clock0 legacy_made)) ]
    (Ok creating0) [Ok [copy5]] [].

(** The second poll fails. *)
Definition poll_fails : Scenario :=
  mkScenario (Ok user0) (Ok source0) (Ok []) [] (Ok creating0)
    [ Ok [mkDBSnapshot "mydb-2015-01-01at00-00UTC" "mydb" 0 "creating" 10];
      Err (RemoteError "Throttling") ] [].

(** Two copies of ours made within the same second, the oldest in the
    destination region, next to three later ones. *)
Definition twin_a : DBSnapshot :=
  mkDBSnapshot "mydb-2014-11-30at23-59UTC" "mydb" (time_Unix 1417391999 100) "available" 100.
Definition twin_b : DBSnapshot :=
  mkDBSnapshot "mydb-2014-11-30-by-hand" "mydb" (time_Unix 1417391999 900) "available" 100.

Definition dest_twins : list DBSnapshot := [copy3; twin_a; copy4; twin_b; copy5].

Definition twins : Scenario :=
  mkScenario (Ok user0) (Ok source0) (Ok dest_twins)
    [ (dst_arn "mydb-2014-11-30at23-59UTC", Ok (managed_tags arn0));
      (dst_arn "mydb-2014-11-30-by-hand", Ok (managed_tags arn0));
      (dst_arn "mydb-2014-12-15at00-00UTC", Ok (managed_tags arn0));
      (dst_arn "mydb-2014-12-22at00-00UTC", Ok (managed_tags arn0));
      (dst_arn "mydb-2015-01-01at00-00UTC", Ok (managed_tags arn0)) ]
    (Ok creating0) [Ok [copy5]] [].

(** A command line as docopt returns it: options that were not given
    are nil. *)
Definition args0 : gmap string value :=
  list_to_map
    [ ("<db_instance_id>", VString "mydb"); ("--source", VString "us-east-1");
      ("--dest", VString "us-west-1"); ("--quiet", VBool false);
      ("--purge", VNil); ("--awskey", VNil); ("--awssecret", VNil);
      ("--help", VBool false); ("--version", VBool false) ].

(** The key given as the empty string. *)
Definition args_empty_key : gmap string value :=
  <["--awskey" := VString EmptyString]> args0.

Definition env0 (name : string) : string :=
  if String.eqb name "AWS_ACCESS_KEY_ID" then "AKIAEXAMPLE"
  else if String.eqb name "AWS_SECRET_ACCESS_KEY" then "secret"
  else EmptyString.

(** A stand-in for [strconv.Atoi] on the example command lines. *)
Definition atoi0 (s : string) : Z * option error :=
  match NilZero.int_of_string s with
  | Some n => (Z.of_int n, None)
  | None => (0, Some (Errorf "strconv.Atoi: invalid syntax"))
  end.
(** ** Go's [strings.Split] *)

Lemma strings_Split_nonempty s sep : strings_Split s sep <> [].
Proof.
  destruct s as [|ch rest]; simpl; [discriminate|].
  destruct (Ascii.eqb ch sep); [discriminate|].
  destruct (strings_Split rest sep); discriminate.
Qed.

Lemma strings_Join_cons f fs sep :
  fs <> [] -> strings_Join (f :: fs) sep = f +:+ String sep (strings_Join fs sep).
Proof. destruct fs; [congruence | reflexivity]. Qed.

(** Joining the fields with the separator gives the string back. *)
Lemma strings_Join_Split s sep : strings_Join (strings_Split s sep) sep = s.
Proof.
  induction s as [|ch rest IH]; [reflexivity|].
  simpl strings_Split.
  destruct (Ascii.eqb ch sep) eqn:E.
  - apply Ascii.eqb_eq in E. subst ch.
    rewrite strings_Join_cons by apply strings_Split_nonempty.
    simpl. now rewrite IH.
  - pose proof (strings_Split_nonempty rest sep) as Hne.
    destruct (strings_Split rest sep) as [|f fs]; [congruence|].
    destruct fs as [|g gs].
    + simpl in *. now rewrite IH.
    + rewrite strings_Join_cons by discriminate.
      rewrite strings_Join_cons in IH by discriminate.
      simpl. now rewrite <- IH.
Qed.

(** No field contains the separator. *)
Lemma strings_Split_clean s sep :
  Forall (fun f => contains_byte f sep = false) (strings_Split s sep).
Proof.
  induction s as [|ch rest IH]; simpl.
  - repeat constructor.
  - destruct (Ascii.eqb ch sep) eqn:E.
    + constructor; [reflexivity | exact IH].
    + destruct (strings_Split rest sep) as [|f fs].
      * repeat constructor. simpl. now rewrite E.
      * inversion IH; subst. constructor; [|assumption].
        simpl. rewrite E. assumption.
Qed.

Lemma strings_Split_field f sep :
  contains_byte f sep = false -> strings_Split f sep = [f].
Proof.
  induction f as [|ch rest IH]; simpl; [reflexivity|].
  intros H. apply orb_false_iff in H as [H1 H2].
  rewrite H1, (IH H2). reflexivity.
Qed.

Lemma strings_Split_app f sep rest :
  contains_byte f sep = false ->
  strings_Split (f +:+ String sep rest) sep = f :: strings_Split rest sep.
Proof.
  induction f as [|ch f' IH]; simpl.
  - intros _. now rewrite Ascii.eqb_refl.
  - intros H. apply orb_false_iff in H as [H1 H2].
    rewrite H1, (IH H2). reflexivity.
Qed.

(** Splitting a join of separator-free fields gives the fields back. *)
Lemma strings_Split_Join fs sep :
  fs <> [] -> Forall (fun f => contains_byte f sep = false) fs ->
  strings_Split (strings_Join fs sep) sep = fs.
Proof.
  induction fs as [|f fs IH]; [congruence|].
  intros _ Hall. inversion Hall as [|? ? Hf Hfs]; subst.
  destruct fs as [|g gs].
  - simpl. now apply strings_Split_field.
  - rewrite strings_Join_cons by discriminate.
    rewrite strings_Split_app by assumption.
    f_equal. apply IH; [discriminate | assumption].
Qed.

(** ** Stepping through computations *)

Lemma logged_calls {C} r (st : state C) : calls (logged r st) = calls st ++ [r].
Proof. reflexivity. Qed.

Lemma logged_cfg {C} r (st : state C) : cfg (logged r st) = cfg st.
Proof. reflexivity. Qed.

Lemma six_fields {A} (l : list A) :
  length l = 6%nat -> exists a b c d e f, l = [a; b; c; d; e; f].
Proof.
  intros H.
  do 6 (destruct l as [|? l]; [discriminate|]).
  destruct l; [|discriminate]. eauto 10.
Qed.

(** ** Account resolution *)

Section Account.

Variable P : Provider.

Lemma findAcccountID_run (st : state config) :
  findAcccountID P st =
  (match on_GetUser P (calls st) (src (cfg st)) with
   | Err e => Done (Err e)
   | Ok user_arn =>
       let parts := strings_Split user_arn ":"%char in
       if Nat.eqb (length parts) 6
       then match parts !! 4%nat with
            | Some p => Done (Ok p)
            | None => Panicked "index out of range"
            end
       else Done (Err (Errorf "Error parsing user ARN"))
   end, logged (GetUser (src (cfg st))) st).
Proof.
  unfold findAcccountID. unfold_m. simpl.
  destruct (on_GetUser P (calls st) (src (cfg st))) as [user_arn|e]; [|reflexivity].
  destruct (Nat.eqb (length (strings_Split user_arn ":"%char)) 6); simpl; [|reflexivity].
  destruct (strings_Split user_arn ":"%char !! 4%nat); reflexivity.
Qed.

(** C10. Account resolution splits the user ARN on colons: the fields
    are colon-free and joined by colons they give the ARN back. When
    there are not exactly six of them it fails with "Error parsing user
    ARN"; when there are six it returns the fifth. *)
Theorem account_resolution (st : state config) (user_arn : string) :
  on_GetUser P (calls st) (src (cfg st)) = Ok user_arn ->
  let parts := strings_Split user_arn ":"%char in
  strings_Join parts ":"%char = user_arn /\
  Forall (fun f => contains_byte f ":"%char = false) parts /\
  (length parts <> 6%nat ->
   fst (findAcccountID P st) = Done (Err (Errorf "Error parsing user ARN"))) /\
  (length parts = 6%nat ->
   exists f0 f1 f2 f3 f4 f5,
     parts = [f0; f1; f2; f3; f4; f5] /\
     fst (findAcccountID P st) = Done (Ok f4)).
Proof.
  intros Huser parts.
  split; [apply strings_Join_Split|].
  split; [apply strings_Split_clean|].
  rewrite findAcccountID_run, Huser. simpl. fold parts.
  split.
  - intros Hlen. apply Nat.eqb_neq in Hlen. now rewrite Hlen.
  - intros Hlen. destruct (six_fields _ Hlen) as (f0 & f1 & f2 & f3 & f4 & f5 & Hp).
    exists f0, f1, f2, f3, f4, f5. split; [assumption|].
    rewrite Hp. reflexivity.
Qed.

End Account.

Lemma account_resolution_witness :
  fst (findAcccountID (provider_of fresh_run) (mkState (config0 0) []))
  = Done (Ok "123456789012").
Proof.
  destruct (account_resolution (provider_of fresh_run) (mkState (config0 0) []) user0
              eq_refl) as (_ & _ & _ & H6).
  destruct (H6 eq_refl) as (f0 & f1 & f2 & f3 & f4 & f5 & Hp & Hr).
  rewrite Hr. vm_compute in Hp. injection Hp as <- <- <- <- <- <-. reflexivity.
Defined.

(** ** The Snapshot Locator *)

Lemma newer_fold (l : list DBSnapshot) : forall t0 id0,
  let r := fold_left newer l (t0, id0) in
  Forall (fun s => SnapshotCreateTime s <= fst r) l /\
  ((r = (t0, id0) /\ Forall (fun s => SnapshotCreateTime s <= t0) l) \/
   exists l1 s l2,
     l = l1 ++ s :: l2 /\
     r = (SnapshotCreateTime s, DBSnapshotIdentifier s) /\
     t0 < SnapshotCreateTime s /\
     Forall (fun s' => SnapshotCreateTime s' < SnapshotCreateTime s) l1).
Proof.
  induction l as [|a l IH]; intros t0 id0; simpl.
  - split; [constructor|]. left. split; [reflexivity | constructor].
  - assert (Hn : newer (t0, id0) a =
                 if t0 <? SnapshotCreateTime a
                 then (SnapshotCreateTime a, DBSnapshotIdentifier a)
                 else (t0, id0)) by reflexivity.
    rewrite Hn. clear Hn.
    destruct (Z.ltb_spec t0 (SnapshotCreateTime a)) as [Hlt|Hge].
    + destruct (IH (SnapshotCreateTime a) (DBSnapshotIdentifier a)) as [Hall Hcase].
      destruct Hcase as [[Heq Hle] | (l1 & s & l2 & Hl & Hr & Hs & Hl1)].
      * split.
        -- constructor; [rewrite Heq; simpl; lia | assumption].
        -- right. exists [], a, l. repeat split; try assumption. constructor.
      * split.
        -- constructor; [rewrite Hr; simpl; lia | assumption].
        -- right. exists (a :: l1), s, l2. subst l. repeat split; try assumption.
           ++ lia.
           ++ constructor; assumption.
    + destruct (IH t0 id0) as [Hall Hcase].
      destruct Hcase as [[Heq Hle] | (l1 & s & l2 & Hl & Hr & Hs & Hl1)].
      * split.
        -- constructor; [rewrite Heq; simpl; lia | assumption].
        -- left. split; [assumption|]. constructor; assumption.
      * split.
        -- constructor; [rewrite Hr; simpl; lia | assumption].
        -- right. exists (a :: l1), s, l2. subst l. repeat split; try assumption.
           constructor; [lia | assumption].
Qed.

(** The scan keeps the first listed snapshot with the greatest creation
    time, unless no snapshot was created after the epoch. *)
Lemma latest_scan_spec (l : list DBSnapshot) :
  (latest_scan l = (time_Unix 0 0, EmptyString) /\
   Forall (fun s => SnapshotCreateTime s <= time_Unix 0 0) l) \/
  exists l1 s l2,
    l = l1 ++ s :: l2 /\
    latest_scan l = (SnapshotCreateTime s, DBSnapshotIdentifier s) /\
    time_Unix 0 0 < SnapshotCreateTime s /\
    Forall (fun s' => SnapshotCreateTime s' < SnapshotCreateTime s) l1 /\
    Forall (fun s' => SnapshotCreateTime s' <= SnapshotCreateTime s) l.
Proof.
  destruct (newer_fold l (time_Unix 0 0) EmptyString) as [Hall Hcase].
  fold (latest_scan l) in Hall, Hcase.
  destruct Hcase as [[Heq Hle] | (l1 & s & l2 & Hl & Hr & Hs & Hl1)].
  - left. split; assumption.
  - right. exists l1, s, l2. rewrite Hr in Hall. simpl in Hall. repeat split; assumption.
Qed.

Lemma length_lt_1 {A} (l : list A) : Nat.ltb (length l) 1 = true <-> l = [].
Proof. destruct l; simpl; split; intros H; try reflexivity; discriminate. Qed.

Lemma String_length_lt_1 (s : string) :
  Nat.ltb (String.length s) 1 = true <-> s = EmptyString.
Proof.
  destruct s; simpl; split; intros H; try reflexivity; try discriminate.
Qed.

Section Locator.

Variable P : Provider.

Lemma findLatestSnap_run (st : state config) :
  let c := cfg st in
  let call := DescribeDBSnapshots (src c) (by_instance (dbid c)) in
  findLatestSnap P st =
  match on_DescribeDBSnapshots P (calls st) (src c) (by_instance (dbid c)) with
  | Err e => (Done (Some e), logged call st)
  | Ok snaps =>
      if Nat.ltb (length snaps) 1
      then (Done (Some (Errorf "No snapshots found")), logged call st)
      else if Nat.ltb (String.length (snd (latest_scan snaps))) 1
           then (Done (Some (Errorf "No usable snapshot found")), logged call st)
           else (Done None,
                 mkState (set_arn c (snapshot_arn (src c) (awsAcctId c)
                                                  (snd (latest_scan snaps))))
                         (calls st ++ [call]))
  end.
Proof.
  unfold findLatestSnap. unfold_m. simpl.
  destruct (on_DescribeDBSnapshots _ _ _ _) as [snaps|e]; [|reflexivity].
  destruct (Nat.ltb (length snaps) 1); [reflexivity|].
  destruct (latest_scan snaps) as [newest newestId]. simpl.
  destruct (Nat.ltb (String.length newestId) 1); reflexivity.
Qed.

(** C9. On a listing [l] the Locator fails with NotFound exactly when
    [l] is empty or the scan of a non-empty [l] selected no candidate
    (the identifier it ends with is empty: no snapshot was created after
    the epoch, or the chosen one has an empty identifier); in every other
    case it succeeds and [c.arn] names a listed snapshot. *)
Theorem locator_not_found (st : state config) (l : list DBSnapshot) :
  on_DescribeDBSnapshots P (calls st) (src (cfg st)) (by_instance (dbid (cfg st))) = Ok l ->
  let r := fst (findLatestSnap P st) in
  let st' := snd (findLatestSnap P st) in
  let newestId := snd (latest_scan l) in
  (l = [] -> r = Done (Some (Errorf "No snapshots found"))) /\
  (l <> [] -> newestId = EmptyString ->
   r = Done (Some (Errorf "No usable snapshot found"))) /\
  (NotFound r <-> l = [] \/ newestId = EmptyString) /\
  (newestId = EmptyString <->
   Forall (fun s => SnapshotCreateTime s <= time_Unix 0 0) l \/
   exists l1 s l2, l = l1 ++ s :: l2 /\ DBSnapshotIdentifier s = EmptyString /\
     Forall (fun s' => SnapshotCreateTime s' < SnapshotCreateTime s) l1 /\
     Forall (fun s' => SnapshotCreateTime s' <= SnapshotCreateTime s) l) /\
  (l <> [] -> newestId <> EmptyString ->
   r = Done None /\
   (exists s, s ∈ l /\ DBSnapshotIdentifier s = newestId) /\
   arn (cfg st') = snapshot_arn (src (cfg st)) (awsAcctId (cfg st)) newestId).
Proof.
  intros Hl r st' newestId. subst r st'.
  rewrite findLatestSnap_run. simpl. rewrite Hl. fold newestId.
  pose proof (@length_lt_1 DBSnapshot) as Hlen.
  pose proof String_length_lt_1 as Hid.
  assert (Hchar : newestId = EmptyString <->
    Forall (fun s => SnapshotCreateTime s <= time_Unix 0 0) l \/
    exists l1 s l2, l = l1 ++ s :: l2 /\ DBSnapshotIdentifier s = EmptyString /\
      Forall (fun s' => SnapshotCreateTime s' < SnapshotCreateTime s) l1 /\
      Forall (fun s' => SnapshotCreateTime s' <= SnapshotCreateTime s) l).
  { subst newestId.
    destruct (latest_scan_spec l) as [[Heq Hle] | (l1 & s & l2 & Hsplit & Hr & Hs & Hl1 & Hmax)].
    - rewrite Heq. simpl. split; [intros _; left; assumption | reflexivity].
    - rewrite Hr. simpl. split.
      + intros E. right. exists l1, s, l2. repeat split; assumption.
      + intros [Hle | (k1 & s' & k2 & Hk & Hempty & Hk1 & Hkmax)].
        * exfalso. rewrite Forall_forall in Hle.
          assert (s ∈ l) as Hin by (rewrite Hsplit; mem).
          specialize (Hle s Hin). lia.
        * assert (s ∈ l) as Hin by (rewrite Hsplit; mem).
          assert (s' ∈ l) as Hin' by (rewrite Hk; mem).
          rewrite Forall_forall in Hmax, Hkmax, Hl1, Hk1.
          pose proof (Hmax s' Hin') as H1. pose proof (Hkmax s Hin) as H2.
          assert (SnapshotCreateTime s = SnapshotCreateTime s') as Ht by lia.
          (* both are the first snapshot with the greatest creation time *)
          assert (l1 = k1) as Hpre.
          { clear - Hsplit Hk Hl1 Hk1 Ht.
            rewrite Hk in Hsplit. clear Hk.
            revert k1 Hsplit Hk1. induction l1 as [|a l1 IH]; intros k1 Hsplit Hk1.
            - destruct k1 as [|b k1]; [reflexivity|].
              simpl in Hsplit. injection Hsplit as Hb _. subst b.
              assert (s ∈ s :: k1) as Hx by mem. specialize (Hk1 s Hx). lia.
            - destruct k1 as [|b k1].
              + simpl in Hsplit. injection Hsplit as Hb _. subst a.
                assert (s' ∈ s' :: l1) as Hx by mem. specialize (Hl1 s' Hx). lia.
              + simpl in Hsplit. injection Hsplit as Hb Hrest. subst b.
                f_equal. apply IH; [|assumption|].
                * intros x Hx. apply Hl1. mem.
                * intros x Hx. apply Hk1. mem. }
          subst k1. rewrite Hk in Hsplit. apply app_inv_head in Hsplit.
          injection Hsplit as Hs' _. subst s'. assumption. }
  repeat split.
  - intros E. apply Hlen in E. now rewrite E.
  - intros Hne E. destruct (Nat.ltb (length l) 1) eqn:E1; [apply Hlen in E1; contradiction|].
    apply Hid in E. now rewrite E.
  - intros HNF.
    destruct (Nat.ltb (length l) 1) eqn:E1; [left; now apply Hlen|].
    destruct (Nat.ltb (String.length newestId) 1) eqn:E2; [right; now apply Hid|].
    simpl in HNF. destruct HNF; discriminate.
  - intros [E | E].
    + apply Hlen in E. rewrite E. left. reflexivity.
    + destruct (Nat.ltb (length l) 1); [left; reflexivity|].
      apply Hid in E. rewrite E. right. reflexivity.
  - apply Hchar.
  - apply Hchar.
  - destruct (Nat.ltb (length l) 1) eqn:E1; [apply Hlen in E1; contradiction|].
    destruct (Nat.ltb (String.length newestId) 1) eqn:E2; [apply Hid in E2; contradiction|].
    reflexivity.
  - subst newestId.
    destruct (latest_scan_spec l) as [[Heq Hle] | (l1 & s & l2 & Hsplit & Hr & _)].
    + rewrite Heq in H0. simpl in H0. contradiction.
    + exists s. rewrite Hr. simpl. split; [rewrite Hsplit; mem | reflexivity].
  - destruct (Nat.ltb (length l) 1) eqn:E1; [apply Hlen in E1; contradiction|].
    destruct (Nat.ltb (String.length newestId) 1) eqn:E2; [apply Hid in E2; contradiction|].
    reflexivity.
Qed.

End Locator.

Section LocatorLatest.

Variable P : Provider.

(** C4 (amended). When some listed source snapshot was created after the
    Unix epoch, the Locator selects the first listed snapshot with the
    greatest creation time (the single snapshot of a singleton list) and,
    when its identifier is not empty, succeeds with [c.arn] composed from
    the source region, the account identifier and that identifier. *)
Theorem locator_selects_latest (st : state config) (l : list DBSnapshot) :
  on_DescribeDBSnapshots P (calls st) (src (cfg st)) (by_instance (dbid (cfg st))) = Ok l ->
  Exists (fun s => time_Unix 0 0 < SnapshotCreateTime s) l ->
  exists l1 s l2,
    l = l1 ++ s :: l2 /\
    Forall (fun s' => SnapshotCreateTime s' <= SnapshotCreateTime s) l /\
    Forall (fun s' => SnapshotCreateTime s' < SnapshotCreateTime s) l1 /\
    (forall s0, l = [s0] -> s = s0) /\
    (DBSnapshotIdentifier s <> EmptyString ->
     findLatestSnap P st =
     (Done None,
      mkState (set_arn (cfg st)
                 (snapshot_arn (src (cfg st)) (awsAcctId (cfg st)) (DBSnapshotIdentifier s)))
              (calls st ++ [DescribeDBSnapshots (src (cfg st)) (by_instance (dbid (cfg st)))]))).
Proof.
  intros Hl Hex.
  destruct (latest_scan_spec l) as [[Heq Hle] | (l1 & s & l2 & Hsplit & Hr & Hs & Hl1 & Hmax)].
  - exfalso. apply Exists_exists in Hex as (s & Hin & Hs).
    rewrite Forall_forall in Hle. specialize (Hle s Hin). lia.
  - exists l1, s, l2. repeat split; try assumption.
    + intros s0 E. rewrite E in Hsplit.
      destruct l1 as [|a l1]; simpl in Hsplit.
      * now injection Hsplit as ->.
      * injection Hsplit as _ Hnil. now destruct l1.
    + intros Hid. rewrite findLatestSnap_run. simpl. rewrite Hl, Hr. simpl.
      assert (Nat.ltb (length l) 1 = false) as ->.
      { rewrite Hsplit. rewrite length_app. simpl.
        apply Nat.ltb_ge. lia. }
      destruct (Nat.ltb (String.length (DBSnapshotIdentifier s)) 1) eqn:E;
        [apply String_length_lt_1 in E; contradiction | reflexivity].
Qed.

End LocatorLatest.

(** C4, as first stated, fails where the only listed snapshot carries no
    creation time: the Locator does not select it. *)
Lemma locator_counterexample :
  on_DescribeDBSnapshots (provider_of source_in_progress) (calls (located0 0))
    "us-east-1" (by_instance "mydb") = Ok [in_progress] /\
  findLatestSnap (provider_of source_in_progress) (located0 0) =
  (Done (Some (Errorf "No usable snapshot found")),
   logged (DescribeDBSnapshots "us-east-1" (by_instance "mydb")) (located0 0)).
Proof. split; reflexivity. Qed.

Lemma locator_selects_latest_witness :
  findLatestSnap (provider_of fresh_run) (located0 0) =
  (Done None,
   mkState (set_arn (cfg (located0 0)) arn0)
           (calls (located0 0) ++ [DescribeDBSnapshots "us-east-1" (by_instance "mydb")])).
Proof.
  destruct (locator_selects_latest (provider_of fresh_run) (located0 0) source0 eq_refl)
    as (l1 & s & l2 & Hsplit & Hmax & Hl1 & _ & Hrun).
  { apply Exists_cons_hd. reflexivity. }
  assert (s = snap "rds:mydb-2014-12-31" 1419984000 "available") as ->.
  { unfold source0 in Hsplit, Hmax.
    assert (Hin : snap "rds:mydb-2014-12-31" 1419984000 "available" ∈ source0)
      by (unfold source0; mem).
    rewrite Forall_forall in Hmax. specialize (Hmax _ Hin).
    assert (Hs : s ∈ source0) by (unfold source0; rewrite Hsplit; mem).
    unfold source0 in Hs. rewrite !elem_of_cons in Hs.
    destruct Hs as [-> | [-> | [-> | Hs]]];
      [vm_compute in Hmax; contradiction | reflexivity
      | vm_compute in Hmax; contradiction | inversion Hs]. }
  apply Hrun. discriminate.
Defined.

Lemma locator_not_found_witness :
  NotFound (fst (findLatestSnap (provider_of source_in_progress) (located0 0))).
Proof.
  apply (locator_not_found (provider_of source_in_progress) (located0 0) [in_progress] eq_refl).
  right. reflexivity.
Defined.

(** ** The idempotency check *)

Lemma has_tag_spec k v tl : has_tag k v tl = true <-> mkTag k v ∈ tl.
Proof.
  unfold has_tag. rewrite existsb_exists. split.
  - intros (t & Hin & Ht). apply andb_true_iff in Ht as [Hk Hv].
    apply String.eqb_eq in Hk, Hv. destruct t as [k' v']. simpl in *. subst.
    now apply list_elem_of_In.
  - intros Hin. exists (mkTag k v). split; [now apply list_elem_of_In|].
    simpl. now rewrite !String.eqb_refl.
Qed.

Lemma tag_flags_fold a tl : forall m0 s0,
  fold_left (tag_flags a) tl (m0, s0) =
  (m0 || has_tag "managedby" "rdsbackup" tl, s0 || has_tag "sourcearn" a tl).
Proof.
  induction tl as [|t tl IH]; intros m0 s0; simpl.
  - now rewrite !orb_false_r.
  - unfold tag_flags at 2. simpl.
    destruct (String.eqb (Key t) "managedby") eqn:Ek.
    + apply String.eqb_eq in Ek.
      assert (String.eqb (Key t) "sourcearn" = false) as -> by now rewrite Ek.
      simpl. destruct (String.eqb (Value t) "rdsbackup"); rewrite IH; simpl.
      * now rewrite orb_true_r.
      * reflexivity.
    + simpl.
      destruct (String.eqb (Key t) "sourcearn" && String.eqb (Value t) a);
        rewrite IH; simpl; [now rewrite orb_true_r | reflexivity].
Qed.

Lemma is_copy_of_spec a r :
  is_copy_of a r = true <->
  exists tl, r = Ok tl /\ mkTag "managedby" "rdsbackup" ∈ tl /\ mkTag "sourcearn" a ∈ tl.
Proof.
  destruct r as [tl|e]; simpl.
  - rewrite andb_true_iff, !has_tag_spec. split.
    + intros [H1 H2]. exists tl. auto.
    + intros (tl' & E & H1 & H2). injection E as <-. auto.
  - split; [discriminate|]. intros (tl & E & _). discriminate.
Qed.

Lemma existsb_elem_of {A} (f : A -> bool) (l : list A) :
  existsb f l = true <-> exists x, x ∈ l /\ f x = true.
Proof.
  rewrite existsb_exists. split; intros (x & Hin & Hx); exists x;
    (split; [now apply list_elem_of_In | assumption]).
Qed.

Section Check.

Variable P : Provider.

Lemma checkSnapCopied_loop_run (c : config) (l : list DBSnapshot) :
  forall st : state config,
  exists tr,
    checkSnapCopied_loop P c l st =
    (Done (existsb (fun p => is_copy_of (arn c) (snd p))
                   (tag_reads P (calls st) (dst c) (awsAcctId c) l)),
     mkState (cfg st) (calls st ++ tr)) /\
    Forall (fun r => is_ListTags r = true) tr.
Proof.
  induction l as [|s l IH]; intros st.
  - exists []. simpl. unfold ret. rewrite app_nil_r. destruct st; split; [reflexivity|constructor].
  - simpl. unfold_m. simpl.
    set (name := snapshot_arn (dst c) (awsAcctId c) (DBSnapshotIdentifier s)).
    destruct (IH (logged (ListTagsForResource (dst c) name) st)) as (tr & Hrun & Hall).
    rewrite logged_calls, logged_cfg in Hrun.
    destruct (on_ListTagsForResource P (calls st) (dst c) name) as [tl|e] eqn:Etags; simpl.
    + rewrite tag_flags_fold. simpl.
      destruct (has_tag "managedby" "rdsbackup" tl && has_tag "sourcearn" (arn c) tl) eqn:Eb.
      * exists [ListTagsForResource (dst c) name]. split; [reflexivity|].
        repeat constructor.
      * exists (ListTagsForResource (dst c) name :: tr). rewrite Hrun.
        split; [now rewrite <- app_assoc | constructor; [reflexivity | assumption]].
    + exists (ListTagsForResource (dst c) name :: tr). rewrite Hrun.
      split; [now rewrite <- app_assoc | constructor; [reflexivity | assumption]].
Qed.

Lemma checkSnapCopied_run (st : state config) :
  let c := cfg st in
  let call := DescribeDBSnapshots (dst c) (by_instance (dbid c)) in
  exists tr,
    checkSnapCopied P st =
    (Done (match on_DescribeDBSnapshots P (calls st) (dst c) (by_instance (dbid c)) with
           | Err _ => false
           | Ok l => existsb (fun p => is_copy_of (arn c) (snd p))
                       (tag_reads P (calls st ++ [call]) (dst c) (awsAcctId c) l)
           end),
     mkState c (calls st ++ call :: tr)) /\
    Forall (fun r => is_ListTags r = true) tr /\
    (is_Err (on_DescribeDBSnapshots P (calls st) (dst c) (by_instance (dbid c))) = true ->
     tr = []).
Proof.
  intros c call. unfold checkSnapCopied. unfold_m. simpl. fold c. fold call.
  destruct (on_DescribeDBSnapshots P (calls st) (dst c) (by_instance (dbid c))) as [l|e].
  - destruct (checkSnapCopied_loop_run c l (logged call st)) as (tr & Hrun & Hall).
    exists tr. rewrite Hrun. rewrite logged_calls, logged_cfg. fold c.
    rewrite <- app_assoc. simpl. repeat split; [assumption | discriminate].
  - exists []. repeat split; constructor.
Qed.

End Check.

(** ** Copy initiation and the completion wait *)

Lemma annotate_app P h tr1 tr2 :
  annotate P h (tr1 ++ tr2) = annotate P h tr1 ++ annotate P (h ++ tr1) tr2.
Proof.
  revert h. induction tr1 as [|r tr1 IH]; intros h; simpl.
  - now rewrite app_nil_r.
  - rewrite IH. now rewrite <- app_assoc.
Qed.

Lemma annotate_length P h tr : length (annotate P h tr) = length tr.
Proof. revert h. induction tr; intros h; simpl; [reflexivity | now rewrite IHtr]. Qed.

Lemma annotate_fst P h tr : map fst (annotate P h tr) = tr.
Proof. revert h. induction tr; intros h; simpl; [reflexivity | now rewrite IHtr]. Qed.

Lemma repeat_snoc {A} (x : A) n : repeat x (S n) = repeat x n ++ [x].
Proof. induction n; simpl; [reflexivity | now rewrite <- IHn]. Qed.

Section CopyWait.

Variable P : Provider.
Variable clk : Clock.

Lemma copySnap_run (st : state config) :
  let c := set_copyId (cfg st)
             (dbid (cfg st) +:+ "-" +:+ Format clk (Now clk) "2006-01-02at15-04MST") in
  let m := mkCopy (arn c) (copy_tags clk c) (copyId c) in
  copySnap P clk st =
  (Done (match on_CopyDBSnapshot P (calls st) (dst c) m with
         | Err e => Some e
         | Ok snap =>
             if String.eqb (Status snap) "creating" then None
             else Some (Errorf ("Error creating snapshot - unexpected status: "
                                +:+ Status snap))
         end),
   mkState c (calls st ++ [CopyDBSnapshot (dst c) m])).
Proof.
  intros c m. subst c m. unfold copySnap. unfold_m. cbn.
  match goal with
  | |- context [on_CopyDBSnapshot ?a ?b ?c ?d] =>
      destruct (on_CopyDBSnapshot a b c d) as [snap|e]; [|reflexivity]
  end.
  destruct (String.eqb (Status snap) "creating"); reflexivity.
Qed.

Lemma waitForCopy_loop_step {C} fuel region q (st : state C) :
  waitForCopy_loop P (S fuel) region q st =
  match poll_verdict (on_DescribeDBSnapshots P (calls st) region q) with
  | Continue => waitForCopy_loop P fuel region q (logged (DescribeDBSnapshots region q) st)
  | Stop r => (Done r, logged (DescribeDBSnapshots region q) st)
  end.
Proof.
  simpl. unfold_m. simpl.
  destruct (on_DescribeDBSnapshots P (calls st) region q) as [l|e]; [|reflexivity].
  destruct l as [|s [|s' l]]; simpl; try reflexivity.
  destruct (String.eqb (Status s) "creating"); reflexivity.
Qed.

(** Polls that all say "creating" keep the loop going. *)
Lemma waitForCopy_loop_creating {C} region q : forall n fuel (st : state C),
  (forall i, (i < n)%nat -> poll_verdict (poll_answer P (calls st) region q i) = Continue) ->
  waitForCopy_loop P (n + fuel) region q st =
  waitForCopy_loop P fuel region q
    (mkState (cfg st) (calls st ++ repeat (DescribeDBSnapshots region q) n)).
Proof.
  induction n as [|n IH]; intros fuel st Hall.
  - simpl. rewrite app_nil_r. now destruct st.
  - replace (S n + fuel)%nat with (S (n + fuel)) by lia.
    rewrite waitForCopy_loop_step.
    pose proof (Hall 0%nat ltac:(lia)) as H0. unfold poll_answer in H0.
    simpl in H0. rewrite app_nil_r in H0. rewrite H0.
    rewrite IH.
    + simpl. now rewrite <- app_assoc.
    + intros i Hi. specialize (Hall (S i) ltac:(lia)).
      unfold poll_answer in *. simpl in *. now rewrite <- app_assoc.
Qed.

(** Every run of the loop: some polls that say "creating", then either
    the fuel is spent or one more poll stops the loop. *)
Lemma waitForCopy_loop_run {C} region q : forall fuel (st : state C),
  exists n,
    (forall i, (i < n)%nat -> poll_verdict (poll_answer P (calls st) region q i) = Continue) /\
    ((n = fuel /\
      waitForCopy_loop P fuel region q st =
      (Spinning, mkState (cfg st) (calls st ++ repeat (DescribeDBSnapshots region q) n))) \/
     (exists r, (n < fuel)%nat /\
      poll_verdict (poll_answer P (calls st) region q n) = Stop r /\
      waitForCopy_loop P fuel region q st =
      (Done r, mkState (cfg st) (calls st ++ repeat (DescribeDBSnapshots region q) (S n))))).
Proof.
  induction fuel as [|fuel IH]; intros st.
  - exists 0%nat. split; [intros i Hi; lia|]. left. split; [reflexivity|].
    simpl. unfold spin. rewrite app_nil_r. now destruct st.
  - rewrite waitForCopy_loop_step.
    destruct (poll_verdict (on_DescribeDBSnapshots P (calls st) region q)) as [|r] eqn:Ev.
    + destruct (IH (logged (DescribeDBSnapshots region q) st)) as (n & Hpre & Hcase).
      exists (S n). split.
      * intros [|i] Hi.
        -- unfold poll_answer. simpl. now rewrite app_nil_r.
        -- specialize (Hpre i ltac:(lia)). unfold poll_answer in *.
           rewrite logged_calls in Hpre. simpl. now rewrite <- app_assoc in Hpre.
      * rewrite ?logged_calls, ?logged_cfg in Hcase.
        destruct Hcase as [[Hn Hrun] | (r & Hn & Hv & Hrun)].
        -- left. split; [lia|]. rewrite Hrun. simpl. now rewrite <- app_assoc.
        -- right. exists r. split; [lia|]. split.
           ++ unfold poll_answer in *. rewrite ?logged_calls in Hv.
              simpl. now rewrite <- app_assoc in Hv.
           ++ rewrite Hrun. simpl. now rewrite <- app_assoc.
    + exists 0%nat. split; [intros i Hi; lia|]. right. exists r.
      split; [lia|]. split.
      * unfold poll_answer. simpl. now rewrite app_nil_r.
      * reflexivity.
Qed.

(** C8. After polls that all show "creating", the wait ends at the first
    poll that does not: with success when it shows a single snapshot in
    any other status, whatever its progress, and with "New snapshot
    missing!" when it shows no snapshot or more than one. No further poll
    is made. *)
Theorem wait_ends_at_first_change (st : state config) (n fuel : nat) :
  let q := by_snapshot (copyId (cfg st)) in
  let region := dst (cfg st) in
  (n < fuel)%nat ->
  (forall i, (i < n)%nat ->
     exists s, poll_answer P (calls st) region q i = Ok [s] /\ Status s = "creating") ->
  let st' := mkState (cfg st) (calls st ++ repeat (poll region (copyId (cfg st))) (S n)) in
  (forall s, poll_answer P (calls st) region q n = Ok [s] -> Status s <> "creating" ->
     waitForCopy P fuel st = (Done None, st')) /\
  (forall l, poll_answer P (calls st) region q n = Ok l -> length l <> 1%nat ->
     waitForCopy P fuel st = (Done (Some (Errorf "New snapshot missing!")), st')).
Proof.
  intros q region Hfuel Hpre st'.
  assert (Hcont : forall i, (i < n)%nat ->
            poll_verdict (poll_answer P (calls st) region q i) = Continue).
  { intros i Hi. destruct (Hpre i Hi) as (s & -> & Hs). simpl. now rewrite Hs. }
  assert (Hrun : forall r, poll_verdict (poll_answer P (calls st) region q n) = Stop r ->
            waitForCopy P fuel st = (Done r, st')).
  { intros r Hv. unfold waitForCopy. unfold_m. simpl. fold q region.
    replace fuel with (n + S (fuel - S n))%nat by lia.
    rewrite (waitForCopy_loop_creating region q n _ st Hcont).
    rewrite waitForCopy_loop_step. simpl calls.
    unfold poll_answer in Hv. rewrite Hv.
    unfold st', poll. fold q. rewrite repeat_snoc, app_assoc. reflexivity. }
  split.
  - intros s Hs Hstatus. apply Hrun. rewrite Hs. simpl.
    apply String.eqb_neq in Hstatus. now rewrite Hstatus.
  - intros l Hl Hlen. apply Hrun. rewrite Hl.
    destruct l as [|s [|s' l]]; simpl; try reflexivity. simpl in Hlen. congruence.
Qed.

End CopyWait.

(** ** The Retention Enforcer *)

Section Cleanup.

Variable P : Provider.

Lemma cleanup_scan_run (c : config) (l : list DBSnapshot) :
  forall acc (st : state config),
    cleanup_scan P c l acc st =
    (Done (fold_left collect_read (tag_reads P (calls st) (dst c) (awsAcctId c) l) acc),
     mkState (cfg st) (calls st ++ tag_calls c l)).
Proof.
  induction l as [|s l IH]; intros acc st.
  - simpl. unfold ret. rewrite app_nil_r. now destruct st.
  - simpl. unfold_m. simpl.
    set (name := snapshot_arn (dst c) (awsAcctId c) (DBSnapshotIdentifier s)).
    unfold collect_read at 2. simpl. fold name.
    destruct (on_ListTagsForResource P (calls st) (dst c) name) as [tl|e];
      rewrite IH; rewrite logged_calls, logged_cfg, <- app_assoc; reflexivity.
Qed.

Lemma purge_calls_0 c snaps keys i : purge_calls c snaps keys i 0 = [].
Proof. reflexivity. Qed.

Lemma purge_calls_S c snaps keys i j k :
  keys !! i = Some k ->
  purge_calls c snaps keys i (S j) =
  DeleteDBSnapshot (dst c) (default EmptyString (snaps !! k))
    :: purge_calls c snaps keys (S i) j.
Proof.
  intros Hk. unfold purge_calls.
  rewrite (drop_S _ _ _ Hk). reflexivity.
Qed.

(** The purge loop deletes key by key and stops at the first failure. *)
Lemma purge_loop_run (c : config) (snaps : gmap Z string) (keys : list Z) :
  forall n i (st : state config),
    (i + n <= length keys)%nat ->
    exists j r,
      purge_loop P c snaps keys i n st =
      (Done r, mkState (cfg st) (calls st ++ purge_calls c snaps keys i j)) /\
      (j <= n)%nat /\
      disciplined P (calls st) (purge_calls c snaps keys i j) (Done r) /\
      (r = None -> j = n) /\
      ((forall h id, is_Err (on_DeleteDBSnapshot P h (dst c) id) = false) -> r = None).
Proof.
  induction n as [|n IH]; intros i st Hlen.
  - exists 0%nat, None. rewrite purge_calls_0, app_nil_r. simpl.
    repeat split; try constructor. now destruct st.
  - simpl.
    destruct (keys !! i) as [k|] eqn:Hk;
      [|apply lookup_ge_None in Hk; lia].
    unfold_m. simpl.
    set (id := default EmptyString (snaps !! k)).
    destruct (on_DeleteDBSnapshot P (calls st) (dst c) id) as [d|e] eqn:Edel.
    + destruct (IH (S i) (logged (DeleteDBSnapshot (dst c) id) st) ltac:(lia))
        as (j & r & Hrun & Hj & Hdisc & Hnone & Hok).
      exists (S j), r. rewrite Hrun, logged_calls, logged_cfg.
      rewrite (purge_calls_S _ _ _ _ _ _ Hk). fold id.
      rewrite <- app_assoc. simpl.
      split; [reflexivity|]. split; [lia|]. split; [|split; [intros E; rewrite (Hnone E); reflexivity | exact Hok]].
      rewrite logged_calls in Hdisc.
      assert (Hhead : benign (DeleteDBSnapshot (dst c) id, failed P (calls st) (DeleteDBSnapshot (dst c) id))).
      { intros Hf. simpl in Hf. rewrite Edel in Hf. discriminate. }
      destruct r as [e|]; simpl in *.
      * destruct Hdisc as (tr0 & x & Htr & Hall & Hx).
        exists (DeleteDBSnapshot (dst c) id :: tr0), x. rewrite Htr. simpl.
        repeat split; [|assumption]. constructor; assumption.
      * constructor; assumption.
    + exists 1%nat, (Some e). rewrite (purge_calls_S _ _ _ _ _ _ Hk). fold id.
      rewrite purge_calls_0.
      split; [reflexivity|]. split; [lia|]. split; [|split; [discriminate|]].
      * simpl. exists [], (DeleteDBSnapshot (dst c) id). repeat split. constructor.
      * intros Hok. specialize (Hok (calls st) id). rewrite Edel in Hok. discriminate.
Qed.

End Cleanup.

(** ** What the retention scan collects *)

Lemma has_tag_marks tl :
  has_tag "managedby" "rdsbackup" tl = negb (Nat.eqb (marks tl) 0).
Proof.
  unfold has_tag, marks. induction tl as [|t tl IH]; [reflexivity|].
  simpl. fold (is_mark t). destruct (is_mark t); simpl; [reflexivity | exact IH].
Qed.

Lemma tag_collect_eq (s : DBSnapshot) acc (t : Tag) :
  tag_collect s acc t =
  if is_mark t && (0 <? stamp s)
  then (<[stamp s := DBSnapshotIdentifier s]> (fst acc), snd acc ++ [stamp s])
  else acc.
Proof.
  unfold tag_collect. fold (is_mark t). fold (stamp s).
  destruct (is_mark t); reflexivity.
Qed.

Lemma tag_collect_fold (s : DBSnapshot) (tl : list Tag) : forall acc,
  fold_left (tag_collect s) tl acc =
  if (0 <? stamp s) && negb (Nat.eqb (marks tl) 0)
  then (<[stamp s := DBSnapshotIdentifier s]> (fst acc),
        snd acc ++ repeat (stamp s) (marks tl))
  else acc.
Proof.
  unfold marks. induction tl as [|t tl IH]; intros acc.
  - simpl. now rewrite andb_false_r.
  - simpl fold_left. rewrite IH, tag_collect_eq. simpl List.filter.
    destruct (is_mark t); simpl; [|reflexivity].
    destruct (0 <? stamp s); simpl; [|reflexivity].
    rewrite insert_insert_eq, <- app_assoc. simpl.
    destruct (Nat.eqb (length (List.filter is_mark tl)) 0) eqn:E; simpl.
    + apply Nat.eqb_eq in E. rewrite E. reflexivity.
    + reflexivity.
Qed.

Lemma collect_read_eq acc (p : DBSnapshot * result (list Tag)) :
  collect_read acc p =
  if is_managed (snd p) && (0 <? stamp (fst p))
  then (<[stamp (fst p) := DBSnapshotIdentifier (fst p)]> (fst acc),
        snd acc ++ repeat (stamp (fst p))
                     (match snd p with Ok tl => marks tl | Err _ => 0%nat end))
  else acc.
Proof.
  unfold collect_read. destruct p as [s [tl|e]]; simpl; [|reflexivity].
  rewrite tag_collect_fold, has_tag_marks. now rewrite andb_comm.
Qed.

Lemma managed_of_snoc reads p :
  managed_of (reads ++ [p]) =
  managed_of reads ++ (if is_managed (snd p) then [fst p] else []).
Proof.
  unfold managed_of. rewrite filter_app, map_app. f_equal.
  rewrite filter_cons. destruct (decide (is_managed (snd p) = true)) as [E|E].
  - now rewrite E.
  - apply not_true_is_false in E. now rewrite E.
Qed.

Lemma collect_inv_step reads acc p :
  collect_inv reads acc -> collect_inv (reads ++ [p]) (collect_read acc p).
Proof.
  intros (Hsize & Hkeys & Hvals). unfold collect_inv.
  rewrite collect_read_eq, managed_of_snoc.
  destruct (is_managed (snd p)) eqn:Em; simpl.
  - destruct (Z.ltb_spec 0 (stamp (fst p))) as [Hpos|Hneg].
    + repeat split; simpl.
      * rewrite length_app.
        assert (0 < length (repeat (stamp (fst p))
                   (match snd p with Ok tl => marks tl | Err _ => 0%nat end)))%nat.
        { rewrite repeat_length. destruct (snd p) as [tl|e]; [|discriminate].
          simpl in Em. rewrite has_tag_marks in Em.
          destruct (marks tl); [discriminate | lia]. }
        pose proof (map_size_insert (stamp (fst p)) (DBSnapshotIdentifier (fst p)) (fst acc)) as Hs.
        destruct (fst acc !! stamp (fst p)); simpl in Hs; lia.
      * intros k Hk. apply elem_of_app in Hk as [Hk | Hk].
        -- destruct (decide (stamp (fst p) = k)) as [<-|Hne].
           ++ rewrite lookup_insert_eq. eauto.
           ++ rewrite lookup_insert_ne by assumption. auto.
        -- apply list_elem_of_In, repeat_spec in Hk. subst k.
           rewrite lookup_insert_eq. eauto.
      * intros k id Hk.
        destruct (decide (stamp (fst p) = k)) as [<-|Hne].
        -- rewrite lookup_insert_eq in Hk. injection Hk as <-.
           exists (fst p). repeat split; [mem | assumption].
        -- rewrite lookup_insert_ne in Hk by assumption.
           destruct (Hvals k id Hk) as (s & Hin & Hs).
           exists s. split; [mem | assumption].
    + repeat split; try assumption.
      intros k id Hk. destruct (Hvals k id Hk) as (s & Hin & Hs).
      exists s. split; [mem | assumption].
  - rewrite app_nil_r. repeat split; assumption.
Qed.

Lemma collect_inv_fold reads : forall pre acc,
  collect_inv pre acc -> collect_inv (pre ++ reads) (fold_left collect_read reads acc).
Proof.
  induction reads as [|p reads IH]; intros pre acc Hinv; simpl.
  - now rewrite app_nil_r.
  - replace (pre ++ p :: reads) with ((pre ++ [p]) ++ reads) by now rewrite <- app_assoc.
    apply IH, collect_inv_step, Hinv.
Qed.

Lemma collected_inv reads : collect_inv reads (collected reads).
Proof.
  apply (collect_inv_fold reads [] (∅, [])).
  repeat split; simpl.
  - rewrite map_size_empty. lia.
  - intros k Hk. inversion Hk.
  - intros k id Hk. rewrite lookup_empty in Hk. discriminate.
Qed.

Lemma sort_int64arr_length keys : length (sort_int64arr keys) = length keys.
Proof. unfold sort_int64arr. now rewrite merge_sort_Permutation. Qed.

Lemma elem_of_sort_int64arr k keys : k ∈ sort_int64arr keys <-> k ∈ keys.
Proof. unfold sort_int64arr. now rewrite merge_sort_Permutation. Qed.

(** ** Runs of [cleanupSnaps] *)

Lemma benign_tag_reads P h tr :
  Forall (fun r => is_ListTags r = true) tr -> Forall benign (annotate P h tr).
Proof.
  revert h. induction tr as [|r tr IH]; intros h Hall; simpl; [constructor|].
  inversion Hall; subst. constructor; [intros _; assumption | now apply IH].
Qed.

Lemma disciplined_app P h tr1 tr2 r :
  Forall benign (annotate P h tr1) ->
  disciplined P (h ++ tr1) tr2 r ->
  disciplined P h (tr1 ++ tr2) r.
Proof.
  intros H1 H2. destruct r as [[e|]|msg|]; simpl in *.
  - destruct H2 as (tr0 & x & -> & Hall & Hx).
    exists (tr1 ++ tr0), x. rewrite app_assoc. repeat split; [|assumption].
    rewrite annotate_app. apply Forall_app. split; assumption.
  - rewrite annotate_app. apply Forall_app. split; assumption.
  - assumption.
  - rewrite annotate_app. apply Forall_app. split; assumption.
Qed.

Lemma tag_calls_are_tag_reads c l : Forall (fun r => is_ListTags r = true) (tag_calls c l).
Proof. unfold tag_calls. induction l; simpl; constructor; [reflexivity | assumption]. Qed.

Section CleanupRun.

Variable P : Provider.

Lemma cleanupSnaps_disabled (st : state config) :
  purge (cfg st) <= 0 -> cleanupSnaps P st = (Done None, st).
Proof.
  intros Hk. unfold cleanupSnaps. unfold_m. simpl.
  apply Z.leb_le in Hk. now rewrite Hk.
Qed.

Lemma cleanupSnaps_run (st : state config) :
  let c := cfg st in
  let call := DescribeDBSnapshots (dst c) (by_instance (dbid c)) in
  0 < purge c ->
  match on_DescribeDBSnapshots P (calls st) (dst c) (by_instance (dbid c)) with
  | Err e => cleanupSnaps P st = (Done (Some e), logged call st)
  | Ok l =>
      let reads := tag_reads P (calls st ++ [call]) (dst c) (awsAcctId c) l in
      let snaps := fst (collected reads) in
      let keys := sort_int64arr (snd (collected reads)) in
      let n := Z.to_nat (Z.of_nat (size snaps) - purge c) in
      if Z.of_nat (size snaps) <=? purge c
      then cleanupSnaps P st = (Done None, mkState c (calls st ++ call :: tag_calls c l))
      else exists j r,
          cleanupSnaps P st =
          (Done r, mkState c (calls st ++ call :: tag_calls c l
                                ++ purge_calls c snaps keys 0 j)) /\
          (j <= n)%nat /\
          disciplined P (calls st ++ call :: tag_calls c l)
                      (purge_calls c snaps keys 0 j) (Done r) /\
          (r = None -> j = n) /\
          ((forall h id, is_Err (on_DeleteDBSnapshot P h (dst c) id) = false) -> r = None)
  end.
Proof.
  intros c call Hk.
  unfold cleanupSnaps. unfold_m. simpl. fold c. fold call.
  apply Z.leb_gt in Hk. rewrite Hk.
  destruct (on_DescribeDBSnapshots P (calls st) (dst c) (by_instance (dbid c))) as [l|e];
    [|reflexivity].
  rewrite cleanup_scan_run. rewrite logged_calls, logged_cfg. fold c. fold call.
  set (reads := tag_reads P (calls st ++ [call]) (dst c) (awsAcctId c) l).
  fold (collected reads).
  pose proof (collected_inv reads) as (Hsize & _).
  destruct (collected reads) as [m ks] eqn:Ecol. simpl in Hsize. simpl fst. simpl snd.
  set (n := Z.to_nat (Z.of_nat (size m) - purge c)).
  destruct (Z.of_nat (size m) <=? purge c) eqn:Ele.
  - rewrite <- app_assoc. reflexivity.
  - destruct (purge_loop_run P c m (sort_int64arr ks) n 0
                (mkState c ((calls st ++ [call]) ++ tag_calls c l)))
      as (j & r & Hrun & Hj & Hdisc & Hnone & Hok).
    { rewrite sort_int64arr_length. subst n. apply Z.leb_gt in Ele, Hk. lia. }
    exists j, r. rewrite Hrun. simpl.
    rewrite <- !app_assoc. simpl.
    split; [reflexivity|]. split; [assumption|].
    split; [|split; assumption].
    simpl in Hdisc. rewrite <- app_assoc in Hdisc. exact Hdisc.
Qed.

Lemma purge_calls_are_deletes c snaps keys i j :
  Forall (fun r => is_Delete r = true) (purge_calls c snaps keys i j).
Proof.
  unfold purge_calls. induction (take j (drop i keys)); simpl; constructor;
    [reflexivity | assumption].
Qed.

(** Every run of [cleanupSnaps] keeps the discipline and copies nothing. *)
Lemma cleanupSnaps_disciplined (st : state config) :
  exists tr r,
    cleanupSnaps P st = (Done r, mkState (cfg st) (calls st ++ tr)) /\
    disciplined P (calls st) tr (Done r) /\
    Forall (fun x => is_Copy x = false) tr.
Proof.
  destruct (Z.le_gt_cases (purge (cfg st)) 0) as [Hk|Hk].
  - exists [], None. rewrite cleanupSnaps_disabled by assumption.
    rewrite app_nil_r. repeat split; try constructor. now destruct st.
  - pose proof (cleanupSnaps_run st Hk) as Hrun. simpl in Hrun.
    set (c := cfg st) in *.
    set (call := DescribeDBSnapshots (dst c) (by_instance (dbid c))) in *.
    destruct (on_DescribeDBSnapshots P (calls st) (dst c) (by_instance (dbid c)))
      as [l|e] eqn:Elist.
    + assert (Hpre : Forall benign (annotate P (calls st) (call :: tag_calls c l))).
      { simpl. constructor.
        - intros Hf. simpl in Hf. rewrite Elist in Hf. discriminate.
        - apply benign_tag_reads, tag_calls_are_tag_reads. }
      assert (Hnc : Forall (fun x => is_Copy x = false) (call :: tag_calls c l)).
      { constructor; [reflexivity|].
        eapply Forall_impl; [apply tag_calls_are_tag_reads|].
        intros [] Hx; simpl in *; congruence. }
      destruct (Z.of_nat (size _) <=? purge c).
      * exists (call :: tag_calls c l), None. rewrite Hrun. repeat split; assumption.
      * destruct Hrun as (j & r & Hrun & _ & Hdisc & _).
        eexists (call :: tag_calls c l ++ _), r. rewrite Hrun. split; [reflexivity|].
        split.
        -- change (call :: tag_calls c l ++ ?x) with ((call :: tag_calls c l) ++ x).
           apply disciplined_app; assumption.
        -- change (call :: tag_calls c l ++ ?x) with ((call :: tag_calls c l) ++ x).
           apply Forall_app. split; [assumption|].
           eapply Forall_impl; [apply purge_calls_are_deletes|].
           intros [] Hx; simpl in *; congruence.
    + exists [call], (Some e). rewrite Hrun. split; [reflexivity|]. split.
      * simpl. exists [], call. repeat split. constructor.
      * repeat constructor.
Qed.

End CleanupRun.

(** ** Unmanaged snapshots *)

Lemma tag_reads_fst P h region acct l : map fst (tag_reads P h region acct l) = l.
Proof. revert h. induction l as [|s l IH]; intros h; simpl; [reflexivity | now rewrite IH]. Qed.

Lemma NoDup_map_inj {A B} (f : A -> B) (l : list A) x y :
  NoDup (map f l) -> x ∈ l -> y ∈ l -> f x = f y -> x = y.
Proof.
  induction l as [|a l IH]; intros Hnd Hx Hy Hf; [inversion Hx|].
  simpl in Hnd. apply NoDup_cons in Hnd as [Hnotin Hnd].
  apply elem_of_cons in Hx as [->|Hx]; apply elem_of_cons in Hy as [->|Hy].
  - reflexivity.
  - exfalso. apply Hnotin. rewrite Hf. change (map f l) with (f <$> l).
    now apply list_elem_of_fmap_2.
  - exfalso. apply Hnotin. rewrite <- Hf. change (map f l) with (f <$> l).
    now apply list_elem_of_fmap_2.
  - now apply IH.
Qed.

Lemma elem_of_managed_of reads s :
  s ∈ managed_of reads <-> exists rt, (s, rt) ∈ reads /\ is_managed rt = true.
Proof.
  unfold managed_of. change (map fst ?l) with (fst <$> l).
  rewrite list_elem_of_fmap. split.
  - intros ([s' rt] & -> & Hin). apply list_elem_of_filter in Hin as [Hm Hin].
    exists rt. split; assumption.
  - intros (rt & Hin & Hm). exists (s, rt). split; [reflexivity|].
    apply list_elem_of_filter. split; assumption.
Qed.

Section Unmanaged.

Variable P : Provider.

(** Every deletion the purge issues names a snapshot that the scan read
    as ours. *)
Lemma purge_calls_managed c reads i j region id :
  DeleteDBSnapshot region id
    ∈ purge_calls c (fst (collected reads)) (sort_int64arr (snd (collected reads))) i j ->
  exists s, s ∈ managed_of reads /\ DBSnapshotIdentifier s = id /\ 0 < stamp s.
Proof.
  intros Hin. unfold purge_calls in Hin.
  change (map ?f ?l) with (f <$> l) in Hin.
  apply list_elem_of_fmap in Hin as (k & Heq & Hk).
  injection Heq as _ Hid.
  assert (k ∈ snd (collected reads)) as Hk'.
  { apply elem_of_sort_int64arr. eapply subseteq_drop, subseteq_take, Hk. }
  destruct (collected_inv reads) as (_ & Hkeys & Hvals).
  destruct (Hkeys k Hk') as [id' Hid'].
  rewrite Hid' in Hid. simpl in Hid. subst id'.
  destruct (Hvals k id Hid') as (s & Hs & Hstamp & Hsid & Hpos).
  exists s. repeat split; [assumption | assumption | lia].
Qed.

(** C3. A listed destination snapshot whose tag read fails or comes back
    without [managedby = rdsbackup] is never deleted by the Retention
    Enforcer, whatever its creation time, the keep-count and the other
    snapshots (identifiers being unique within the region). *)
Theorem unmanaged_never_deleted (st : state config) (l : list DBSnapshot)
    (s : DBSnapshot) (rt : result (list Tag)) :
  let c := cfg st in
  let call := DescribeDBSnapshots (dst c) (by_instance (dbid c)) in
  on_DescribeDBSnapshots P (calls st) (dst c) (by_instance (dbid c)) = Ok l ->
  NoDup (map DBSnapshotIdentifier l) ->
  (s, rt) ∈ tag_reads P (calls st ++ [call]) (dst c) (awsAcctId c) l ->
  is_managed rt = false ->
  exists tr r,
    cleanupSnaps P st = (Done r, mkState c (calls st ++ tr)) /\
    forall region, DeleteDBSnapshot region (DBSnapshotIdentifier s) ∉ tr.
Proof.
  intros c call Hlist Hnd Hin Hm.
  set (reads := tag_reads P (calls st ++ [call]) (dst c) (awsAcctId c) l) in *.
  assert (Hnot : forall i j region,
    DeleteDBSnapshot region (DBSnapshotIdentifier s)
      ∉ purge_calls c (fst (collected reads)) (sort_int64arr (snd (collected reads))) i j).
  { intros i j region Hdel.
    apply purge_calls_managed in Hdel as (s' & Hs' & Hid & _).
    apply elem_of_managed_of in Hs' as (rt' & Hin' & Hm').
    assert ((s', rt') = (s, rt)) as E.
    { apply (NoDup_map_inj (fun p => DBSnapshotIdentifier (fst p)) reads);
        try assumption.
      rewrite <- (tag_reads_fst P (calls st ++ [call]) (dst c) (awsAcctId c) l) in Hnd.
      fold reads in Hnd. now rewrite map_map in Hnd. }
    injection E as _ E. congruence. }
  assert (Hscan : forall region,
    DeleteDBSnapshot region (DBSnapshotIdentifier s) ∉ call :: tag_calls c l).
  { intros region Hdel. apply elem_of_cons in Hdel as [Hdel|Hdel]; [discriminate|].
    pose proof (tag_calls_are_tag_reads c l) as Hall.
    rewrite Forall_forall in Hall. specialize (Hall _ Hdel). discriminate. }
  destruct (Z.le_gt_cases (purge c) 0) as [Hk|Hk].
  - exists [], None. rewrite cleanupSnaps_disabled by assumption.
    rewrite app_nil_r. split; [now destruct st|]. intros region Hdel. inversion Hdel.
  - pose proof (cleanupSnaps_run P st Hk) as Hrun. simpl in Hrun.
    fold c in Hrun. fold call in Hrun. rewrite Hlist in Hrun. fold reads in Hrun.
    destruct (Z.of_nat (size _) <=? purge c).
    + exists (call :: tag_calls c l), None. split; [assumption | apply Hscan].
    + destruct Hrun as (j & r & Hrun & _).
      eexists (call :: tag_calls c l ++ _), r. split; [exact Hrun|].
      intros region Hdel.
      change (call :: tag_calls c l ++ ?x) with ((call :: tag_calls c l) ++ x) in Hdel.
      apply elem_of_app in Hdel as [Hdel|Hdel].
      * exact (Hscan region Hdel).
      * exact (Hnot _ _ region Hdel).
Qed.

End Unmanaged.

(** ** Retention: which snapshots are purged *)

#[global] Instance not_younger_total : Total not_younger.
Proof. intros a b. unfold not_younger. lia. Qed.

#[global] Instance not_younger_trans : Transitive not_younger.
Proof. intros a b c. unfold not_younger. lia. Qed.

Lemma marks_NoDup tl : NoDup (map Key tl) -> (marks tl <= 1)%nat.
Proof.
  unfold marks. induction tl as [|t tl IH]; simpl; [lia|].
  intros Hnd. apply NoDup_cons in Hnd as [Hnotin Hnd].
  destruct (is_mark t) eqn:Et; simpl; [|auto].
  assert (List.filter is_mark tl = []) as ->; [|simpl; lia].
  apply andb_true_iff in Et as [Ek _]. apply String.eqb_eq in Ek.
  clear IH Hnd. induction tl as [|u tl IH]; simpl; [reflexivity|].
  destruct (is_mark u) eqn:Eu.
  - exfalso. apply Hnotin. apply andb_true_iff in Eu as [Eu _].
    apply String.eqb_eq in Eu. simpl. rewrite Ek, Eu. left.
  - apply IH. intros Hin. apply Hnotin. simpl. now right.
Qed.

Lemma managed_of_cons p reads :
  managed_of (p :: reads) =
  (if is_managed (snd p) then [fst p] else []) ++ managed_of reads.
Proof.
  unfold managed_of. rewrite filter_cons.
  destruct (decide (is_managed (snd p) = true)) as [E|E].
  - now rewrite E.
  - apply not_true_is_false in E. now rewrite E.
Qed.

Lemma counted_cons p reads :
  counted (p :: reads) =
  (if is_managed (snd p) && (0 <? stamp (fst p)) then [fst p] else []) ++ counted reads.
Proof.
  unfold counted. rewrite managed_of_cons, List.filter_app.
  destruct (is_managed (snd p)); simpl; [|reflexivity].
  destruct (0 <? stamp (fst p)); reflexivity.
Qed.

(** With tag sets, the scan records exactly the managed snapshots created
    after the epoch, in listing order. *)
Lemma collect_managed reads : forall m0 ks0,
  (forall s tl, (s, Ok tl) ∈ reads -> NoDup (map Key tl)) ->
  fold_left collect_read reads (m0, ks0) =
  (fold_left put (counted reads) m0, ks0 ++ map stamp (counted reads)).
Proof.
  induction reads as [|p reads IH]; intros m0 ks0 Hsets.
  - simpl. now rewrite app_nil_r.
  - simpl fold_left. rewrite collect_read_eq, counted_cons.
    assert (Hsets' : forall s tl, (s, Ok tl) ∈ reads -> NoDup (map Key tl)).
    { intros s tl Hin. apply (Hsets s tl). now right. }
    destruct p as [s rt]. simpl fst in *. simpl snd in *.
    destruct (is_managed rt && (0 <? stamp s)) eqn:Eb.
    + apply andb_true_iff in Eb as [Em Hs].
      rewrite IH by assumption. simpl. unfold put at 2. simpl.
      destruct rt as [tl|e]; [|discriminate].
      assert (marks tl = 1%nat) as ->.
      { pose proof (marks_NoDup tl (Hsets s tl ltac:(left))) as Hle.
        simpl in Em. rewrite has_tag_marks in Em.
        destruct (marks tl) as [|[|n]]; [discriminate | reflexivity | lia]. }
      simpl. now rewrite <- app_assoc.
    + simpl. apply IH; assumption.
Qed.

Lemma fold_put_other ms : forall m0 k,
  k ∉ map stamp ms -> fold_left put ms m0 !! k = m0 !! k.
Proof.
  induction ms as [|s ms IH]; intros m0 k Hk; simpl; [reflexivity|].
  rewrite IH.
  - unfold put. apply lookup_insert_ne. intros E. apply Hk. simpl. rewrite E. left.
  - intros Hin. apply Hk. simpl. now right.
Qed.

Lemma fold_put_lookup ms : forall m0 s,
  NoDup (map stamp ms) -> s ∈ ms ->
  fold_left put ms m0 !! stamp s = Some (DBSnapshotIdentifier s).
Proof.
  induction ms as [|a ms IH]; intros m0 s Hnd Hin; [inversion Hin|].
  simpl in Hnd. apply NoDup_cons in Hnd as [Hnotin Hnd]. simpl.
  apply elem_of_cons in Hin as [->|Hin].
  - rewrite fold_put_other by assumption. unfold put. apply lookup_insert_eq.
  - now apply IH.
Qed.

Lemma fold_put_size ms : forall m0,
  NoDup (map stamp ms) -> (forall s, s ∈ ms -> m0 !! stamp s = None) ->
  size (fold_left put ms m0) = (size m0 + length ms)%nat.
Proof.
  induction ms as [|a ms IH]; intros m0 Hnd Hfresh; simpl; [lia|].
  simpl in Hnd. apply NoDup_cons in Hnd as [Hnotin Hnd].
  rewrite IH; [|assumption|].
  - unfold put. rewrite map_size_insert_None; [lia|]. apply Hfresh. left.
  - intros s Hs. unfold put. rewrite lookup_insert_ne.
    + apply Hfresh. now right.
    + intros E. apply Hnotin. rewrite E. change (map stamp ms) with (stamp <$> ms).
      now apply list_elem_of_fmap_2.
Qed.

(** Sorting the keys is sorting the snapshots by timestamp. *)
Lemma sort_int64arr_stamps ms :
  sort_int64arr (map stamp ms) = map stamp (merge_sort not_younger ms).
Proof.
  unfold sort_int64arr.
  apply (Sorted_unique Z.le).
  - apply Sorted_merge_sort. apply _.
  - change (map stamp ?l) with (stamp <$> l).
    apply (Sorted_fmap stamp not_younger Z.le); [auto|].
    apply Sorted_merge_sort. apply _.
  - rewrite merge_sort_Permutation.
    change (map stamp ?l) with (stamp <$> l).
    now rewrite merge_sort_Permutation.
Qed.

Lemma strictly_sorted (l : list DBSnapshot) :
  StronglySorted not_younger l -> NoDup (map stamp l) ->
  StronglySorted (fun a b => stamp a < stamp b) l.
Proof.
  induction 1 as [|a l Hl IH Ha]; intros Hnd; [constructor|].
  simpl in Hnd. apply NoDup_cons in Hnd as [Hnotin Hnd].
  constructor; [now apply IH|].
  rewrite Forall_forall in *. intros b Hb.
  pose proof (Ha b Hb) as Hle. unfold not_younger in Hle.
  assert (stamp a <> stamp b); [|lia].
  intros E. apply Hnotin. rewrite E. change (map stamp l) with (stamp <$> l).
  now apply list_elem_of_fmap_2.
Qed.

Lemma filter_deletes_none (tr : list Call) :
  Forall (fun r => is_Delete r = false) tr -> filter (fun r => is_Delete r = true) tr = [].
Proof.
  induction 1 as [|r tr Hr _ IH]; [reflexivity|].
  rewrite filter_cons. rewrite Hr. destruct (decide (false = true)); [discriminate | exact IH].
Qed.

Lemma filter_deletes_all (tr : list Call) :
  Forall (fun r => is_Delete r = true) tr -> filter (fun r => is_Delete r = true) tr = tr.
Proof.
  induction 1 as [|r tr Hr _ IH]; [reflexivity|].
  rewrite filter_cons. rewrite Hr. destruct (decide (true = true)); [|congruence].
  now rewrite IH.
Qed.

Lemma scan_has_no_delete c call l :
  is_Delete call = false ->
  Forall (fun r => is_Delete r = false) (call :: tag_calls c l).
Proof.
  intros Hc. constructor; [assumption|].
  eapply Forall_impl; [apply tag_calls_are_tag_reads|].
  intros [] Hx; simpl in *; congruence.
Qed.

Section Retention.

Variable P : Provider.

(** C2 (amended). With a keep-count of 0 (or less) [cleanupSnaps] does
    nothing at all. With a positive keep-count, count as managed the
    listed destination snapshots whose tags are read with
    [managedby = rdsbackup] and whose second-resolution creation
    timestamp is after the epoch; let those timestamps be pairwise
    distinct, tag lists have one value per key, and every deletion
    succeed. Then [cleanupSnaps] succeeds and the deletions it issues are
    those of a list [del], in order, where [del ++ keep] is the counted
    snapshots in strictly ascending timestamp order: [del] is empty when
    the keep-count is not below their number, and otherwise [keep] has
    keep-count elements. *)
Theorem retention_purges_oldest (st : state config) :
  let c := cfg st in
  let call := DescribeDBSnapshots (dst c) (by_instance (dbid c)) in
  (purge c <= 0 -> cleanupSnaps P st = (Done None, st)) /\
  (forall l : list DBSnapshot,
     0 < purge c ->
     on_DescribeDBSnapshots P (calls st) (dst c) (by_instance (dbid c)) = Ok l ->
     let reads := tag_reads P (calls st ++ [call]) (dst c) (awsAcctId c) l in
     let ms := counted reads in
     (forall s tl, (s, Ok tl) ∈ reads -> NoDup (map Key tl)) ->
     NoDup (map stamp ms) ->
     (forall h id, is_Err (on_DeleteDBSnapshot P h (dst c) id) = false) ->
     exists del keep tr,
       cleanupSnaps P st = (Done None, mkState c (calls st ++ tr)) /\
       filter (fun r => is_Delete r = true) tr =
         map (fun s => DeleteDBSnapshot (dst c) (DBSnapshotIdentifier s)) del /\
       ms ≡ₚ del ++ keep /\
       StronglySorted (fun a b => stamp a < stamp b) (del ++ keep) /\
       (Z.of_nat (length ms) <= purge c -> del = []) /\
       (purge c < Z.of_nat (length ms) -> Z.of_nat (length keep) = purge c)).
Proof.
  intros c call. split; [apply cleanupSnaps_disabled|].
  intros l Hk Hlist reads ms Hsets Hnd Hdel.
  set (sorted := merge_sort not_younger ms).
  assert (Hperm : sorted ≡ₚ ms) by apply merge_sort_Permutation.
  assert (Hsorted : StronglySorted (fun a b => stamp a < stamp b) sorted).
  { apply strictly_sorted.
    - apply StronglySorted_merge_sort; apply _.
    - change (map stamp sorted) with (stamp <$> sorted). now rewrite Hperm. }
  pose proof (cleanupSnaps_run P st Hk) as Hrun. simpl in Hrun.
  fold c in Hrun. fold call in Hrun. rewrite Hlist in Hrun. fold reads in Hrun.
  assert (Hcol : collected reads = (fold_left put ms ∅, map stamp ms)).
  { unfold collected. now rewrite collect_managed. }
  rewrite Hcol in Hrun. simpl fst in Hrun. simpl snd in Hrun.
  assert (Hsize : size (fold_left put ms ∅) = length ms).
  { rewrite fold_put_size; [now rewrite map_size_empty | assumption |].
    intros s _. apply lookup_empty. }
  rewrite Hsize in Hrun.
  destruct (Z.of_nat (length ms) <=? purge c) eqn:Ele.
  - exists [], sorted, (call :: tag_calls c l).
    split; [assumption|]. split.
    { apply filter_deletes_none, scan_has_no_delete. reflexivity. }
    simpl. repeat split; try assumption; [now symmetry|].
    apply Z.leb_le in Ele. lia.
  - apply Z.leb_gt in Ele.
    set (n := Z.to_nat (Z.of_nat (length ms) - purge c)) in *.
    destruct Hrun as (j & r & Hrun & _ & _ & Hnone & Hok).
    specialize (Hok Hdel). subst r. specialize (Hnone eq_refl). subst j.
    assert (Hcalls : purge_calls c (fold_left put ms ∅) (sort_int64arr (map stamp ms)) 0 n
                    = map (fun s => DeleteDBSnapshot (dst c) (DBSnapshotIdentifier s))
                          (take n sorted)).
    { unfold purge_calls. rewrite sort_int64arr_stamps. fold sorted.
      rewrite drop_0. change (map stamp sorted) with (stamp <$> sorted).
      rewrite <- fmap_take. change (stamp <$> ?x) with (map stamp x).
      rewrite map_map. apply map_ext_in. intros s Hs.
      rewrite fold_put_lookup; [reflexivity | assumption |].
      rewrite <- Hperm. apply list_elem_of_In in Hs. eapply subseteq_take, Hs. }
    rewrite Hcalls in Hrun.
    eexists (take n sorted), (drop n sorted), _.
    split; [exact Hrun|].
    rewrite take_drop. split.
    { change (call :: tag_calls c l ++ ?x) with ((call :: tag_calls c l) ++ x).
      rewrite filter_app, filter_deletes_none, filter_deletes_all.
      - reflexivity.
      - rewrite <- Hcalls. apply purge_calls_are_deletes.
      - apply scan_has_no_delete. reflexivity. }
    repeat split; try assumption; [now symmetry | lia |].
    intros _. rewrite length_drop. rewrite Hperm. lia.
Qed.

End Retention.

Lemma tag_sets_by_cases (reads : list (DBSnapshot * result (list Tag))) :
  Forall (fun p => match snd p with
                   | Ok tl => NoDup (map Key tl)
                   | Err _ => True
                   end) reads ->
  forall s tl, (s, Ok tl) ∈ reads -> NoDup (map Key tl).
Proof.
  intros Hall s tl Hin. rewrite Forall_forall in Hall. exact (Hall _ Hin).
Qed.

(** C2, as first stated, fails where a managed snapshot has no creation
    time after the epoch: of two managed snapshots with distinct
    timestamps and keep-count 1 the older one is not deleted. *)
Lemma retention_counterexample :
  on_DescribeDBSnapshots (provider_of stale_in_progress) (calls (purging0 1))
    "us-west-1" (by_instance "mydb") = Ok dest_stale /\
  managed_of (tag_reads (provider_of stale_in_progress) [dest_listing]
                "us-west-1" "123456789012" dest_stale) = [stale_copy; copy5] /\
  stamp stale_copy < stamp copy5 /\
  purge (cfg (purging0 1)) = 1 /\
  cleanupSnaps (provider_of stale_in_progress) (purging0 1) =
  (Done None,
   mkState (cfg (purging0 1))
     [ dest_listing;
       ListTagsForResource "us-west-1" (dst_arn "mydb-2014-12-31at23-50UTC");
       ListTagsForResource "us-west-1" (dst_arn "mydb-2015-01-01at00-00UTC") ]).
Proof. repeat split; vm_compute; reflexivity. Qed.

Lemma retention_purges_oldest_witness :
  cleanupSnaps (provider_of five_copies) (purging0 0) = (Done None, purging0 0) /\
  exists del keep tr,
    cleanupSnaps (provider_of five_copies) (purging0 3) =
      (Done None, mkState (cfg (purging0 3)) (calls (purging0 3) ++ tr)) /\
    filter (fun r => is_Delete r = true) tr =
      map (fun s => DeleteDBSnapshot "us-west-1" (DBSnapshotIdentifier s)) del /\
    [copy3; copy1; copy5; copy2; copy4] ≡ₚ del ++ keep /\
    StronglySorted (fun a b => stamp a < stamp b) (del ++ keep) /\
    (5 <= 3 -> del = []) /\
    (3 < 5 -> Z.of_nat (length keep) = 3).
Proof.
  split.
  - apply (proj1 (retention_purges_oldest (provider_of five_copies) (purging0 0))).
    simpl. lia.
  - apply (proj2 (retention_purges_oldest (provider_of five_copies) (purging0 3))
             dest_five ltac:(simpl; lia) eq_refl).
    + apply tag_sets_by_cases. vm_compute.
      repeat (apply Forall_cons; split; [try exact I; decide_it|]). constructor.
    + decide_it.
    + reflexivity.
Defined.

Lemma unmanaged_never_deleted_witness :
  exists tr r,
    cleanupSnaps (provider_of five_copies) (purging0 3) =
      (Done r, mkState (cfg (purging0 3)) (calls (purging0 3) ++ tr)) /\
    forall region, DeleteDBSnapshot region "before-upgrade" ∉ tr.
Proof.
  apply (unmanaged_never_deleted (provider_of five_copies) (purging0 3) dest_five
           manual (Ok []) eq_refl).
  - decide_it.
  - apply list_elem_of_In. vm_compute. auto 10.
  - reflexivity.
Defined.

(** ** Runs of [main] *)

Section MainRun.

Variable P : Provider.
Variable clk : Clock.

Lemma findAcccountID_cases (st : state config) :
  (exists e, findAcccountID P st = (Done (Err e), logged (GetUser (src (cfg st))) st)) \/
  (exists user_arn acct,
     on_GetUser P (calls st) (src (cfg st)) = Ok user_arn /\
     length (strings_Split user_arn ":"%char) = 6%nat /\
     strings_Split user_arn ":"%char !! 4%nat = Some acct /\
     findAcccountID P st = (Done (Ok acct), logged (GetUser (src (cfg st))) st)).
Proof.
  rewrite findAcccountID_run.
  destruct (on_GetUser P (calls st) (src (cfg st))) as [user_arn|e]; [|left; eauto].
  simpl. destruct (Nat.eqb_spec (length (strings_Split user_arn ":"%char)) 6) as [Hlen|Hlen];
    [|left; eauto].
  destruct (six_fields _ Hlen) as (f0 & f1 & f2 & f3 & f4 & f5 & Hp).
  right. exists user_arn, f4. rewrite Hp. repeat split. 
Qed.

Lemma findLatestSnap_cases (st : state config) :
  let c := cfg st in
  let call := DescribeDBSnapshots (src c) (by_instance (dbid c)) in
  (exists e, findLatestSnap P st = (Done (Some e), logged call st)) \/
  (exists l,
     on_DescribeDBSnapshots P (calls st) (src c) (by_instance (dbid c)) = Ok l /\
     l <> [] /\ snd (latest_scan l) <> EmptyString /\
     findLatestSnap P st =
     (Done None,
      mkState (set_arn c (snapshot_arn (src c) (awsAcctId c) (snd (latest_scan l))))
              (calls st ++ [call]))).
Proof.
  intros c call. rewrite findLatestSnap_run. fold c. fold call.
  destruct (on_DescribeDBSnapshots P (calls st) (src c) (by_instance (dbid c))) as [l|e];
    [|left; eauto].
  destruct (Nat.ltb (length l) 1) eqn:E1; [left; eauto|].
  destruct (Nat.ltb (String.length (snd (latest_scan l))) 1) eqn:E2; [left; eauto|].
  right. exists l. repeat split.
  - intros ->. discriminate.
  - intros E. rewrite E in E2. discriminate.
Qed.

Lemma main_body_unresolved fuel st e s1 :
  findAcccountID P st = (Done (Err e), s1) ->
  main_body P clk fuel st = (Done 1, mkState (set_awsAcctId (cfg s1) EmptyString) (calls s1)).
Proof. intros H1. main_steps. Qed.

Lemma main_body_not_located fuel st a s1 e s2 :
  findAcccountID P st = (Done (Ok a), s1) ->
  findLatestSnap P (mkState (set_awsAcctId (cfg s1) a) (calls s1)) = (Done (Some e), s2) ->
  main_body P clk fuel st = (Done 1, s2).
Proof. intros H1 H2. main_steps. Qed.

Lemma main_body_checked fuel st a s1 s2 (b : bool) s3 :
  findAcccountID P st = (Done (Ok a), s1) ->
  findLatestSnap P (mkState (set_awsAcctId (cfg s1) a) (calls s1)) = (Done None, s2) ->
  checkSnapCopied P s2 = (Done b, s3) ->
  main_body P clk fuel st =
  if b then (Done 0, s3)
  else match copySnap P clk s3 with
       | (Done (Some _), s4) => (Done 1, s4)
       | (Done None, s4) =>
           match waitForCopy P fuel s4 with
           | (Done (Some _), s5) => (Done 1, s5)
           | (Done None, s5) =>
               match cleanupSnaps P s5 with
               | (Done (Some _), s6) => (Done 1, s6)
               | (Done None, s6) => (Done 0, s6)
               | (Panicked msg, s6) => (Panicked msg, s6)
               | (Spinning, s6) => (Spinning, s6)
               end
           | (Panicked msg, s5) => (Panicked msg, s5)
           | (Spinning, s5) => (Spinning, s5)
           end
       | (Panicked msg, s4) => (Panicked msg, s4)
       | (Spinning, s4) => (Spinning, s4)
       end.
Proof.
  intros H1 H2 H3. main_steps. destruct b; [reflexivity|].
  destruct (copySnap P clk s3) as [[[e|]|msg|] s4]; try reflexivity.
  destruct (waitForCopy P fuel s4) as [[[e|]|msg|] s5]; try reflexivity.
  destruct (cleanupSnaps P s5) as [[[e|]|msg|] s6]; reflexivity.
Qed.

(** Every run of [main] on a parsed configuration is one of the runs of
    [main_run]. *)
Lemma main_runs (fuel : nat) (c0 : config) (out : run Z) (st' : state config) :
  main P clk fuel (c0, None) = (out, st') ->
  main_run P clk c0 fuel out (calls st').
Proof.
  unfold main. cbn [fst snd].
  destruct (findAcccountID_cases (mkState c0 []))
    as [(e & Hacct) | (user_arn & acct & Huser & Hlen & Hfifth & Hacct)].
  { rewrite (main_body_unresolved _ _ _ _ Hacct). intros [= <- <-].
    apply (run_unresolved P clk c0 fuel e). now rewrite Hacct. }
  assert (Hres : resolved P c0 acct) by (exists user_arn; auto).
  destruct (findLatestSnap_cases (mkState (set_awsAcctId c0 acct) (at_locate c0)))
    as [(e & Hloc) | (l & Hlist & Hne & Hid & Hloc)].
  { rewrite (main_body_not_located _ _ _ _ _ _ Hacct Hloc). intros [= <- <-].
    apply (run_not_located P clk c0 fuel acct e Hres). now rewrite Hloc. }
  assert (Hlocd : located P c0 l) by (repeat split; assumption).
  destruct (checkSnapCopied_run P (mkState (located_config c0 acct l) (at_check c0)))
    as (tags & Hcheck & Htags & Hfail).
  match type of Hcheck with _ = (Done ?b0, _) => set (b := b0) in * end.
  assert (Hchk : checked P c0 acct l b tags).
  { split; [exact Hcheck|]. split; [exact Htags|].
    intros Hf. split; [now apply Hfail|].
    subst b. unfold failed, dest_listing_call in Hf. cbn [cfg calls].
    change (dst (located_config c0 acct l)) with (dst c0).
    change (dbid (located_config c0 acct l)) with (dbid c0).
    destruct (on_DescribeDBSnapshots P (at_check c0) (dst c0) (by_instance (dbid c0)));
      [discriminate | reflexivity]. }
  rewrite (main_body_checked fuel _ _ _ _ b _ Hacct Hloc Hcheck).
  clearbody b. destruct b.
  { intros [= <- <-]. now apply (run_already_copied P clk c0 fuel acct l tags). }
  rewrite copySnap_run.
  change (on_CopyDBSnapshot P _ _ _)
    with (on_CopyDBSnapshot P (at_copy c0 tags) (dst c0) (copy_message clk c0 acct l)).
  change (mkState _ _)
    with (mkState (copying_config clk c0 acct l) (at_wait clk c0 acct l tags)).
  destruct (on_CopyDBSnapshot P (at_copy c0 tags) (dst c0) (copy_message clk c0 acct l))
    as [snap|e] eqn:Ecopy.
  2:{ intros [= <- <-].
      apply (run_copy_rejected P clk c0 fuel acct l tags); try assumption.
      intros (snap & E & _). congruence. }
  destruct (String.eqb (Status snap) "creating") eqn:Estatus.
  2:{ intros [= <- <-].
      apply (run_copy_rejected P clk c0 fuel acct l tags); try assumption.
      intros (snap' & E & Hs). rewrite Ecopy in E. injection E as <-.
      rewrite Hs in Estatus. discriminate. }
  assert (Hacc : accepted P clk c0 acct l tags).
  { exists snap. split; [assumption | now apply String.eqb_eq]. }
  unfold waitForCopy, bind, get_cfg. cbn [cfg].
  destruct (waitForCopy_loop_run P (dst c0) (by_snapshot (copyId (copying_config clk c0 acct l)))
              fuel (mkState (copying_config clk c0 acct l) (at_wait clk c0 acct l tags)))
    as (n & Hpre & [[Hn Hwait] | (r & Hn & Hv & Hwait)]).
  { change (dst (copying_config clk c0 acct l)) with (dst c0).
    rewrite Hwait. intros [= <- <-]. subst n.
    now apply (run_spinning P clk c0 fuel acct l tags). }
  change (dst (copying_config clk c0 acct l)) with (dst c0).
  rewrite Hwait.
  change (mkState _ _)
    with (mkState (copying_config clk c0 acct l) (at_cleanup clk c0 acct l tags n)).
  destruct r as [e|].
  { intros [= <- <-].
    now apply (run_wait_failed P clk c0 fuel acct l tags n e). }
  destruct (cleanupSnaps_disciplined P
              (mkState (copying_config clk c0 acct l) (at_cleanup clk c0 acct l tags n)))
    as (tr & r & Hclean & Hdisc & Hnc).
  rewrite Hclean.
  destruct r as [e|]; intros [= <- <-].
  - now apply (run_cleaned P clk c0 fuel acct l tags n tr (Some e)).
  - now apply (run_cleaned P clk c0 fuel acct l tags n tr None).
Qed.

(** No run of [main] ends in a panic: the indices the program reads are
    always in range. *)
Lemma main_never_panics (fuel : nat) (c0 : config) (out : run Z) (st' : state config) :
  main P clk fuel (c0, None) = (out, st') -> forall msg, out <> Panicked msg.
Proof.
  intros Hmain msg. apply main_runs in Hmain.
  destruct Hmain; discriminate.
Qed.

End MainRun.

(** ** Where the copy request sits in a run *)

Lemma no_copy_tag_reads tags :
  Forall (fun r => is_ListTags r = true) tags -> Forall (fun x => is_Copy x = false) tags.
Proof.
  intros H. eapply Forall_impl; [exact H|]. intros [] Hx; simpl in *; congruence.
Qed.

Lemma no_copy_repeat_poll region id n :
  Forall (fun x => is_Copy x = false) (repeat (poll region id) n).
Proof. induction n; simpl; constructor; [reflexivity | assumption]. Qed.

(** A trace has at most one place for its only copy request. *)
Lemma split_at_copy (pre post h rest : list Call) (x y : Call) :
  Forall (fun r => is_Copy r = false) pre ->
  Forall (fun r => is_Copy r = false) post ->
  is_Copy x = true -> is_Copy y = true ->
  pre ++ x :: post = h ++ y :: rest ->
  h = pre /\ y = x /\ rest = post.
Proof.
  intros Hpre Hpost Hx Hy. revert h.
  induction Hpre as [|a pre Ha _ IH]; intros h E.
  - destruct h as [|b h]; simpl in E.
    + injection E as <- <-. auto.
    + injection E as <- E. exfalso.
      assert (y ∈ post) as Hin by (rewrite E; mem).
      rewrite Forall_forall in Hpost. specialize (Hpost _ Hin). congruence.
  - destruct h as [|b h]; simpl in E.
    + injection E as <- _. congruence.
    + injection E as <- E. destruct (IH h E) as (-> & -> & ->). auto.
Qed.

Lemma no_copy_no_split (tr h rest : list Call) (y : Call) :
  Forall (fun r => is_Copy r = false) tr -> is_Copy y = true ->
  tr = h ++ y :: rest -> False.
Proof.
  intros Hall Hy E. rewrite Forall_forall in Hall.
  assert (y ∈ tr) as Hin by (rewrite E; mem).
  specialize (Hall _ Hin). congruence.
Qed.

Section MainFacts.

Variable P : Provider.
Variable clk : Clock.
Variable c0 : config.

Lemma resolved_run acct :
  resolved P c0 acct ->
  findAcccountID P (mkState c0 []) =
  (Done (Ok acct), mkState c0 (at_locate c0)).
Proof.
  intros (user_arn & Huser & Hlen & Hfifth).
  rewrite findAcccountID_run. cbn [cfg calls]. rewrite Huser. cbv zeta.
  rewrite Hlen, Hfifth. reflexivity.
Qed.

Lemma located_run acct l :
  located P c0 l ->
  findLatestSnap P (mkState (set_awsAcctId c0 acct) (at_locate c0)) =
  (Done None, mkState (located_config c0 acct l) (at_check c0)).
Proof.
  intros (Hlist & Hne & Hid).
  rewrite findLatestSnap_run. cbn [cfg calls].
  change (src (set_awsAcctId c0 acct)) with (src c0).
  change (dbid (set_awsAcctId c0 acct)) with (dbid c0).
  rewrite Hlist.
  destruct (Nat.ltb (length l) 1) eqn:E1; [apply length_lt_1 in E1; contradiction|].
  destruct (Nat.ltb (String.length (snd (latest_scan l))) 1) eqn:E2;
    [apply String_length_lt_1 in E2; contradiction|].
  reflexivity.
Qed.

Lemma resolved_fun acct acct' : resolved P c0 acct -> resolved P c0 acct' -> acct = acct'.
Proof.
  intros (u & Hu & _ & H4) (u' & Hu' & _ & H4'). congruence.
Qed.

Lemma located_fun l l' : located P c0 l -> located P c0 l' -> l = l'.
Proof. intros (Hl & _) (Hl' & _). congruence. Qed.

Lemma checked_fun acct l b tags b' tags' :
  checked P c0 acct l b tags -> checked P c0 acct l b' tags' -> b = b' /\ tags = tags'.
Proof.
  intros (H & _) (H' & _). rewrite H in H'. injection H' as Hb Ht. auto.
Qed.

Lemma no_copy_at_copy tags :
  Forall (fun r => is_ListTags r = true) tags ->
  Forall (fun x => is_Copy x = false) (at_copy c0 tags).
Proof.
  intros Htags. unfold at_copy, at_check.
  repeat (constructor; [reflexivity|]). now apply no_copy_tag_reads.
Qed.

(** A run either issues no copy request, or exactly one, right after the
    idempotency check said "not copied"; a request that is not accepted
    ends the run with status 1. *)
Lemma main_run_copy fuel out tr :
  main_run P clk c0 fuel out tr ->
  (Forall (fun x => is_Copy x = false) tr /\
   forall acct l tags, resolved P c0 acct -> located P c0 l ->
                       checked P c0 acct l false tags -> False) \/
  exists acct l tags post,
    resolved P c0 acct /\ located P c0 l /\ checked P c0 acct l false tags /\
    tr = at_copy c0 tags ++ copy_call clk c0 acct l :: post /\
    Forall (fun x => is_Copy x = false) post /\
    (~ accepted P clk c0 acct l tags -> post = [] /\ out = Done 1).
Proof.
  intros Hrun.
  destruct Hrun as
    [ e He
    | acct e Hres He
    | acct l tags Hres Hloc Hchk
    | acct l tags Hres Hloc Hchk Hrej
    | acct l tags Hres Hloc Hchk Hacc Hpolls
    | acct l tags n e Hres Hloc Hchk Hacc Hn Hpolls Hend
    | acct l tags n tr r Hres Hloc Hchk Hacc Hn Hpolls Hend Hclean Hdisc Hnc ].
  - left. split; [repeat constructor|].
    intros acct l tags Hres _ _. rewrite (resolved_run acct Hres) in He. discriminate.
  - left. split; [repeat constructor|].
    intros acct' l tags Hres' Hloc _.
    rewrite (resolved_fun _ _ Hres Hres') in He.
    rewrite (located_run acct' l Hloc) in He. discriminate.
  - left. split; [apply no_copy_at_copy, Hchk|].
    intros acct' l' tags' Hres' Hloc' Hchk'.
    rewrite <- (resolved_fun _ _ Hres Hres') in Hchk'.
    rewrite <- (located_fun _ _ Hloc Hloc') in Hchk'.
    destruct (checked_fun _ _ _ _ _ _ Hchk Hchk'). discriminate.
  - right. exists acct, l, tags, [].
    split; [exact Hres|]. split; [exact Hloc|]. split; [exact Hchk|].
    split; [reflexivity|]. split; [constructor|]. intros _. split; reflexivity.
  - right. exists acct, l, tags, (repeat (poll_call clk c0 acct l) fuel).
    split; [exact Hres|]. split; [exact Hloc|]. split; [exact Hchk|].
    split; [unfold at_wait; now rewrite <- app_assoc|].
    split; [apply no_copy_repeat_poll | contradiction].
  - right. exists acct, l, tags, (repeat (poll_call clk c0 acct l) (S n)).
    split; [exact Hres|]. split; [exact Hloc|]. split; [exact Hchk|].
    split; [unfold at_cleanup, at_wait; now rewrite <- app_assoc|].
    split; [apply no_copy_repeat_poll | contradiction].
  - right. exists acct, l, tags, (repeat (poll_call clk c0 acct l) (S n) ++ tr).
    split; [exact Hres|]. split; [exact Hloc|]. split; [exact Hchk|].
    split; [unfold at_cleanup, at_wait; now rewrite <- !app_assoc|].
    split; [|contradiction].
    apply Forall_app. split; [apply no_copy_repeat_poll | assumption].
Qed.

End MainFacts.

(** ** Copy initiation in a run *)

Section CopyInitiation.

Variable P : Provider.
Variable clk : Clock.

(** C7. When the answer to the copy request carries a status other than
    "creating", [copySnap] returns the error "Error creating snapshot -
    unexpected status: ..." after that one request, and in a run of
    [main] nothing follows the request (no second request, no poll) and
    the exit status is 1; when the status is "creating", [copySnap]
    succeeds. *)
Theorem copy_initiation :
  (forall (st : state config) (snap : DBSnapshot),
     let c := set_copyId (cfg st)
                (dbid (cfg st) +:+ "-" +:+ Format clk (Now clk) "2006-01-02at15-04MST") in
     let m := mkCopy (arn c) (copy_tags clk c) (copyId c) in
     let st' := mkState c (calls st ++ [CopyDBSnapshot (dst c) m]) in
     on_CopyDBSnapshot P (calls st) (dst c) m = Ok snap ->
     (Status snap <> "creating" ->
      copySnap P clk st =
      (Done (Some (Errorf ("Error creating snapshot - unexpected status: "
                           +:+ Status snap))), st')) /\
     (Status snap = "creating" -> copySnap P clk st = (Done None, st'))) /\
  (forall fuel parsed out st' h region m rest snap,
     main P clk fuel parsed = (out, st') ->
     calls st' = h ++ CopyDBSnapshot region m :: rest ->
     on_CopyDBSnapshot P h region m = Ok snap ->
     Status snap <> "creating" ->
     rest = [] /\ out = Done 1).
Proof.
  split.
  - intros st snap c m st' Hresp. rewrite copySnap_run. fold c. fold m. rewrite Hresp.
    split; intros Hs.
    + apply String.eqb_neq in Hs. now rewrite Hs.
    + apply String.eqb_eq in Hs. now rewrite Hs.
  - intros fuel [c0 [e|]] out st' h region m rest snap Hmain Hsplit Hresp Hstatus.
    { unfold main in Hmain. simpl in Hmain. injection Hmain as _ <-. simpl in Hsplit.
      now destruct h. }
    apply main_runs in Hmain. apply main_run_copy in Hmain.
    destruct Hmain as [[Hnc _] | (acct & l & tags & post & Hres & Hloc & Hchk & Htr & Hnc & Hrej)].
    + exfalso. eapply (no_copy_no_split _ h rest); [exact Hnc | | exact Hsplit]. reflexivity.
    + rewrite Htr in Hsplit.
      destruct (split_at_copy (at_copy c0 tags) post h rest
                  (copy_call clk c0 acct l) (CopyDBSnapshot region m))
        as (-> & Hm & ->); try assumption; try reflexivity.
      { apply no_copy_at_copy, Hchk. }
      apply Hrej. intros (snap' & Hresp' & Hs').
      unfold copy_call in Hm. injection Hm as -> ->.
      rewrite Hresp in Hresp'. injection Hresp' as <-. contradiction.
Qed.

End CopyInitiation.

Lemma copy_initiation_witness :
  main (provider_of copy_refused) clock0 5 (config0 0, None) =
  (Done 1,
   mkState (copying_config clock0 (config0 0) "123456789012" source0)
           (at_wait clock0 (config0 0) "123456789012" source0 [])).
Proof.
  destruct (copy_initiation (provider_of copy_refused) clock0) as [_ Hmain].
  destruct (main (provider_of copy_refused) clock0 5 (config0 0, None)) as [out st'] eqn:E.
  assert (Hcalls : calls st' = at_copy (config0 0) []
                     ++ CopyDBSnapshot "us-west-1" (copy_message clock0 (config0 0)
                                                    "123456789012" source0) :: []).
  { vm_compute in E. injection E as _ <-. reflexivity. }
  destruct (Hmain 5%nat (config0 0, None) out st' _ _ _ _
              (mkDBSnapshot "mydb-2015-01-01at00-00UTC" "mydb" 0 "failed" 0)
              E Hcalls eq_refl) as [_ ->].
  { discriminate. }
  vm_compute in E. injection E as <-. reflexivity.
Defined.

(** ** The idempotency check in a run *)

Section Idempotency.

Variable P : Provider.
Variable clk : Clock.
Variable c0 : config.

Lemma checked_exists acct l :
  exists tags,
    checked P c0 acct l
      (match on_DescribeDBSnapshots P (at_check c0) (dst c0) (by_instance (dbid c0)) with
       | Err _ => false
       | Ok dl => existsb (fun p => is_copy_of (chosen_arn c0 acct l) (snd p))
                    (tag_reads P (at_check c0 ++ [dest_listing_call c0]) (dst c0) acct dl)
       end) tags.
Proof.
  destruct (checkSnapCopied_run P (mkState (located_config c0 acct l) (at_check c0)))
    as (tags & Hcheck & Htags & Hfail).
  exists tags. split; [exact Hcheck|]. split; [exact Htags|].
  intros Hf. split; [now apply Hfail|].
  unfold failed, dest_listing_call in Hf.
  destruct (on_DescribeDBSnapshots P (at_check c0) (dst c0) (by_instance (dbid c0)));
    [discriminate | reflexivity].
Qed.

(** C1. Let the run have resolved the account and located the source
    snapshot, and let the destination listing be [dl]. The idempotency
    check answers "already copied" exactly when a listed snapshot's tags,
    as read during the scan, hold both [managedby = rdsbackup] and
    [sourcearn] equal to the reference the Locator computed. Then [main]
    exits with status 0 and has issued no copy request; otherwise it goes
    on to the copy request for that reference. *)
Theorem idempotency_check (fuel : nat) (acct : string) (l dl : list DBSnapshot) :
  resolved P c0 acct -> located P c0 l ->
  on_DescribeDBSnapshots P (at_check c0) (dst c0) (by_instance (dbid c0)) = Ok dl ->
  let reads := tag_reads P (at_check c0 ++ [dest_listing_call c0]) (dst c0) acct dl in
  let already :=
    exists s tl, (s, Ok tl) ∈ reads /\
                 mkTag "managedby" "rdsbackup" ∈ tl /\
                 mkTag "sourcearn" (chosen_arn c0 acct l) ∈ tl in
  let result := main P clk fuel (c0, None) in
  (fst (checkSnapCopied P (mkState (located_config c0 acct l) (at_check c0))) = Done true
   <-> already) /\
  (already ->
   fst result = Done 0 /\ Forall (fun r => is_Copy r = false) (calls (snd result))) /\
  (~ already ->
   exists tags post,
     Forall (fun r => is_ListTags r = true) tags /\
     calls (snd result) = at_copy c0 tags ++ copy_call clk c0 acct l :: post /\
     SourceDBSnapshotIdentifier (copy_message clk c0 acct l) = chosen_arn c0 acct l).
Proof.
  intros Hres Hloc Hlist reads already result.
  destruct (checked_exists acct l) as (tags & Hchk). rewrite Hlist in Hchk. fold reads in Hchk.
  set (b := existsb (fun p => is_copy_of (chosen_arn c0 acct l) (snd p)) reads) in *.
  assert (Hb : b = true <-> already).
  { subst b already. rewrite existsb_elem_of. split.
    - intros ([s rt] & Hin & Hc). simpl in Hc.
      apply is_copy_of_spec in Hc as (tl & -> & H1 & H2).
      exists s, tl. auto.
    - intros (s & tl & Hin & H1 & H2). exists (s, Ok tl). split; [assumption|].
      apply is_copy_of_spec. exists tl. auto. }
  pose proof Hchk as (Hcheck & Htags & _).
  pose proof (main_body_checked P clk fuel _ _ _ _ b _
                (resolved_run P c0 acct Hres) (located_run P c0 acct l Hloc) Hcheck) as Hmain.
  split; [|split].
  - rewrite Hcheck. simpl. rewrite <- Hb. split; [now intros [= ->] | now intros ->].
  - intros Hal. apply Hb in Hal. rewrite Hal in Hmain.
    subst result. unfold main. cbn [fst snd]. rewrite Hmain. cbn [fst snd calls].
    split; [reflexivity | apply no_copy_at_copy, Htags].
  - intros Hnot.
    assert (b = false) as Hfalse.
    { destruct b; [exfalso; apply Hnot, Hb; reflexivity | reflexivity]. }
    rewrite Hfalse in Hchk.
    destruct result as [out st'] eqn:E. subst result.
    apply main_runs, main_run_copy in E.
    destruct E as [[_ Hno] | (acct' & l' & tags' & post & Hres' & Hloc' & Hchk' & Htr & _)].
    + exfalso. exact (Hno acct l tags Hres Hloc Hchk).
    + rewrite <- (resolved_fun P c0 _ _ Hres Hres') in *.
      rewrite <- (located_fun P c0 _ _ Hloc Hloc') in *.
      exists tags', post. split; [apply Hchk'|]. split; [exact Htr | reflexivity].
Qed.

End Idempotency.

Lemma scenario_resolved (sc : Scenario) (keep : Z) :
  sc_user sc = Ok user0 -> resolved (provider_of sc) (config0 keep) "123456789012".
Proof. intros H. exists user0. repeat split. exact H. Qed.

Lemma scenario_located (sc : Scenario) (keep : Z) :
  sc_source sc = Ok source0 -> located (provider_of sc) (config0 keep) source0.
Proof. intros H. repeat split; [exact H | discriminate | discriminate]. Qed.

Lemma idempotency_check_witness :
  fst (main (provider_of second_run) clock0 5 (config0 3, None)) = Done 0 /\
  Forall (fun r => is_Copy r = false)
         (calls (snd (main (provider_of second_run) clock0 5 (config0 3, None)))).
Proof.
  apply (idempotency_check (provider_of second_run) clock0 (config0 3) 5
           "123456789012" source0 [copy4; copy5]
           (scenario_resolved second_run 3 eq_refl) (scenario_located second_run 3 eq_refl) eq_refl).
  exists copy5, (managed_tags arn0).
  split; [|split].
  - apply list_elem_of_In. vm_compute. auto.
  - apply list_elem_of_In. vm_compute. auto 10.
  - apply list_elem_of_In. vm_compute. auto 10.
Defined.

(** ** Failures of remote calls in a run *)

Lemma failures_handled_split c0 out A : forall k pre r post,
  failures_handled c0 out k A ->
  A = pre ++ (r, true) :: post ->
  failure_handled c0 out (k + length pre) r post.
Proof.
  induction A as [|e A IH]; intros k pre r post Hok E.
  - now destruct pre.
  - destruct Hok as [Hhead Htail]. destruct pre as [|e' pre]; simpl in E.
    + injection E as -> ->. simpl. rewrite Nat.add_0_r. now apply Hhead.
    + injection E as -> E. simpl.
      replace (k + S (length pre))%nat with (S k + length pre)%nat by lia.
      now apply IH.
Qed.

Lemma handled_benign_then c0 out A1 : forall k A2,
  Forall benign A1 -> A2 <> [] ->
  failures_handled c0 out (k + length A1) A2 ->
  failures_handled c0 out k (A1 ++ A2).
Proof.
  induction A1 as [|e A1 IH]; intros k A2 Hall Hne Hok; simpl.
  - simpl in Hok. now rewrite Nat.add_0_r in Hok.
  - inversion Hall as [|? ? He Hall']; subst. split.
    + intros Hf. left. split; [now apply He|].
      intros E. destruct A1; simpl in E; [contradiction | discriminate].
    + apply IH; [assumption | assumption|].
      simpl in Hok. now replace (S k + length A1)%nat with (k + S (length A1))%nat by lia.
Qed.

Lemma handled_benign_done c0 A : forall k,
  Forall benign A -> failures_handled c0 (Done 0) k A.
Proof.
  induction A as [|e A IH]; intros k Hall; simpl; [exact I|].
  inversion Hall as [|? ? He Hall']; subst. split; [|now apply IH].
  intros Hf. left. split; [now apply He | reflexivity].
Qed.

Lemma handled_none_failed c0 out A : forall k,
  Forall (fun e => snd e = false) A -> failures_handled c0 out k A.
Proof.
  induction A as [|e A IH]; intros k Hall; simpl; [exact I|].
  inversion Hall as [|? ? He Hall']; subst. split; [|now apply IH].
  intros Hf. congruence.
Qed.

Lemma handled_fatal c0 k x b :
  k <> 2%nat -> is_ListTags x = false -> failures_handled c0 (Done 1) k [(x, b)].
Proof. intros Hk Hx. simpl. split; [|exact I]. intros _. right. right. auto. Qed.

Lemma none_failed_benign A : Forall (fun e : Call * bool => snd e = false) A -> Forall benign A.
Proof. intros H. eapply Forall_impl; [exact H|]. intros e He Hf. congruence. Qed.

Lemma polls_not_failed P h region q : forall n,
  (forall i, (i < n)%nat -> is_Err (poll_answer P h region q i) = false) ->
  Forall (fun e => snd e = false) (annotate P h (repeat (DescribeDBSnapshots region q) n)).
Proof.
  intros n. revert h. induction n as [|n IH]; intros h Hall; simpl; [constructor|].
  constructor.
  - simpl. specialize (Hall 0%nat ltac:(lia)). unfold poll_answer in Hall.
    simpl in Hall. now rewrite app_nil_r in Hall.
  - apply IH. intros i Hi. specialize (Hall (S i) ltac:(lia)).
    unfold poll_answer in *. simpl in Hall. now rewrite <- app_assoc.
Qed.

Lemma verdict_not_failed resp :
  poll_verdict resp = Continue \/ poll_verdict resp = Stop None -> is_Err resp = false.
Proof. destruct resp as [l|e]; [reflexivity|]. simpl. intros [H|H]; discriminate. Qed.

Section PropagationRun.

Variable P : Provider.
Variable clk : Clock.
Variable c0 : config.

Lemma handled_prefix acct l b tags post out :
  resolved P c0 acct -> located P c0 l -> checked P c0 acct l b tags ->
  (b = true -> post = [] /\ out = Done 0) ->
  (b = false -> exists post', post = copy_call clk c0 acct l :: post') ->
  failures_handled c0 out (3 + length tags) (annotate P (at_copy c0 tags) post) ->
  failures_handled c0 out 0 (annotate P [] (at_copy c0 tags ++ post)).
Proof.
  intros (user_arn & Huser & _) (Hlist & _) (_ & Htags & Hfail) Htrue Hfalse Hpost.
  unfold at_copy, at_check in *. cbn [app annotate].
  split; [|split; [|split]].
  - cbn [fst snd failed user_call]. rewrite Huser. discriminate.
  - cbn [fst snd failed source_listing]. unfold at_locate in Hlist.
    cbn [app]. rewrite Hlist. discriminate.
  - cbn [fst snd]. intros Hf. right. left.
    destruct (Hfail Hf) as [-> ->].
    destruct (Hfalse eq_refl) as (post' & ->).
    split; [reflexivity|]. split; [reflexivity|].
    cbn [app annotate]. unfold copy_call. eauto.
  - rewrite annotate_app.
    destruct b.
    + destruct (Htrue eq_refl) as [-> ->]. cbn [annotate]. rewrite app_nil_r.
      apply handled_benign_done, benign_tag_reads, Htags.
    + destruct (Hfalse eq_refl) as (post' & ->).
      apply handled_benign_then.
      * apply benign_tag_reads, Htags.
      * discriminate.
      * rewrite annotate_length. exact Hpost.
Qed.

Lemma accepted_not_failed acct l tags :
  accepted P clk c0 acct l tags ->
  failed P (at_copy c0 tags) (copy_call clk c0 acct l) = false.
Proof. intros (snap & Hresp & _). unfold copy_call. simpl. now rewrite Hresp. Qed.

Lemma polls_of_wait acct l tags n :
  still_creating P clk c0 acct l tags n ->
  Forall (fun e => snd e = false)
         (annotate P (at_wait clk c0 acct l tags) (repeat (poll_call clk c0 acct l) n)).
Proof.
  intros Hpolls. apply polls_not_failed. intros i Hi.
  apply verdict_not_failed. left. now apply Hpolls.
Qed.

Lemma polls_of_ended_wait acct l tags n :
  still_creating P clk c0 acct l tags n ->
  wait_ended P clk c0 acct l tags n None ->
  Forall (fun e => snd e = false)
         (annotate P (at_wait clk c0 acct l tags) (repeat (poll_call clk c0 acct l) (S n))).
Proof.
  intros Hpolls Hend. apply polls_not_failed. intros i Hi.
  apply verdict_not_failed.
  destruct (Nat.eq_dec i n) as [->|Hne]; [right; exact Hend | left; apply Hpolls; lia].
Qed.

(** Every run of [main] handles the failures of its calls. *)
Lemma main_run_handled fuel out tr :
  main_run P clk c0 fuel out tr -> failures_handled c0 out 0 (annotate P [] tr).
Proof.
  intros Hrun.
  destruct Hrun as
    [ e He
    | acct e Hres He
    | acct l tags Hres Hloc Hchk
    | acct l tags Hres Hloc Hchk Hrej
    | acct l tags Hres Hloc Hchk Hacc Hpolls
    | acct l tags n e Hres Hloc Hchk Hacc Hn Hpolls Hend
    | acct l tags n tr r Hres Hloc Hchk Hacc Hn Hpolls Hend Hclean Hdisc Hnc ].
  - apply handled_fatal; [cbn [length]; lia | reflexivity].
  - unfold at_check. cbn [annotate]. split.
    + destruct Hres as (user_arn & Huser & _). cbn [fst snd failed user_call].
      rewrite Huser. discriminate.
    + apply handled_fatal; [cbn [length]; lia | reflexivity].
  - rewrite <- (app_nil_r (at_copy c0 tags)).
    apply (handled_prefix acct l true tags [] (Done 0) Hres Hloc Hchk); try discriminate.
    + auto.
    + exact I.
  - unfold at_wait.
    apply (handled_prefix acct l false tags _ (Done 1) Hres Hloc Hchk); try discriminate.
    + eauto.
    + apply handled_fatal; [cbn [length]; lia | reflexivity].
  - unfold at_wait. rewrite <- !app_assoc.
    apply (handled_prefix acct l false tags _ Spinning Hres Hloc Hchk); try discriminate.
    + eauto.
    + cbn [app annotate]. apply handled_none_failed. constructor.
      * apply (accepted_not_failed acct l tags Hacc).
      * apply (polls_of_wait acct l tags fuel Hpolls).
  - unfold at_cleanup, at_wait. rewrite <- !app_assoc.
    apply (handled_prefix acct l false tags _ (Done 1) Hres Hloc Hchk); try discriminate.
    + eauto.
    + rewrite repeat_snoc. cbn [app]. rewrite app_comm_cons, annotate_app.
      apply handled_benign_then.
      * apply none_failed_benign. cbn [annotate]. constructor.
        -- apply (accepted_not_failed acct l tags Hacc).
        -- apply (polls_of_wait acct l tags n Hpolls).
      * discriminate.
      * apply handled_fatal; [cbn [length]; lia | reflexivity].
  - unfold at_cleanup, at_wait. rewrite <- !app_assoc.
    assert (Hhead : Forall (fun e => snd e = false)
              (annotate P (at_copy c0 tags)
                 (copy_call clk c0 acct l :: repeat (poll_call clk c0 acct l) (S n)))).
    { cbn [annotate]. constructor.
      - apply (accepted_not_failed acct l tags Hacc).
      - apply (polls_of_ended_wait acct l tags n Hpolls Hend). }
    assert (Hhist : at_copy c0 tags
                      ++ copy_call clk c0 acct l :: repeat (poll_call clk c0 acct l) (S n)
                    = at_cleanup clk c0 acct l tags n).
    { unfold at_cleanup, at_wait. now rewrite <- app_assoc. }
    destruct r as [e|].
    + apply (handled_prefix acct l false tags _ (Done 1) Hres Hloc Hchk); try discriminate.
      * eauto.
      * destruct Hdisc as (tr0 & x & -> & Hall & Hx).
        change ([copy_call clk c0 acct l] ++ repeat (poll_call clk c0 acct l) (S n)
                  ++ tr0 ++ [x])
          with (copy_call clk c0 acct l :: repeat (poll_call clk c0 acct l) (S n)
                  ++ tr0 ++ [x]).
        rewrite app_assoc, app_comm_cons, annotate_app.
        apply handled_benign_then.
        -- rewrite app_comm_cons, annotate_app.
           apply Forall_app. split; [now apply none_failed_benign|].
           rewrite Hhist. exact Hall.
        -- discriminate.
        -- apply handled_fatal; [cbn [length]; lia | exact Hx].
    + apply (handled_prefix acct l false tags _ (Done 0) Hres Hloc Hchk); try discriminate.
      * eauto.
      * apply handled_benign_done.
        change ([copy_call clk c0 acct l] ++ repeat (poll_call clk c0 acct l) (S n) ++ tr)
          with (copy_call clk c0 acct l :: repeat (poll_call clk c0 acct l) (S n) ++ tr).
        rewrite app_comm_cons, annotate_app.
        apply Forall_app. split; [now apply none_failed_benign|].
        rewrite Hhist. exact Hdisc.
Qed.

End PropagationRun.

Section Propagation.

Variable P : Provider.
Variable clk : Clock.

(** C5 (amended). In a run of [main], a remote call that fails is the
    last call of the run and the exit status is 1, with two exceptions: a
    failed tag read never ends the run with an error (the scan skips the
    snapshot and goes on), and a failed listing of the destination region
    in the idempotency check, the third call of a run, is never the last
    call: [checkSnapCopied] answers "not copied" without reading a tag,
    and the copy request follows. *)
Theorem failure_propagation :
  (forall fuel parsed out st' pre r post,
     main P clk fuel parsed = (out, st') ->
     annotate P [] (calls st') = pre ++ (r, true) :: post ->
     failure_handled (fst parsed) out (length pre) r post) /\
  (forall st : state config,
     is_Err (on_DescribeDBSnapshots P (calls st) (dst (cfg st))
               (by_instance (dbid (cfg st)))) = true ->
     checkSnapCopied P st =
     (Done false,
      logged (DescribeDBSnapshots (dst (cfg st)) (by_instance (dbid (cfg st)))) st)) /\
  (forall c s rest (st : state config),
     is_Err (on_ListTagsForResource P (calls st) (dst c)
               (snapshot_arn (dst c) (awsAcctId c) (DBSnapshotIdentifier s))) = true ->
     checkSnapCopied_loop P c (s :: rest) st =
     checkSnapCopied_loop P c rest
       (logged (ListTagsForResource (dst c)
                  (snapshot_arn (dst c) (awsAcctId c) (DBSnapshotIdentifier s))) st)) /\
  (forall c s rest acc (st : state config),
     is_Err (on_ListTagsForResource P (calls st) (dst c)
               (snapshot_arn (dst c) (awsAcctId c) (DBSnapshotIdentifier s))) = true ->
     cleanup_scan P c (s :: rest) acc st =
     cleanup_scan P c rest acc
       (logged (ListTagsForResource (dst c)
                  (snapshot_arn (dst c) (awsAcctId c) (DBSnapshotIdentifier s))) st)).
Proof.
  split; [|split; [|split]].
  - intros fuel [c [e|]] out st' pre r post Hmain Hsplit.
    + unfold main in Hmain. simpl in Hmain. injection Hmain as _ <-. simpl in Hsplit.
      now destruct pre.
    + apply main_runs in Hmain.
      apply (failures_handled_split c out (annotate P [] (calls st')) 0 pre r post);
        [|exact Hsplit].
      exact (main_run_handled P clk c fuel out (calls st') Hmain).
  - intros st Hf. unfold checkSnapCopied. unfold_m. cbn [cfg calls].
    destruct (on_DescribeDBSnapshots P (calls st) (dst (cfg st))
                (by_instance (dbid (cfg st)))); [discriminate | reflexivity].
  - intros c s rest st Hf. simpl. unfold_m. simpl.
    destruct (on_ListTagsForResource _ _ _ _); [discriminate | reflexivity].
  - intros c s rest acc st Hf. simpl. unfold_m. simpl.
    destruct (on_ListTagsForResource _ _ _ _); [discriminate | reflexivity].
Qed.

End Propagation.

(** C5, as first stated, fails where the listing of the destination
    region fails in the idempotency check: the failed call is no tag
    read, yet the run goes on and exits with status 0. *)
Lemma propagation_counterexample :
  fst (main (provider_of dest_unlisted) clock0 5 (config0 0, None)) = Done 0 /\
  annotate (provider_of dest_unlisted) []
    (calls (snd (main (provider_of dest_unlisted) clock0 5 (config0 0, None)))) =
  [ (GetUser "us-east-1", false);
    (DescribeDBSnapshots "us-east-1" (by_instance "mydb"), false);
    (DescribeDBSnapshots "us-west-1" (by_instance "mydb"), true);
    (CopyDBSnapshot "us-west-1" (copy_message clock0 (config0 0) "123456789012" source0),
     false);
    (poll "us-west-1" "mydb-2015-01-01at00-00UTC", false) ].
Proof. split; vm_compute; reflexivity. Qed.

Lemma failure_propagation_witness :
  failure_handled (config0 0) (Done 1) 1
    (DescribeDBSnapshots "us-east-1" (by_instance "mydb")) [] /\
  failure_handled (config0 0) (Done 0) 2
    (DescribeDBSnapshots "us-west-1" (by_instance "mydb"))
    [ (CopyDBSnapshot "us-west-1" (copy_message clock0 (config0 0) "123456789012" source0),
       false);
      (poll "us-west-1" "mydb-2015-01-01at00-00UTC", false) ] /\
  checkSnapCopied (provider_of dest_unlisted)
    (mkState (located_config (config0 0) "123456789012" source0) (at_check (config0 0))) =
  (Done false,
   mkState (located_config (config0 0) "123456789012" source0)
           (at_check (config0 0) ++ [DescribeDBSnapshots "us-west-1" (by_instance "mydb")])).
Proof.
  split; [|split].
  - apply (proj1 (failure_propagation (provider_of source_unlisted) clock0)
             5%nat (config0 0, None) (Done 1)
             (mkState (set_awsAcctId (config0 0) "123456789012") (at_check (config0 0)))
             [(GetUser "us-east-1", false)]
             (DescribeDBSnapshots "us-east-1" (by_instance "mydb")) []).
    + vm_compute. reflexivity.
    + vm_compute. reflexivity.
  - apply (proj1 (failure_propagation (provider_of dest_unlisted) clock0)
             5%nat (config0 0, None) (Done 0)
             (snd (main (provider_of dest_unlisted) clock0 5 (config0 0, None)))
             [(GetUser "us-east-1", false);
              (DescribeDBSnapshots "us-east-1" (by_instance "mydb"), false)]
             (DescribeDBSnapshots "us-west-1" (by_instance "mydb"))).
    + vm_compute. reflexivity.
    + vm_compute. reflexivity.
  - apply (proj1 (proj2 (failure_propagation (provider_of dest_unlisted) clock0))
             (mkState (located_config (config0 0) "123456789012" source0)
                      (at_check (config0 0)))).
    reflexivity.
Defined.

(** ** The tags of the copy request *)

Lemma chosen_is_latest (l : list DBSnapshot) :
  snd (latest_scan l) <> EmptyString ->
  exists s, s ∈ l /\ DBSnapshotIdentifier s = snd (latest_scan l) /\
            Forall (fun s' => SnapshotCreateTime s' <= SnapshotCreateTime s) l.
Proof.
  intros Hid.
  destruct (latest_scan_spec l) as [[Heq _] | (l1 & s & l2 & Hsplit & Hr & _ & _ & Hmax)].
  - rewrite Heq in Hid. simpl in Hid. congruence.
  - exists s. rewrite Hr. simpl. repeat split; [rewrite Hsplit; mem | assumption].
Qed.

Lemma copy_third (x c1 c2 c3 : Call) (post : list Call) :
  x ∈ c1 :: c2 :: c3 :: post ->
  is_Copy x = true -> is_Copy c1 = false -> is_Copy c2 = false ->
  Forall (fun r => is_Copy r = false) post ->
  x = c3.
Proof.
  intros Hin Hx H1 H2 Hpost. rewrite !elem_of_cons in Hin.
  destruct Hin as [-> | [-> | [-> | Hin]]]; try congruence.
  rewrite Forall_forall in Hpost. specialize (Hpost _ Hin). congruence.
Qed.

Section LegacyRun.

Variable P : Provider.
Variable clk : Clock.

Lemma legacy_findAcccountID_cases (st : state Legacy.config) :
  (exists e, Legacy.findAcccountID P st
             = (Done (Err e), logged (GetUser (Legacy.src (cfg st))) st)) \/
  (exists user_arn acct,
     on_GetUser P (calls st) (Legacy.src (cfg st)) = Ok user_arn /\
     length (strings_Split user_arn ":"%char) = 6%nat /\
     strings_Split user_arn ":"%char !! 4%nat = Some acct /\
     Legacy.findAcccountID P st
     = (Done (Ok acct), logged (GetUser (Legacy.src (cfg st))) st)).
Proof.
  unfold Legacy.findAcccountID. unfold_m. cbn [fst snd].
  destruct (on_GetUser P (calls st) (Legacy.src (cfg st))) as [user_arn|e]; [|left; eauto].
  destruct (Nat.eqb_spec (length (strings_Split user_arn ":"%char)) 6) as [Hlen|Hlen];
    [|left; eauto].
  destruct (six_fields _ Hlen) as (f0 & f1 & f2 & f3 & f4 & f5 & Hp).
  right. exists user_arn, f4. rewrite Hp. repeat split.
Qed.

Lemma legacy_findLatestSnap_cases (st : state Legacy.config) :
  let c := cfg st in
  let user := GetUser (Legacy.src c) in
  let listing := DescribeDBSnapshots (Legacy.src c) (by_instance (Legacy.dbid c)) in
  (exists e st', Legacy.findLatestSnap P st = (Done (Some e), st') /\
                 (calls st' = calls st ++ [user] \/
                  calls st' = calls st ++ [user; listing])) \/
  (exists user_arn acct l,
     on_GetUser P (calls st) (Legacy.src c) = Ok user_arn /\
     length (strings_Split user_arn ":"%char) = 6%nat /\
     strings_Split user_arn ":"%char !! 4%nat = Some acct /\
     on_DescribeDBSnapshots P (calls st ++ [user]) (Legacy.src c)
       (by_instance (Legacy.dbid c)) = Ok l /\
     snd (latest_scan l) <> EmptyString /\
     Legacy.findLatestSnap P st =
     (Done None,
      mkState (Legacy.set_arn c (snapshot_arn (Legacy.src c) acct (snd (latest_scan l))))
              (calls st ++ [user; listing]))).
Proof.
  intros c user listing.
  destruct (legacy_findAcccountID_cases st)
    as [(e & Hacct) | (user_arn & acct & Huser & Hlen & Hfifth & Hacct)].
  { left. exists e, (logged user st). split; [|left; reflexivity].
    unfold Legacy.findLatestSnap, bind. rewrite Hacct. reflexivity. }
  set (s2 := logged listing (logged user st)).
  assert (Hrun : Legacy.findLatestSnap P st =
    match on_DescribeDBSnapshots P (calls st ++ [user]) (Legacy.src c)
            (by_instance (Legacy.dbid c)) with
    | Err e => (Done (Some e), s2)
    | Ok l =>
        if Nat.ltb (length l) 1 then (Done (Some (Errorf "No snapshots found")), s2)
        else if Nat.ltb (String.length (snd (latest_scan l))) 1
             then (Done (Some (Errorf "No usable snapshot found")), s2)
             else (Done None,
                   mkState (Legacy.set_arn c
                              (snapshot_arn (Legacy.src c) acct (snd (latest_scan l))))
                           (calls s2))
    end).
  { unfold Legacy.findLatestSnap. unfold bind at 1. rewrite Hacct.
    unfold_m. cbn [cfg calls logged]. fold c. fold user. fold listing.
    destruct (on_DescribeDBSnapshots P (calls st ++ [user]) (Legacy.src c)
                (by_instance (Legacy.dbid c))) as [l|e]; [|reflexivity].
    destruct (Nat.ltb (length l) 1); [reflexivity|].
    destruct (latest_scan l) as [newest newestId]. cbn [snd].
    destruct (Nat.ltb (String.length newestId) 1); reflexivity. }
  assert (Hs2 : calls s2 = calls st ++ [user; listing]) by (subst s2; calls_eq).
  rewrite Hrun.
  destruct (on_DescribeDBSnapshots P (calls st ++ [user]) (Legacy.src c)
              (by_instance (Legacy.dbid c))) as [l|e] eqn:Elist.
  2:{ left. exists e, s2. split; [reflexivity | right; exact Hs2]. }
  destruct (Nat.ltb (length l) 1) eqn:E1.
  { left. eexists _, s2. split; [reflexivity | right; exact Hs2]. }
  destruct (Nat.ltb (String.length (snd (latest_scan l))) 1) eqn:E2.
  { left. eexists _, s2. split; [reflexivity | right; exact Hs2]. }
  right. exists user_arn, acct, l.
  split; [assumption|]. split; [assumption|]. split; [assumption|].
  split; [reflexivity|]. split; [|now rewrite Hs2].
  intros E. rewrite E in E2. discriminate.
Qed.

Lemma legacy_copySnap_run (st : state Legacy.config) :
  let c := Legacy.set_copyId (cfg st)
             (Legacy.dbid (cfg st) +:+ "-" +:+ Format clk (Now clk) "2006-01-02at15-04MST") in
  let m := mkCopy (Legacy.arn c) (Legacy.copy_tags clk c) (Legacy.copyId c) in
  exists r,
    Legacy.copySnap P clk st =
    (Done r, mkState c (calls st ++ [CopyDBSnapshot (Legacy.dst c) m])).
Proof.
  intros c m. subst c m. unfold Legacy.copySnap. unfold_m. cbn.
  match goal with
  | |- context [on_CopyDBSnapshot ?a ?b ?c ?d] =>
      destruct (on_CopyDBSnapshot a b c d) as [snap|e]; [|eauto]
  end.
  destruct (String.eqb (Status snap) "creating"); eauto.
Qed.

(** A copy request of a run of the first release: its source is the
    reference of the snapshot the Locator chose in the run, and it
    carries this release's five tags. *)
Lemma legacy_main_copy fuel c0 out st' region m :
  Legacy.main P clk fuel (c0, None) = (out, st') ->
  CopyDBSnapshot region m ∈ calls st' ->
  exists user_arn acct l,
    on_GetUser P [] (Legacy.src c0) = Ok user_arn /\
    length (strings_Split user_arn ":"%char) = 6%nat /\
    strings_Split user_arn ":"%char !! 4%nat = Some acct /\
    on_DescribeDBSnapshots P [GetUser (Legacy.src c0)] (Legacy.src c0)
      (by_instance (Legacy.dbid c0)) = Ok l /\
    snd (latest_scan l) <> EmptyString /\
    region = Legacy.dst c0 /\
    SourceDBSnapshotIdentifier m
      = snapshot_arn (Legacy.src c0) acct (snd (latest_scan l)) /\
    Tags m = [ mkTag "time" (Format clk (Now clk) "2006-01-02 15:04:05 -0700");
               mkTag "timestamp" (sprintf_d (Unix (Now clk)));
               mkTag "source" (Legacy.src c0);
               mkTag "sourceid" (Legacy.dbid c0);
               mkTag "managedby" "rdsbackup" ].
Proof.
  unfold Legacy.main, Legacy.main_body. cbn [fst snd]. unfold bind at 1.
  destruct (legacy_findLatestSnap_cases (mkState c0 []))
    as [(e & s1 & -> & Hcalls) | (user_arn & acct & l & Huser & Hlen & Hfifth & Hlist & Hid & ->)].
  { unfold ret. intros [= <- <-] Hin. exfalso.
    cbn [calls cfg app] in Hcalls.
    destruct Hcalls as [E|E]; rewrite E in Hin;
      rewrite ?elem_of_cons in Hin; intuition (try discriminate);
      match goal with H : _ ∈ [] |- _ => inversion H end. }
  cbn [cfg calls app] in *.
  unfold bind at 1.
  destruct (legacy_copySnap_run
              (mkState (Legacy.set_arn c0 (snapshot_arn (Legacy.src c0) acct (snd (latest_scan l))))
                       [GetUser (Legacy.src c0);
                        DescribeDBSnapshots (Legacy.src c0) (by_instance (Legacy.dbid c0))]))
    as (r & ->).
  cbn [cfg calls app].
  set (c3 := Legacy.set_copyId _ _).
  set (m0 := mkCopy _ _ _).
  assert (Hgoal : CopyDBSnapshot region m = CopyDBSnapshot (Legacy.dst c3) m0 ->
    exists user_arn acct l,
      on_GetUser P [] (Legacy.src c0) = Ok user_arn /\
      length (strings_Split user_arn ":"%char) = 6%nat /\
      strings_Split user_arn ":"%char !! 4%nat = Some acct /\
      on_DescribeDBSnapshots P [GetUser (Legacy.src c0)] (Legacy.src c0)
        (by_instance (Legacy.dbid c0)) = Ok l /\
      snd (latest_scan l) <> EmptyString /\
      region = Legacy.dst c0 /\
      SourceDBSnapshotIdentifier m
        = snapshot_arn (Legacy.src c0) acct (snd (latest_scan l)) /\
      Tags m = [ mkTag "time" (Format clk (Now clk) "2006-01-02 15:04:05 -0700");
                 mkTag "timestamp" (sprintf_d (Unix (Now clk)));
                 mkTag "source" (Legacy.src c0);
                 mkTag "sourceid" (Legacy.dbid c0);
                 mkTag "managedby" "rdsbackup" ]).
  { intros [= -> ->]. exists user_arn, acct, l. repeat split; assumption. }
  destruct r as [e|].
  { unfold ret. intros [= <- <-] Hin. cbn [calls] in Hin.
    apply Hgoal. eapply copy_third; [exact Hin | reflexivity.. | constructor]. }
  unfold Legacy.waitForCopy, bind, get_cfg. cbn [cfg].
  destruct (waitForCopy_loop_run P (Legacy.dst c3) (by_snapshot (Legacy.copyId c3)) fuel
              (mkState c3 [GetUser (Legacy.src c0);
                           DescribeDBSnapshots (Legacy.src c0) (by_instance (Legacy.dbid c0));
                           CopyDBSnapshot (Legacy.dst c3) m0]))
    as (n & _ & [[_ Hwait] | (r & _ & _ & Hwait)]); rewrite Hwait; cbn [calls cfg].
  - intros [= <- <-] Hin. cbn [calls app] in Hin.
    apply Hgoal. eapply copy_third; [exact Hin | reflexivity.. |].
    apply (no_copy_repeat_poll (Legacy.dst c3) (Legacy.copyId c3)).
  - destruct r as [e|]; unfold ret; intros [= <- <-] Hin; cbn [calls app] in Hin;
      apply Hgoal; (eapply copy_third; [exact Hin | reflexivity.. |]);
      apply (no_copy_repeat_poll (Legacy.dst c3) (Legacy.copyId c3) (S n)).
Qed.

End LegacyRun.

Section CopyTags.

Variable P : Provider.
Variable clk : Clock.

Lemma copy_in_run (pre post : list Call) (x y : Call) :
  y ∈ pre ++ x :: post ->
  is_Copy y = true ->
  Forall (fun r => is_Copy r = false) pre ->
  Forall (fun r => is_Copy r = false) post ->
  y = x.
Proof.
  intros Hin Hy Hpre Hpost. rewrite elem_of_app, elem_of_cons in Hin.
  rewrite Forall_forall in Hpre, Hpost.
  destruct Hin as [Hin | [-> | Hin]]; [|reflexivity|].
  - specialize (Hpre _ Hin). congruence.
  - specialize (Hpost _ Hin). congruence.
Qed.

(** C6 (amended). Every copy request of a run of the current version
    goes to the destination region, names as its source the reference
    composed from the source region, the account identifier and the
    identifier of the snapshot the Locator chose in this run (a listed
    source snapshot of greatest creation time), and carries the six tags
    [time], [timestamp], [source], [sourceid], [sourcearn] and
    [managedby], with that same reference as the value of [sourcearn].
    A copy request of the first release has the same source reference
    and carries the five tags [time], [timestamp], [source], [sourceid]
    and [managedby], without [sourcearn]. *)
Theorem copy_request_tags :
  (forall fuel parsed out st' region m,
     main P clk fuel parsed = (out, st') ->
     CopyDBSnapshot region m ∈ calls st' ->
     let c0 := fst parsed in
     exists acct l s,
       resolved P c0 acct /\ located P c0 l /\
       s ∈ l /\
       Forall (fun s' => SnapshotCreateTime s' <= SnapshotCreateTime s) l /\
       let a := snapshot_arn (src c0) acct (DBSnapshotIdentifier s) in
       region = dst c0 /\
       SourceDBSnapshotIdentifier m = a /\
       Tags m = [ mkTag "time" (Format clk (Now clk) "2006-01-02 15:04:05 -0700");
                  mkTag "timestamp" (sprintf_d (Unix (Now clk)));
                  mkTag "source" (src c0);
                  mkTag "sourceid" (dbid c0);
                  mkTag "sourcearn" a;
                  mkTag "managedby" "rdsbackup" ]) /\
  (forall fuel parsed out st' region m,
     Legacy.main P clk fuel parsed = (out, st') ->
     CopyDBSnapshot region m ∈ calls st' ->
     let c0 := fst parsed in
     exists user_arn acct l s,
       on_GetUser P [] (Legacy.src c0) = Ok user_arn /\
       length (strings_Split user_arn ":"%char) = 6%nat /\
       strings_Split user_arn ":"%char !! 4%nat = Some acct /\
       on_DescribeDBSnapshots P [GetUser (Legacy.src c0)] (Legacy.src c0)
         (by_instance (Legacy.dbid c0)) = Ok l /\
       s ∈ l /\
       Forall (fun s' => SnapshotCreateTime s' <= SnapshotCreateTime s) l /\
       region = Legacy.dst c0 /\
       SourceDBSnapshotIdentifier m
         = snapshot_arn (Legacy.src c0) acct (DBSnapshotIdentifier s) /\
       Tags m = [ mkTag "time" (Format clk (Now clk) "2006-01-02 15:04:05 -0700");
                  mkTag "timestamp" (sprintf_d (Unix (Now clk)));
                  mkTag "source" (Legacy.src c0);
                  mkTag "sourceid" (Legacy.dbid c0);
                  mkTag "managedby" "rdsbackup" ]).
Proof.
  split.
  - intros fuel [c0 [e|]] out st' region m Hmain Hin; cbn [fst].
    { unfold main in Hmain. simpl in Hmain. injection Hmain as _ <-. inversion Hin. }
    apply main_runs, main_run_copy in Hmain.
    destruct Hmain as [[Hnc _] | (acct & l & tags & post & Hres & Hloc & Hchk & Htr & Hnc & _)].
    + exfalso. rewrite Forall_forall in Hnc. specialize (Hnc _ Hin). discriminate.
    + rewrite Htr in Hin.
      assert (Hm : CopyDBSnapshot region m = copy_call clk c0 acct l).
      { eapply copy_in_run; [exact Hin | reflexivity | | exact Hnc].
        apply no_copy_at_copy, Hchk. }
      unfold copy_call in Hm. injection Hm as -> ->.
      destruct Hloc as (Hlist & Hne & Hid).
      destruct (chosen_is_latest l Hid) as (s & Hs & Hsid & Hmax).
      exists acct, l, s.
      split; [exact Hres|]. split; [repeat split; assumption|].
      split; [exact Hs|]. split; [exact Hmax|].
      cbv zeta. rewrite Hsid. repeat split.
  - intros fuel [c0 [e|]] out st' region m Hmain Hin; cbn [fst].
    { unfold Legacy.main in Hmain. simpl in Hmain. injection Hmain as _ <-. inversion Hin. }
    destruct (legacy_main_copy P clk fuel c0 out st' region m Hmain Hin)
      as (user_arn & acct & l & Huser & Hlen & Hfifth & Hlist & Hid & Hregion & Hsrc & Htags).
    destruct (chosen_is_latest l Hid) as (s & Hs & Hsid & Hmax).
    exists user_arn, acct, l, s. rewrite Hsid. repeat split; assumption.
Qed.

End CopyTags.

(** C6, as first stated, fails on the first release: its copy request
    carries no [sourcearn] tag. *)
Lemma copy_tags_counterexample :
  calls (snd (Legacy.main (provider_of fresh_run) clock0 5 (legacy_config0, None))) =
  [ GetUser "us-east-1";
    DescribeDBSnapshots "us-east-1" (by_instance "mydb");
    CopyDBSnapshot "us-west-1"
      (mkCopy arn0
         [ mkTag "time" "2015-01-01 00:00:00 +0000";
           mkTag "timestamp" "1420070400";
           mkTag "source" "us-east-1";
           mkTag "sourceid" "mydb";
           mkTag "managedby" "rdsbackup" ]
         "mydb-2015-01-01at00-00UTC");
    poll "us-west-1" "mydb-2015-01-01at00-00UTC";
    poll "us-west-1" "mydb-2015-01-01at00-00UTC";
    poll "us-west-1" "mydb-2015-01-01at00-00UTC" ] /\
  existsb (fun t => String.eqb (Key t) "sourcearn")
          (Legacy.copy_tags clock0 (Legacy.set_arn legacy_config0 arn0)) = false.
Proof. split; vm_compute; reflexivity. Qed.

Lemma copy_request_tags_witness :
  exists acct l s,
    resolved (provider_of fresh_run) (config0 0) acct /\
    located (provider_of fresh_run) (config0 0) l /\
    s ∈ l /\
    Forall (fun s' => SnapshotCreateTime s' <= SnapshotCreateTime s) l /\
    let a := snapshot_arn "us-east-1" acct (DBSnapshotIdentifier s) in
    "us-west-1" = "us-west-1" /\
    SourceDBSnapshotIdentifier (copy_message clock0 (config0 0) "123456789012" source0) = a /\
    Tags (copy_message clock0 (config0 0) "123456789012" source0) =
      [ mkTag "time" "2015-01-01 00:00:00 +0000";
        mkTag "timestamp" (sprintf_d (Unix (Now clock0)));
        mkTag "source" "us-east-1";
        mkTag "sourceid" "mydb";
        mkTag "sourcearn" a;
        mkTag "managedby" "rdsbackup" ].
Proof.
  destruct (main (provider_of fresh_run) clock0 5 (config0 0, None)) as [out st'] eqn:E.
  apply (proj1 (copy_request_tags (provider_of fresh_run) clock0)
           5%nat (config0 0, None) out st' "us-west-1"
           (copy_message clock0 (config0 0) "123456789012" source0) E).
  vm_compute in E. injection E as _ <-.
  apply list_elem_of_In. vm_compute. auto 10.
Defined.

Lemma wait_ends_at_first_change_witness :
  waitForCopy (provider_of fresh_run) 5 waiting0 =
    (Done None,
     mkState (cfg waiting0)
             (calls waiting0 ++ repeat (poll "us-west-1" "mydb-2015-01-01at00-00UTC") 3)) /\
  waitForCopy (provider_of copy_vanishes) 5 waiting0 =
    (Done (Some (Errorf "New snapshot missing!")),
     mkState (cfg waiting0)
             (calls waiting0 ++ repeat (poll "us-west-1" "mydb-2015-01-01at00-00UTC") 2)).
Proof.
  split.
  - apply (proj1 (wait_ends_at_first_change (provider_of fresh_run) waiting0 2 5
                    ltac:(lia)
                    ltac:(intros [|[|i]] Hi; [eexists; split; reflexivity ..| lia]))
             (snap "mydb-2015-01-01at00-00UTC" 1420070460 "available")).
    + reflexivity.
    + discriminate.
  - apply (proj2 (wait_ends_at_first_change (provider_of copy_vanishes) waiting0 1 5
                    ltac:(lia)
                    ltac:(intros [|i] Hi; [eexists; split; reflexivity | lia]))
             []).
    + reflexivity.
    + discriminate.
Defined.

(** * Further properties

    ** Whole runs: what [main] writes, and when *)

Section CleanupCalls.

Variable P : Provider.

Lemma cleanup_call_scan c l :
  Forall (cleanup_call c) (DescribeDBSnapshots (dst c) (by_instance (dbid c)) :: tag_calls c l).
Proof.
  constructor; [left; reflexivity|].
  unfold tag_calls. induction l as [|s l IH]; simpl; constructor; [|exact IH].
  right. left. eauto.
Qed.

Lemma cleanup_call_purge c snaps keys i j :
  Forall (cleanup_call c) (purge_calls c snaps keys i j).
Proof.
  unfold purge_calls. induction (take j (drop i keys)) as [|k ks IH]; simpl;
    constructor; [|exact IH].
  right. right. eauto.
Qed.

(** Every call of [cleanupSnaps] is a listing by instance, a tag read or
    a deletion, in the destination region; the configuration is left as
    it was. *)
Lemma cleanupSnaps_calls (st : state config) :
  exists tr r,
    cleanupSnaps P st = (Done r, mkState (cfg st) (calls st ++ tr)) /\
    Forall (cleanup_call (cfg st)) tr.
Proof.
  destruct (Z.le_gt_cases (purge (cfg st)) 0) as [Hk|Hk].
  - exists [], None. rewrite cleanupSnaps_disabled by assumption.
    rewrite app_nil_r. split; [now destruct st | constructor].
  - pose proof (cleanupSnaps_run P st Hk) as Hrun. simpl in Hrun.
    set (c := cfg st) in *.
    set (call := DescribeDBSnapshots (dst c) (by_instance (dbid c))) in *.
    destruct (on_DescribeDBSnapshots P (calls st) (dst c) (by_instance (dbid c))) as [l|e].
    + destruct (Z.of_nat (size _) <=? purge c).
      * exists (call :: tag_calls c l), None. split; [exact Hrun | apply cleanup_call_scan].
      * destruct Hrun as (j & r & Hrun & _).
        eexists (call :: tag_calls c l ++ _), r. split; [exact Hrun|].
        change (call :: tag_calls c l ++ ?x) with ((call :: tag_calls c l) ++ x).
        apply Forall_app. split; [apply cleanup_call_scan | apply cleanup_call_purge].
    + exists [call], (Some e). split; [exact Hrun|]. repeat constructor.
Qed.

End CleanupCalls.

Section RunExtras.

Variable P : Provider.
Variable clk : Clock.

(** The calls a run has issued when the retention pass starts: reads and
    one copy request. *)
Lemma no_delete_before_cleanup c0 acct l tags n :
  Forall (fun r => is_ListTags r = true) tags ->
  Forall (fun r => is_Delete r = false) (at_cleanup clk c0 acct l tags n).
Proof.
  intros Htags. unfold at_cleanup, at_wait, at_copy, at_check.
  repeat (apply Forall_app; split).
  - repeat constructor.
  - constructor; [reflexivity|].
    eapply Forall_impl; [exact Htags|]. intros [] Hx; simpl in *; congruence.
  - repeat constructor.
  - unfold poll_call, poll. generalize (S n). intros k.
    induction k; simpl; constructor; [reflexivity | assumption].
Qed.

(** The trace of the retention pass of a run, by the run's own equation. *)
Lemma cleaned_calls c0 acct l tags n tr r :
  cleanupSnaps P (mkState (copying_config clk c0 acct l) (at_cleanup clk c0 acct l tags n)) =
    (Done r, mkState (copying_config clk c0 acct l) (at_cleanup clk c0 acct l tags n ++ tr)) ->
  Forall (cleanup_call c0) tr.
Proof.
  intros Hclean.
  destruct (cleanupSnaps_calls P
              (mkState (copying_config clk c0 acct l) (at_cleanup clk c0 acct l tags n)))
    as (tr' & r' & Hrun & Hall).
  rewrite Hrun in Hclean. injection Hclean as _ Htr.
  apply app_inv_head in Htr. subst tr'. exact Hall.
Qed.

(** X1. A run deletes nothing unless its copy request was accepted and a
    poll showed the copy out of "creating": the deletions all come after
    the wait, and they go through the destination client. *)
Theorem purge_only_after_copy fuel parsed out st' region id :
  main P clk fuel parsed = (out, st') ->
  DeleteDBSnapshot region id ∈ calls st' ->
  let c0 := fst parsed in
  region = dst c0 /\
  exists acct l tags n tr,
    resolved P c0 acct /\ located P c0 l /\
    accepted P clk c0 acct l tags /\
    still_creating P clk c0 acct l tags n /\
    wait_ended P clk c0 acct l tags n None /\
    calls st' = at_cleanup clk c0 acct l tags n ++ tr /\
    DeleteDBSnapshot region id ∈ tr.
Proof.
  destruct parsed as [c0 [e|]]; intros Hmain Hin; cbn [fst].
  { unfold main in Hmain. simpl in Hmain. injection Hmain as _ <-. inversion Hin. }
  apply main_runs in Hmain.
  assert (Hno : forall tr, Forall (fun r => is_Delete r = false) tr ->
                           DeleteDBSnapshot region id ∈ tr -> False).
  { intros tr Hall Hd. rewrite Forall_forall in Hall. specialize (Hall _ Hd). discriminate. }
  destruct Hmain as
    [ e He
    | acct e Hres He
    | acct l tags Hres Hloc Hchk
    | acct l tags Hres Hloc Hchk Hrej
    | acct l tags Hres Hloc Hchk Hacc Hpolls
    | acct l tags n e Hres Hloc Hchk Hacc Hn Hpolls Hend
    | acct l tags n tr r Hres Hloc Hchk Hacc Hn Hpolls Hend Hclean Hdisc Hnc ].
  - exfalso. refine (Hno _ _ Hin). repeat constructor.
  - exfalso. refine (Hno _ _ Hin). repeat constructor.
  - exfalso. refine (Hno _ _ Hin). unfold at_copy, at_check.
    repeat (constructor; [reflexivity|]).
    destruct Hchk as (_ & Htags & _).
    eapply Forall_impl; [exact Htags|]. intros [] Hx; simpl in *; congruence.
  - exfalso. refine (Hno _ _ Hin). unfold at_wait, at_copy, at_check.
    apply Forall_app. split; [|repeat constructor].
    repeat (constructor; [reflexivity|]).
    destruct Hchk as (_ & Htags & _).
    eapply Forall_impl; [exact Htags|]. intros [] Hx; simpl in *; congruence.
  - exfalso. refine (Hno _ _ Hin).
    pose proof (no_delete_before_cleanup c0 acct l tags fuel (proj1 (proj2 Hchk))) as H.
    unfold at_cleanup in H. rewrite repeat_snoc, app_assoc in H.
    apply Forall_app in H as [H _]. exact H.
  - exfalso. refine (Hno _ _ Hin).
    apply no_delete_before_cleanup, Hchk.
  - apply elem_of_app in Hin as [Hin|Hin].
    { exfalso. refine (Hno _ _ Hin). apply no_delete_before_cleanup, Hchk. }
    pose proof (cleaned_calls c0 acct l tags n tr r Hclean) as Hall.
    rewrite Forall_forall in Hall.
    split.
    + destruct (Hall _ Hin) as [E | [(name & E) | (id' & E)]]; try discriminate.
      now injection E.
    + exists acct, l, tags, n, tr.
      split; [exact Hres|]. split; [exact Hloc|]. split; [exact Hacc|].
      split; [exact Hpolls|]. split; [exact Hend|]. split; [reflexivity | exact Hin].
Qed.

(** X2. A run issues at most one copy request, through the destination
    client. *)
Theorem at_most_one_copy fuel parsed out st' :
  main P clk fuel parsed = (out, st') ->
  (length (filter (fun r => is_Copy r = true) (calls st')) <= 1)%nat /\
  forall region m, CopyDBSnapshot region m ∈ calls st' -> region = dst (fst parsed).
Proof.
  destruct parsed as [c0 [e|]]; intros Hmain; cbn [fst].
  { unfold main in Hmain. simpl in Hmain. injection Hmain as _ <-. simpl.
    split; [lia|]. intros region m Hin. inversion Hin. }
  apply main_runs, main_run_copy in Hmain.
  assert (Hnone : forall tr, Forall (fun x => is_Copy x = false) tr ->
                             filter (fun r => is_Copy r = true) tr = []).
  { induction 1 as [|r tr Hr _ IH]; [reflexivity|].
    rewrite filter_cons, Hr. destruct (decide (false = true)); [discriminate | exact IH]. }
  destruct Hmain as [[Hnc _] | (acct & l & tags & post & Hres & Hloc & Hchk & -> & Hnc & _)].
  - rewrite (Hnone _ Hnc). split; [simpl; lia|].
    intros region m Hin. rewrite Forall_forall in Hnc. specialize (Hnc _ Hin). discriminate.
  - rewrite filter_app, filter_cons, (Hnone _ Hnc),
      (Hnone _ (no_copy_at_copy c0 tags (proj1 (proj2 Hchk)))).
    split; [destruct (decide (is_Copy (copy_call clk c0 acct l) = true)); simpl; lia|].
    intros region m Hin.
    assert (Hm : CopyDBSnapshot region m = copy_call clk c0 acct l).
    { rewrite elem_of_app, elem_of_cons in Hin.
      pose proof (no_copy_at_copy c0 tags (proj1 (proj2 Hchk))) as Hpre.
      rewrite Forall_forall in Hpre, Hnc.
      destruct Hin as [Hin | [E | Hin]]; [|exact E|].
      - specialize (Hpre _ Hin). discriminate.
      - specialize (Hnc _ Hin). discriminate. }
    unfold copy_call in Hm. now injection Hm.
Qed.

End RunExtras.

(** ** Whole runs: exit status and termination *)

Lemma verdict_stop_none resp :
  poll_verdict resp = Stop None ->
  exists s, resp = Ok [s] /\ Status s <> "creating".
Proof.
  destruct resp as [[|s [|s' l]]|e]; simpl; try discriminate.
  destruct (String.eqb (Status s) "creating") eqn:E; [discriminate|].
  intros _. exists s. split; [reflexivity | now apply String.eqb_neq].
Qed.

Section RunExit.

Variable P : Provider.
Variable clk : Clock.

(** X3. Exit status 0 means that the chosen source snapshot has its copy:
    either the idempotency check read a destination snapshot tagged
    [managedby = rdsbackup] and [sourcearn] = the chosen reference, or
    the copy request was accepted and a poll showed the single copy in a
    status other than "creating". *)
Theorem exit_zero_means_copied fuel parsed st' :
  main P clk fuel parsed = (Done 0, st') ->
  let c0 := fst parsed in
  exists acct l,
    resolved P c0 acct /\ located P c0 l /\
    ((exists dl s tl,
        on_DescribeDBSnapshots P (at_check c0) (dst c0) (by_instance (dbid c0)) = Ok dl /\
        (s, Ok tl) ∈ tag_reads P (at_check c0 ++ [dest_listing_call c0]) (dst c0) acct dl /\
        mkTag "managedby" "rdsbackup" ∈ tl /\
        mkTag "sourcearn" (chosen_arn c0 acct l) ∈ tl) \/
     (exists tags n s,
        accepted P clk c0 acct l tags /\
        poll_answer P (at_wait clk c0 acct l tags) (dst c0)
          (by_snapshot (copyId (copying_config clk c0 acct l))) n = Ok [s] /\
        Status s <> "creating")).
Proof.
  destruct parsed as [c0 [e|]]; intros Hmain; cbn [fst].
  { unfold main in Hmain. simpl in Hmain. discriminate. }
  apply main_runs in Hmain. inversion Hmain as
    [ e He
    | acct e Hres He
    | acct l tags Hres Hloc Hchk
    | acct l tags Hres Hloc Hchk Hrej
    | acct l tags Hres Hloc Hchk Hacc Hpolls
    | acct l tags n e Hres Hloc Hchk Hacc Hn Hpolls Hend
    | acct l tags n tr r Hres Hloc Hchk Hacc Hn Hpolls Hend Hclean Hdisc Hnc Hout ].
  - exists acct, l. split; [exact Hres|]. split; [exact Hloc|]. left.
    destruct (checked_exists P c0 acct l) as (tags' & Hchk').
    destruct (checked_fun P c0 _ _ _ _ _ _ Hchk Hchk') as [Hb _].
    destruct (on_DescribeDBSnapshots P (at_check c0) (dst c0) (by_instance (dbid c0)))
      as [dl|e]; [|discriminate].
    symmetry in Hb. apply existsb_elem_of in Hb as ([s rt] & Hin & Hc). simpl in Hc.
    apply is_copy_of_spec in Hc as (tl & -> & H1 & H2).
    exists dl, s, tl. auto.
  - exists acct, l. split; [exact Hres|]. split; [exact Hloc|]. right.
    destruct (verdict_stop_none _ Hend) as (s & Hs & Hstatus).
    exists tags, n, s. auto.
Qed.

Lemma waitForCopy_loop_more_fuel {C} region q : forall fuel fuel' (st st' : state C) r,
  waitForCopy_loop P fuel region q st = (Done r, st') ->
  (fuel <= fuel')%nat ->
  waitForCopy_loop P fuel' region q st = (Done r, st').
Proof.
  induction fuel as [|fuel IH]; intros fuel' st st' r Hrun Hle.
  - simpl in Hrun. unfold spin in Hrun. discriminate.
  - destruct fuel' as [|fuel']; [lia|].
    rewrite waitForCopy_loop_step in *.
    destruct (poll_verdict (on_DescribeDBSnapshots P (calls st) region q)).
    + apply IH; [exact Hrun | lia].
    + exact Hrun.
Qed.

(** X4. The fuel of the model only cuts off waits that are still "creating":
    a run that ends ends the same way with any larger fuel, and a run
    that is cut off had its copy request accepted and saw "creating" at
    every poll. *)
Theorem fuel_only_bounds_the_wait fuel c0 out st' :
  main P clk fuel (c0, None) = (out, st') ->
  (forall x, out = Done x ->
     forall fuel', (fuel <= fuel')%nat -> main P clk fuel' (c0, None) = (Done x, st')) /\
  (out = Spinning ->
     exists acct l tags,
       accepted P clk c0 acct l tags /\ still_creating P clk c0 acct l tags fuel /\
       calls st' = at_wait clk c0 acct l tags ++ repeat (poll_call clk c0 acct l) fuel).
Proof.
  intros Hmain. split.
  - intros x -> fuel' Hle. revert Hmain. unfold main. cbn [fst snd].
    destruct (findAcccountID_cases P (mkState c0 []))
      as [(e & Hacct) | (user_arn & acct & _ & _ & _ & Hacct)].
    { now rewrite !(main_body_unresolved P clk _ _ _ _ Hacct). }
    destruct (findLatestSnap_cases P (mkState (set_awsAcctId c0 acct) (at_locate c0)))
      as [(e & Hloc) | (l & _ & _ & _ & Hloc)].
    { now rewrite !(main_body_not_located P clk _ _ _ _ _ _ Hacct Hloc). }
    destruct (checkSnapCopied_run P (mkState (located_config c0 acct l) (at_check c0)))
      as (tags & Hcheck & _).
    rewrite !(main_body_checked P clk _ _ _ _ _ _ _ Hacct Hloc Hcheck).
    match goal with |- (if ?b then _ else _) = _ -> _ => destruct b end; [auto|].
    destruct (copySnap P clk _) as [[[e|]|msg|] s4]; auto.
    destruct (waitForCopy P fuel s4) as [[r|msg|] s5] eqn:Hwait;
      [|intros H; discriminate..].
    unfold waitForCopy, bind, get_cfg in *.
    rewrite (waitForCopy_loop_more_fuel _ _ fuel fuel' _ _ _ Hwait Hle). auto.
  - intros ->. apply main_runs in Hmain. inversion Hmain as
      [ | | | | acct l tags Hres Hloc Hchk Hacc Hpolls Hcalls | | ].
    exists acct, l, tags. auto.
Qed.

End RunExit.

(** ** The retention pass: bounds, collisions, failures *)

Lemma collected_fst reads : forall m0 ks0,
  fst (fold_left collect_read reads (m0, ks0)) = fold_left put (counted reads) m0.
Proof.
  induction reads as [|p reads IH]; intros m0 ks0; [reflexivity|].
  simpl fold_left. rewrite collect_read_eq, counted_cons.
  destruct (is_managed (snd p) && (0 <? stamp (fst p))); simpl; apply IH.
Qed.

Lemma fold_put_size_le ms : forall m0,
  (size (fold_left put ms m0) <= size m0 + length ms)%nat.
Proof.
  induction ms as [|a ms IH]; intros m0; simpl; [lia|].
  specialize (IH (put m0 a)).
  assert (size (put m0 a) <= S (size m0))%nat as Hput.
  { unfold put.
    pose proof (map_size_insert (stamp a) (DBSnapshotIdentifier a) m0) as Hs.
    destruct (m0 !! stamp a); simpl in Hs; lia. }
  lia.
Qed.

Lemma fold_put_snoc ms a m0 : fold_left put (ms ++ [a]) m0 = put (fold_left put ms m0) a.
Proof. now rewrite fold_left_app. Qed.

(** The identifier kept under a timestamp is that of the last snapshot
    put there. *)
Lemma fold_put_last ms : forall k id,
  fold_left put ms ∅ !! k = Some id ->
  exists l1 s l2,
    ms = l1 ++ s :: l2 /\ stamp s = k /\ DBSnapshotIdentifier s = id /\
    Forall (fun s' => stamp s' <> stamp s) l2.
Proof.
  induction ms as [|a ms IH] using rev_ind; intros k id Hk.
  - simpl in Hk. rewrite lookup_empty in Hk. discriminate.
  - rewrite fold_put_snoc in Hk. unfold put in Hk at 1.
    destruct (decide (stamp a = k)) as [E|E].
    + subst k. rewrite lookup_insert_eq in Hk. injection Hk as <-.
      exists ms, a, []. repeat split. constructor.
    + rewrite lookup_insert_ne in Hk by assumption.
      destruct (IH k id Hk) as (l1 & s & l2 & -> & Hs & Hid & Hl2).
      exists l1, s, (l2 ++ [a]). rewrite <- app_assoc. repeat split; try assumption.
      apply Forall_app. split; [assumption|]. constructor; [congruence | constructor].
Qed.

Section RetentionExtras.

Variable P : Provider.

Lemma cleanupSnaps_enabled (st : state config) (l : list DBSnapshot) :
  let c := cfg st in
  let call := DescribeDBSnapshots (dst c) (by_instance (dbid c)) in
  let reads := tag_reads P (calls st ++ [call]) (dst c) (awsAcctId c) l in
  let snaps := fst (collected reads) in
  let keys := sort_int64arr (snd (collected reads)) in
  let scanned := mkState c (calls st ++ call :: tag_calls c l) in
  0 < purge c ->
  on_DescribeDBSnapshots P (calls st) (dst c) (by_instance (dbid c)) = Ok l ->
  cleanupSnaps P st =
  if Z.of_nat (size snaps) <=? purge c then (Done None, scanned)
  else purge_loop P c snaps keys 0 (Z.to_nat (Z.of_nat (size snaps) - purge c)) scanned.
Proof.
  intros c call reads snaps keys scanned Hk Hlist.
  unfold cleanupSnaps. unfold_m. simpl. fold c. fold call.
  apply Z.leb_gt in Hk. rewrite Hk, Hlist.
  rewrite cleanup_scan_run. rewrite logged_calls, logged_cfg. fold c. fold call.
  fold reads. fold (collected reads). subst snaps keys scanned.
  destruct (collected reads) as [m ks]. simpl fst. simpl snd.
  rewrite <- app_assoc. simpl.
  destruct (Z.of_nat (size m) <=? purge c); reflexivity.
Qed.

(** The purge loop, more closely: it issues the first [j] deletions of
    its plan; when it returns an error, that is the error of the last
    deletion issued. *)
Lemma purge_loop_error (c : config) (snaps : gmap Z string) (keys : list Z) :
  forall n i (st : state config),
    (i + n <= length keys)%nat ->
    exists j r,
      purge_loop P c snaps keys i n st =
      (Done r, mkState (cfg st) (calls st ++ purge_calls c snaps keys i j)) /\
      (j <= n)%nat /\
      (forall e, r = Some e ->
         exists j' x,
           j = S j' /\
           purge_calls c snaps keys i j = purge_calls c snaps keys i j' ++ [x] /\
           is_Delete x = true /\
           call_error P (calls st ++ purge_calls c snaps keys i j') x = Some e).
Proof.
  induction n as [|n IH]; intros i st Hlen.
  - exists 0%nat, None. rewrite purge_calls_0, app_nil_r. simpl.
    split; [now destruct st|]. split; [lia | discriminate].
  - simpl.
    destruct (keys !! i) as [k|] eqn:Hk; [|apply lookup_ge_None in Hk; lia].
    unfold_m. simpl.
    set (id := default EmptyString (snaps !! k)).
    destruct (on_DeleteDBSnapshot P (calls st) (dst c) id) as [d|e] eqn:Edel.
    + destruct (IH (S i) (logged (DeleteDBSnapshot (dst c) id) st) ltac:(lia))
        as (j & r & Hrun & Hj & Herr).
      exists (S j), r. rewrite Hrun, logged_calls, logged_cfg.
      rewrite (purge_calls_S _ _ _ _ _ _ Hk). fold id.
      rewrite <- app_assoc. simpl.
      split; [reflexivity|]. split; [lia|].
      intros e Hr. destruct (Herr e Hr) as (j' & x & -> & Hsplit & Hx & Hcall).
      exists (S j'), x. split; [reflexivity|].
      rewrite (purge_calls_S _ _ _ _ j' _ Hk). fold id.
      rewrite Hsplit. split; [reflexivity|]. split; [assumption|].
      rewrite logged_calls, <- app_assoc in Hcall. exact Hcall.
    + exists 1%nat, (Some e). rewrite (purge_calls_S _ _ _ _ _ _ Hk). fold id.
      rewrite purge_calls_0.
      split; [reflexivity|]. split; [lia|].
      intros e' [= <-]. exists 0%nat, (DeleteDBSnapshot (dst c) id).
      rewrite purge_calls_0, app_nil_r. simpl. rewrite Edel. auto.
Qed.

(** X5. Whatever the tags and timestamps, a retention pass with a positive
    keep-count issues no more deletions than there are counted
    snapshots above the keep-count. *)
Theorem purge_never_exceeds_excess (st : state config) (l : list DBSnapshot) :
  let c := cfg st in
  let call := DescribeDBSnapshots (dst c) (by_instance (dbid c)) in
  let reads := tag_reads P (calls st ++ [call]) (dst c) (awsAcctId c) l in
  0 < purge c ->
  on_DescribeDBSnapshots P (calls st) (dst c) (by_instance (dbid c)) = Ok l ->
  exists tr r,
    cleanupSnaps P st = (Done r, mkState c (calls st ++ tr)) /\
    Z.of_nat (length (filter (fun x => is_Delete x = true) tr))
      <= Z.max 0 (Z.of_nat (length (counted reads)) - purge c).
Proof.
  intros c call reads Hk Hlist.
  rewrite (cleanupSnaps_enabled st l Hk Hlist). fold c. fold call. fold reads.
  assert (Hsize : (size (fst (collected reads)) <= length (counted reads))%nat).
  { unfold collected. rewrite collected_fst.
    pose proof (fold_put_size_le (counted reads) ∅) as H.
    rewrite map_size_empty in H. exact H. }
  destruct (Z.of_nat (size (fst (collected reads))) <=? purge c) eqn:Ele.
  - exists (call :: tag_calls c l), None. split; [reflexivity|].
    rewrite filter_deletes_none by (apply scan_has_no_delete; reflexivity).
    simpl. lia.
  - apply Z.leb_gt in Ele.
    destruct (purge_loop_run P c (fst (collected reads))
                (sort_int64arr (snd (collected reads)))
                (Z.to_nat (Z.of_nat (size (fst (collected reads))) - purge c)) 0
                (mkState c (calls st ++ call :: tag_calls c l)))
      as (j & r & Hrun & Hj & _).
    { rewrite sort_int64arr_length.
      pose proof (collected_inv reads) as (Hs & _). lia. }
    eexists (call :: tag_calls c l ++ _), r. rewrite Hrun. cbn [cfg calls].
    split; [now rewrite <- app_assoc|].
    change (call :: tag_calls c l ++ ?x) with ((call :: tag_calls c l) ++ x).
    rewrite filter_app, filter_deletes_none, filter_deletes_all.
    + simpl. unfold purge_calls. rewrite length_map, length_take. lia.
    + apply purge_calls_are_deletes.
    + apply scan_has_no_delete. reflexivity.
Qed.

(** X6. Timestamp collisions: every deletion names the snapshot listed last
    among the counted snapshots of its second-resolution timestamp; one
    listed before another of the same timestamp is never the one named. *)
Theorem purge_names_last_of_timestamp (st : state config) (l : list DBSnapshot) :
  let c := cfg st in
  let call := DescribeDBSnapshots (dst c) (by_instance (dbid c)) in
  let reads := tag_reads P (calls st ++ [call]) (dst c) (awsAcctId c) l in
  on_DescribeDBSnapshots P (calls st) (dst c) (by_instance (dbid c)) = Ok l ->
  exists tr r,
    cleanupSnaps P st = (Done r, mkState c (calls st ++ tr)) /\
    forall region id, DeleteDBSnapshot region id ∈ tr ->
      exists l1 s l2,
        counted reads = l1 ++ s :: l2 /\
        DBSnapshotIdentifier s = id /\
        Forall (fun s' => stamp s' <> stamp s) l2.
Proof.
  intros c call reads Hlist.
  assert (Hplan : forall i j region id,
    DeleteDBSnapshot region id
      ∈ purge_calls c (fst (collected reads)) (sort_int64arr (snd (collected reads))) i j ->
    exists l1 s l2,
      counted reads = l1 ++ s :: l2 /\ DBSnapshotIdentifier s = id /\
      Forall (fun s' => stamp s' <> stamp s) l2).
  { intros i j region id Hin. unfold purge_calls in Hin.
    change (map ?f ?l) with (f <$> l) in Hin.
    apply list_elem_of_fmap in Hin as (k & Heq & Hk).
    injection Heq as _ Hid.
    assert (k ∈ snd (collected reads)) as Hk'.
    { apply elem_of_sort_int64arr. eapply subseteq_drop, subseteq_take, Hk. }
    destruct (collected_inv reads) as (_ & Hkeys & _).
    destruct (Hkeys k Hk') as [id' Hid'].
    rewrite Hid' in Hid. simpl in Hid. subst id'.
    unfold collected in Hid'. rewrite collected_fst in Hid'.
    destruct (fold_put_last _ _ _ Hid') as (l1 & s & l2 & Hsplit & _ & Hs & Hl2).
    exists l1, s, l2. auto. }
  assert (Hscan : forall region id, DeleteDBSnapshot region id ∉ call :: tag_calls c l).
  { intros region id Hin.
    pose proof (scan_has_no_delete c call l eq_refl) as Hall.
    rewrite Forall_forall in Hall. specialize (Hall _ Hin). discriminate. }
  destruct (Z.le_gt_cases (purge c) 0) as [Hk|Hk].
  - exists [], None. rewrite cleanupSnaps_disabled by assumption.
    rewrite app_nil_r. split; [now destruct st|]. intros region id Hin. inversion Hin.
  - pose proof (cleanupSnaps_run P st Hk) as Hrun. simpl in Hrun.
    fold c in Hrun. fold call in Hrun. rewrite Hlist in Hrun. fold reads in Hrun.
    destruct (Z.of_nat (size _) <=? purge c).
    + exists (call :: tag_calls c l), None. split; [assumption|].
      intros region id Hin. destruct (Hscan region id Hin).
    + destruct Hrun as (j & r & Hrun & _).
      eexists (call :: tag_calls c l ++ _), r. split; [exact Hrun|].
      intros region id Hin.
      change (call :: tag_calls c l ++ ?x) with ((call :: tag_calls c l) ++ x) in Hin.
      apply elem_of_app in Hin as [Hin|Hin].
      * destruct (Hscan region id Hin).
      * exact (Hplan _ _ region id Hin).
Qed.

(** X7. An error of the retention pass is the error of its last call, the
    listing or a deletion; every call before it succeeded, tag reads
    apart, and no call follows: the remaining deletions are not tried. *)
Theorem purge_stops_at_first_failure (st st' : state config) (e : error) :
  cleanupSnaps P st = (Done (Some e), st') ->
  exists tr0 x,
    st' = mkState (cfg st) (calls st ++ tr0 ++ [x]) /\
    (x = DescribeDBSnapshots (dst (cfg st)) (by_instance (dbid (cfg st))) \/
     is_Delete x = true) /\
    call_error P (calls st ++ tr0) x = Some e /\
    Forall benign (annotate P (calls st) tr0).
Proof.
  intros Hrun.
  destruct (Z.le_gt_cases (purge (cfg st)) 0) as [Hk|Hk].
  { rewrite cleanupSnaps_disabled in Hrun by assumption. discriminate. }
  set (c := cfg st) in *.
  set (call := DescribeDBSnapshots (dst c) (by_instance (dbid c))) in *.
  destruct (on_DescribeDBSnapshots P (calls st) (dst c) (by_instance (dbid c)))
    as [l|e'] eqn:Hlist.
  2:{ pose proof (cleanupSnaps_run P st Hk) as H. simpl in H. fold c in H. fold call in H.
      rewrite Hlist in H. rewrite H in Hrun. injection Hrun as <- <-.
      exists [], call. rewrite app_nil_r. simpl. fold c. rewrite Hlist.
      repeat split; [left; reflexivity | constructor]. }
  rewrite (cleanupSnaps_enabled st l Hk Hlist) in Hrun. fold c in Hrun. fold call in Hrun.
  set (reads := tag_reads P (calls st ++ [call]) (dst c) (awsAcctId c) l) in *.
  destruct (Z.of_nat (size (fst (collected reads))) <=? purge c) eqn:Ele; [discriminate|].
  apply Z.leb_gt in Ele.
  destruct (purge_loop_error c (fst (collected reads))
              (sort_int64arr (snd (collected reads)))
              (Z.to_nat (Z.of_nat (size (fst (collected reads))) - purge c)) 0
              (mkState c (calls st ++ call :: tag_calls c l)))
    as (j & r & Hloop & Hj & Herr).
  { rewrite sort_int64arr_length.
    pose proof (collected_inv reads) as (Hs & _). lia. }
  destruct (purge_loop_run P c (fst (collected reads))
              (sort_int64arr (snd (collected reads)))
              (Z.to_nat (Z.of_nat (size (fst (collected reads))) - purge c)) 0
              (mkState c (calls st ++ call :: tag_calls c l)))
    as (j2 & r2 & Hloop2 & _ & Hdisc & _).
  { rewrite sort_int64arr_length.
    pose proof (collected_inv reads) as (Hs & _). lia. }
  rewrite Hloop in Hrun. injection Hrun as -> <-.
  rewrite Hloop in Hloop2. injection Hloop2 as <- Hj2. apply app_inv_head in Hj2.
  destruct (Herr e eq_refl) as (j' & x & -> & Hsplit & Hx & Hcall).
  cbn [calls cfg] in *.
  exists (call :: tag_calls c l ++ purge_calls c (fst (collected reads))
            (sort_int64arr (snd (collected reads))) 0 j'), x.
  split; [|split; [right; exact Hx | split]].
  - rewrite Hsplit. f_equal. rewrite <- !app_assoc. simpl. now rewrite <- app_assoc.
  - rewrite <- Hcall. f_equal. rewrite <- !app_assoc. reflexivity.
  - change (call :: tag_calls c l ++ ?y) with ((call :: tag_calls c l) ++ y).
    rewrite annotate_app. apply Forall_app. split.
    + simpl. constructor.
      * intros Hf. simpl in Hf. rewrite Hlist in Hf. discriminate.
      * apply benign_tag_reads, tag_calls_are_tag_reads.
    + rewrite <- Hj2, Hsplit in Hdisc. simpl in Hdisc.
      destruct Hdisc as (tr0 & x' & Heq & Hall & _).
      apply app_inj_tail in Heq as [<- _].
      change (calls st ++ call :: tag_calls c l)
        with (calls st ++ (call :: tag_calls c l)) in Hall.
      exact Hall.
Qed.

End RetentionExtras.

(** ** The tags the tool writes and the tags it reads *)

Lemma copy_tags_read (clk : Clock) (c : config) (a : string) :
  is_copy_of a (Ok (copy_tags clk c)) = true <-> a = arn c.
Proof.
  simpl. rewrite orb_false_r. rewrite String.eqb_eq. split; congruence.
Qed.

(** The tags of the first release mark a copy as managed, and never as
    the copy of any reference. *)
Lemma legacy_tags_read (clk : Clock) (c : Legacy.config) :
  is_managed (Ok (Legacy.copy_tags clk c)) = true /\
  forall a, is_copy_of a (Ok (Legacy.copy_tags clk c)) = false.
Proof. split; [reflexivity | intros a; reflexivity]. Qed.

Section TagExtras.

Variable P : Provider.
Variable clk : Clock.

(** X8. The tags [copySnap] attaches, read back by the two tag loops:
    the loop of [checkSnapCopied] over a snapshot that carries them
    answers "copied" exactly when the reference they were written for is
    the one looked for, and the loop of [cleanupSnaps] records the
    snapshot once, one identifier and one key, when its creation time is
    after the epoch. *)
Theorem copy_tags_round_trip (clk1 : Clock) (c1 c : config) (s : DBSnapshot)
    (acc : gmap Z string * list Z) (st : state config) :
  let name := snapshot_arn (dst c) (awsAcctId c) (DBSnapshotIdentifier s) in
  on_ListTagsForResource P (calls st) (dst c) name = Ok (copy_tags clk1 c1) ->
  checkSnapCopied_loop P c [s] st =
    (Done (String.eqb (arn c1) (arn c)), logged (ListTagsForResource (dst c) name) st) /\
  cleanup_scan P c [s] acc st =
    (Done (if 0 <? Unix (SnapshotCreateTime s)
           then (<[Unix (SnapshotCreateTime s) := DBSnapshotIdentifier s]> (fst acc),
                 snd acc ++ [Unix (SnapshotCreateTime s)])
           else acc),
     logged (ListTagsForResource (dst c) name) st).
Proof.
  intros name Htags. split.
  - cbn [checkSnapCopied_loop]. unfold_m. cbn [cfg calls]. fold name. rewrite Htags.
    rewrite tag_flags_fold. unfold copy_tags, has_tag. cbn.
    rewrite orb_false_r.
    destruct (String.eqb (arn c1) (arn c)); reflexivity.
  - cbn [cleanup_scan]. unfold_m. cbn [cfg calls]. fold name. rewrite Htags.
    rewrite tag_collect_fold. unfold copy_tags, marks, is_mark, stamp. cbn.
    rewrite andb_true_r.
    destruct (0 <? Unix (SnapshotCreateTime s)); reflexivity.
Qed.

(** X9. The idempotence of runs: when the destination listing of a run shows
    a snapshot whose tags are those a [copySnap] attached for the
    reference this run chose, the run exits with status 0 and changes
    nothing remotely. *)
Theorem second_run_is_a_no_op (fuel : nat) (c0 : config) (acct : string)
    (l dl : list DBSnapshot) (s : DBSnapshot) (clk1 : Clock) (c1 : config) :
  resolved P c0 acct -> located P c0 l ->
  on_DescribeDBSnapshots P (at_check c0) (dst c0) (by_instance (dbid c0)) = Ok dl ->
  (s, Ok (copy_tags clk1 c1))
    ∈ tag_reads P (at_check c0 ++ [dest_listing_call c0]) (dst c0) acct dl ->
  arn c1 = chosen_arn c0 acct l ->
  fst (main P clk fuel (c0, None)) = Done 0 /\
  Forall (fun r => is_write r = false) (calls (snd (main P clk fuel (c0, None)))).
Proof.
  intros Hres Hloc Hlist Hin Harn.
  destruct (checked_exists P c0 acct l) as (tags & Hchk). rewrite Hlist in Hchk.
  assert (Hb : existsb (fun p => is_copy_of (chosen_arn c0 acct l) (snd p))
                 (tag_reads P (at_check c0 ++ [dest_listing_call c0]) (dst c0) acct dl)
               = true).
  { apply existsb_elem_of. exists (s, Ok (copy_tags clk1 c1)). split; [exact Hin|].
    cbn [snd]. apply copy_tags_read. now symmetry. }
  rewrite Hb in Hchk. destruct Hchk as (Hcheck & Htags & _).
  unfold main. cbn [fst snd].
  rewrite (main_body_checked P clk fuel _ _ _ _ true _
             (resolved_run P c0 acct Hres) (located_run P c0 acct l Hloc) Hcheck).
  cbn [fst snd calls]. split; [reflexivity|].
  unfold at_copy, at_check. repeat (constructor; [reflexivity|]).
  eapply Forall_impl; [exact Htags|]. intros [] Hx; try discriminate Hx; reflexivity.
Qed.

(** X10. Copies made by the first release never stop version 1.2 from copying
    again: a check that reads only such tag lists answers "not copied". *)
Theorem legacy_copies_do_not_count_as_copied (st : state config) (dl : list DBSnapshot) :
  let c := cfg st in
  let call := DescribeDBSnapshots (dst c) (by_instance (dbid c)) in
  on_DescribeDBSnapshots P (calls st) (dst c) (by_instance (dbid c)) = Ok dl ->
  (forall s rt, (s, rt) ∈ tag_reads P (calls st ++ [call]) (dst c) (awsAcctId c) dl ->
     exists clk1 c1, rt = Ok (Legacy.copy_tags clk1 c1)) ->
  fst (checkSnapCopied P st) = Done false /\
  managed_of (tag_reads P (calls st ++ [call]) (dst c) (awsAcctId c) dl) = dl.
Proof.
  intros c call Hlist Hall.
  destruct (checkSnapCopied_run P st) as (tags & Hrun & _).
  rewrite Hrun. cbn [fst]. fold c. rewrite Hlist. fold call.
  set (reads := tag_reads P (calls st ++ [call]) (dst c) (awsAcctId c) dl) in *.
  split.
  - f_equal. apply not_true_is_false. intros Hex.
    apply existsb_elem_of in Hex as ([s rt] & Hin & Hc).
    destruct (Hall s rt Hin) as (clk1 & c1 & ->). cbn [snd] in Hc.
    rewrite (proj2 (legacy_tags_read clk1 c1)) in Hc. discriminate.
  - transitivity (map fst reads); [|apply tag_reads_fst].
    unfold managed_of. f_equal.
    clear Hrun. clearbody reads. induction reads as [|[s rt] reads IH]; [reflexivity|].
    rewrite filter_cons.
    destruct (Hall s rt ltac:(left)) as (clk1 & c1 & ->).
    cbn [snd]. rewrite (proj1 (legacy_tags_read clk1 c1)).
    destruct (decide (true = true)); [|congruence].
    f_equal. apply IH. intros s' rt' Hin'. apply (Hall s' rt'). now right.
Qed.

(** X11. The Locator of the first release and the first two steps of version
    1.2 agree: the same calls, the same error or the same reference. *)
Theorem locators_agree (c : config) (c1 : Legacy.config) :
  src c = Legacy.src c1 -> dbid c = Legacy.dbid c1 ->
  let r := resolve_and_locate P (mkState c []) in
  let r1 := Legacy.findLatestSnap P (mkState c1 []) in
  fst r = fst r1 /\
  calls (snd r) = calls (snd r1) /\
  (fst r = Done None -> arn (cfg (snd r)) = Legacy.arn (cfg (snd r1))).
Proof.
  intros Hsrc Hdbid.
  destruct c1 as [dbid1 src1 dst1 arn1 copyId1 key1 secret1 debug1].
  cbn [Legacy.src Legacy.dbid] in Hsrc, Hdbid. subst src1 dbid1.
  cbv [resolve_and_locate Legacy.findLatestSnap findAcccountID Legacy.findAcccountID
       findLatestSnap bind ret get_cfg set_cfg panic iam_GetUser rds_DescribeDBSnapshots
       logged cfg calls Legacy.src Legacy.dbid].
  destruct (on_GetUser P [] (src c)) as [user_arn|e];
    [|repeat split; try reflexivity; intros H; discriminate H].
  destruct (Nat.eqb (length (strings_Split user_arn ":"%char)) 6); cbn [negb];
    [|repeat split; try reflexivity; intros H; discriminate H].
  destruct (strings_Split user_arn ":"%char !! 4%nat) as [acct|];
    [|repeat split; try reflexivity; intros H; discriminate H].
  cbn [src dbid set_awsAcctId awsAcctId].
  match goal with
  | |- context [on_DescribeDBSnapshots ?a ?b ?c ?d] =>
      destruct (on_DescribeDBSnapshots a b c d) as [snaps|e];
        [|repeat split; try reflexivity; intros H; discriminate H]
  end.
  destruct (Nat.ltb (length snaps) 1);
    [repeat split; try reflexivity; intros H; discriminate H|].
  destruct (latest_scan snaps) as [newest newestId].
  destruct (Nat.ltb (String.length newestId) 1);
    [repeat split; try reflexivity; intros H; discriminate H|].
  repeat split; reflexivity.
Qed.

End TagExtras.

(** ** The first release: it always copies *)

Section LegacyExtras.

Variable P : Provider.
Variable clk : Clock.

Lemma legacy_located_run (c0 : Legacy.config) user_arn acct l :
  on_GetUser P [] (Legacy.src c0) = Ok user_arn ->
  length (strings_Split user_arn ":"%char) = 6%nat ->
  strings_Split user_arn ":"%char !! 4%nat = Some acct ->
  on_DescribeDBSnapshots P [GetUser (Legacy.src c0)] (Legacy.src c0)
    (by_instance (Legacy.dbid c0)) = Ok l ->
  l <> [] -> snd (latest_scan l) <> EmptyString ->
  Legacy.findLatestSnap P (mkState c0 []) =
  (Done None,
   mkState (Legacy.set_arn c0 (snapshot_arn (Legacy.src c0) acct (snd (latest_scan l))))
           [GetUser (Legacy.src c0);
            DescribeDBSnapshots (Legacy.src c0) (by_instance (Legacy.dbid c0))]).
Proof.
  intros Huser Hlen Hfifth Hlist Hne Hid.
  cbv [Legacy.findLatestSnap Legacy.findAcccountID bind ret get_cfg set_cfg panic
       iam_GetUser rds_DescribeDBSnapshots logged cfg calls].
  rewrite Huser, Hlen, Hfifth. cbn [Nat.eqb negb app]. rewrite Hlist.
  destruct (Nat.ltb (length l) 1) eqn:E1; [apply length_lt_1 in E1; contradiction|].
  destruct (latest_scan l) as [newest newestId]. cbn [snd] in *.
  destruct (Nat.ltb (String.length newestId) 1) eqn:E2;
    [apply String_length_lt_1 in E2; contradiction|].
  reflexivity.
Qed.

(** X12. The first release has no idempotency check and no retention pass:
    a run never reads tags and never deletes, and whenever its Locator
    succeeds it issues a copy request for the chosen reference, whatever
    the destination region holds. *)
Theorem legacy_always_copies fuel (c0 : Legacy.config) out st' :
  Legacy.main P clk fuel (c0, None) = (out, st') ->
  Forall (fun r => is_ListTags r = false /\ is_Delete r = false) (calls st') /\
  forall user_arn acct l,
    on_GetUser P [] (Legacy.src c0) = Ok user_arn ->
    length (strings_Split user_arn ":"%char) = 6%nat ->
    strings_Split user_arn ":"%char !! 4%nat = Some acct ->
    on_DescribeDBSnapshots P [GetUser (Legacy.src c0)] (Legacy.src c0)
      (by_instance (Legacy.dbid c0)) = Ok l ->
    l <> [] -> snd (latest_scan l) <> EmptyString ->
    exists m post,
      calls st' = [GetUser (Legacy.src c0);
                   DescribeDBSnapshots (Legacy.src c0) (by_instance (Legacy.dbid c0));
                   CopyDBSnapshot (Legacy.dst c0) m] ++ post /\
      SourceDBSnapshotIdentifier m
        = snapshot_arn (Legacy.src c0) acct (snd (latest_scan l)).
Proof.
  intros Hmain.
  assert (Hpolls : forall region q n,
    Forall (fun r => is_ListTags r = false /\ is_Delete r = false)
           (repeat (DescribeDBSnapshots region q) n)).
  { intros region q n. induction n; simpl; constructor; auto. }
  revert Hmain. unfold Legacy.main, Legacy.main_body. cbn [fst snd]. unfold bind at 1.
  destruct (Legacy.findLatestSnap P (mkState c0 [])) as [r1 s1] eqn:Hloc.
  destruct (legacy_findLatestSnap_cases P (mkState c0 []))
    as [(e & s1' & Hloc' & Hcalls) | (user_arn & acct & l & Huser & Hlen & Hfifth & Hlist & Hid & Hloc')];
    rewrite Hloc in Hloc'; injection Hloc' as -> ->.
  { unfold ret. intros [= <- <-]. cbn [calls cfg app] in Hcalls. split.
    - destruct Hcalls as [-> | ->]; repeat constructor.
    - intros user_arn acct l Huser Hlen Hfifth Hlist Hne Hid. exfalso.
      rewrite (legacy_located_run c0 user_arn acct l Huser Hlen Hfifth Hlist Hne Hid) in Hloc.
      discriminate. }
  cbn [cfg calls app] in *.
  unfold bind at 1.
  destruct (legacy_copySnap_run P clk
              (mkState (Legacy.set_arn c0 (snapshot_arn (Legacy.src c0) acct (snd (latest_scan l))))
                       [GetUser (Legacy.src c0);
                        DescribeDBSnapshots (Legacy.src c0) (by_instance (Legacy.dbid c0))]))
    as (r & ->).
  cbn [cfg calls app].
  set (c3 := Legacy.set_copyId _ _).
  set (m0 := mkCopy _ _ _).
  assert (Hgoal : forall post,
    Forall (fun r => is_ListTags r = false /\ is_Delete r = false) post ->
    Forall (fun r => is_ListTags r = false /\ is_Delete r = false)
      ([GetUser (Legacy.src c0);
        DescribeDBSnapshots (Legacy.src c0) (by_instance (Legacy.dbid c0));
        CopyDBSnapshot (Legacy.dst c3) m0] ++ post) /\
    forall user_arn0 acct0 l0,
      on_GetUser P [] (Legacy.src c0) = Ok user_arn0 ->
      length (strings_Split user_arn0 ":"%char) = 6%nat ->
      strings_Split user_arn0 ":"%char !! 4%nat = Some acct0 ->
      on_DescribeDBSnapshots P [GetUser (Legacy.src c0)] (Legacy.src c0)
        (by_instance (Legacy.dbid c0)) = Ok l0 ->
      l0 <> [] -> snd (latest_scan l0) <> EmptyString ->
      exists m post0,
        [GetUser (Legacy.src c0);
         DescribeDBSnapshots (Legacy.src c0) (by_instance (Legacy.dbid c0));
         CopyDBSnapshot (Legacy.dst c3) m0] ++ post
        = [GetUser (Legacy.src c0);
           DescribeDBSnapshots (Legacy.src c0) (by_instance (Legacy.dbid c0));
           CopyDBSnapshot (Legacy.dst c0) m] ++ post0 /\
        SourceDBSnapshotIdentifier m
          = snapshot_arn (Legacy.src c0) acct0 (snd (latest_scan l0))).
  { intros post Hpost. split.
    - apply Forall_app. split; [repeat constructor | exact Hpost].
    - intros user_arn0 acct0 l0 Huser0 _ Hfifth0 Hlist0 _ _.
      exists m0, post. split; [reflexivity|].
      rewrite Huser in Huser0. injection Huser0 as <-.
      rewrite Hfifth in Hfifth0. injection Hfifth0 as <-.
      rewrite Hlist in Hlist0. injection Hlist0 as <-. reflexivity. }
  destruct r as [e|].
  { unfold ret. intros [= <- <-]. cbn [calls].
    apply (Hgoal []). constructor. }
  unfold Legacy.waitForCopy, bind, get_cfg. cbn [cfg].
  destruct (waitForCopy_loop_run P (Legacy.dst c3) (by_snapshot (Legacy.copyId c3)) fuel
              (mkState c3 [GetUser (Legacy.src c0);
                           DescribeDBSnapshots (Legacy.src c0) (by_instance (Legacy.dbid c0));
                           CopyDBSnapshot (Legacy.dst c3) m0]))
    as (n & _ & [[_ Hwait] | (r & _ & _ & Hwait)]); rewrite Hwait; cbn [calls cfg].
  - intros [= <- <-]. cbn [calls]. apply Hgoal, Hpolls.
  - destruct r as [e|]; unfold ret; intros [= <- <-]; cbn [calls];
      apply Hgoal; apply (Hpolls _ _ (S n)).
Qed.

End LegacyExtras.

(** ** The command line and the run *)

Section ArgsExtras.

Variable P : Provider.
Variable clk : Clock.
Variable Getenv : string -> string.
Variable Atoi : string -> Z * option error.

Lemma parseArgs_ok parse c :
  parseArgs Getenv Atoi parse = Done (c, None) ->
  exists args,
    parse = Ok args /\
    (1 <= String.length (awsKeyId c))%nat /\ (1 <= String.length (awsSecret c))%nat /\
    purge c = match as_string (args !! "--purge") with
              | Some p => fst (Atoi p)
              | None => 0
              end.
Proof.
  unfold parseArgs. destruct parse as [args|e]; [|discriminate].
  intros H. exists args. split; [reflexivity|]. revert H.
  destruct (match as_string (args !! "--purge") with
            | Some p => Atoi p
            | None => (0, None)
            end) as [n [e|]] eqn:Hp; cbn [fst snd]; [discriminate|].
  destruct (as_string (args !! "<db_instance_id>")); [|discriminate].
  destruct (as_string (args !! "--source")); [|discriminate].
  destruct (as_string (args !! "--dest")); [|discriminate].
  destruct (as_bool (args !! "--quiet")); [|discriminate].
  match goal with |- (if ?b then _ else _) = _ -> _ => destruct b eqn:Hlen end;
    [discriminate|].
  intros [= <-]. cbn [awsKeyId awsSecret purge set_purge zero_config].
  apply orb_false_elim in Hlen as [Hk Hs].
  apply Nat.ltb_ge in Hk, Hs.
  split; [exact Hk|]. split; [exact Hs|].
  destruct (as_string (args !! "--purge")); [now rewrite Hp | now injection Hp].
Qed.

Lemma main_without_purge fuel c0 :
  purge c0 <= 0 ->
  Forall (fun r => is_Delete r = false) (calls (snd (main P clk fuel (c0, None)))).
Proof.
  intros Hk.
  destruct (main P clk fuel (c0, None)) as [out st'] eqn:Hmain. cbn [snd].
  apply main_runs in Hmain.
  destruct Hmain as
    [ e He
    | acct e Hres He
    | acct l tags Hres Hloc Hchk
    | acct l tags Hres Hloc Hchk Hrej
    | acct l tags Hres Hloc Hchk Hacc Hpolls
    | acct l tags n e Hres Hloc Hchk Hacc Hn Hpolls Hend
    | acct l tags n tr r Hres Hloc Hchk Hacc Hn Hpolls Hend Hclean Hdisc Hnc ].
  - repeat constructor.
  - repeat constructor.
  - unfold at_copy, at_check. repeat (constructor; [reflexivity|]).
    destruct Hchk as (_ & Htags & _).
    eapply Forall_impl; [exact Htags|]. intros [] Hx; simpl in *; congruence.
  - unfold at_wait, at_copy, at_check.
    apply Forall_app. split; [|repeat constructor].
    repeat (constructor; [reflexivity|]).
    destruct Hchk as (_ & Htags & _).
    eapply Forall_impl; [exact Htags|]. intros [] Hx; simpl in *; congruence.
  - pose proof (no_delete_before_cleanup clk c0 acct l tags fuel (proj1 (proj2 Hchk))) as H.
    unfold at_cleanup in H. rewrite repeat_snoc, app_assoc in H.
    apply Forall_app in H as [H _]. exact H.
  - apply no_delete_before_cleanup, Hchk.
  - rewrite cleanupSnaps_disabled in Hclean by exact Hk.
    injection Hclean as _ Htr.
    assert (Hnil : tr = []).
    { apply (app_inv_head ((tags ++ [copy_call clk c0 acct l]) ++
               poll_call clk c0 acct l :: repeat (poll_call clk c0 acct l) n)).
      rewrite app_nil_r. symmetry. exact Htr. }
    subst tr. rewrite app_nil_r.
    apply no_delete_before_cleanup, Hchk.
Qed.

(** X14. A run that issues any remote call was started with a key identifier
    and a secret, from the flags or the environment: [parseArgs] returns
    an error otherwise, and [main] stops on it before the first call. *)
Theorem calls_need_credentials parse parsed fuel :
  parseArgs Getenv Atoi parse = Done parsed ->
  calls (snd (main P clk fuel parsed)) <> [] ->
  snd parsed = None /\
  awsKeyId (fst parsed) <> EmptyString /\ awsSecret (fst parsed) <> EmptyString.
Proof.
  destruct parsed as [c [e|]]; intros Hparse Hcalls.
  { exfalso. apply Hcalls. reflexivity. }
  destruct (parseArgs_ok parse c Hparse) as (args & _ & Hk & Hs & _).
  cbn [fst snd]. split; [reflexivity|].
  split; intros E; rewrite E in *; simpl in *; lia.
Qed.

(** X15. A key or a secret given on the command line as the empty string is
    not replaced by the environment variable: [parseArgs] never succeeds
    then, whatever the environment holds. *)
Theorem empty_flag_hides_environment args c :
  args !! "--awskey" = Some (VString EmptyString) \/
  args !! "--awssecret" = Some (VString EmptyString) ->
  parseArgs Getenv Atoi (Ok args) <> Done (c, None).
Proof.
  intros Hflag Hparse. unfold parseArgs in Hparse. revert Hparse.
  destruct (snd _); [discriminate|].
  destruct (as_string (args !! "<db_instance_id>")); [|discriminate].
  destruct (as_string (args !! "--source")); [|discriminate].
  destruct (as_string (args !! "--dest")); [|discriminate].
  destruct (as_bool (args !! "--quiet")); [|discriminate].
  destruct Hflag as [-> | ->]; cbn [as_string String.length Nat.ltb Nat.leb orb].
  - discriminate.
  - rewrite orb_true_r. discriminate.
Qed.

(** X16. Without a purge count on the command line, or with one that is not
    positive, a run deletes nothing. *)
Theorem no_deletion_without_purge_count args parsed fuel :
  parseArgs Getenv Atoi (Ok args) = Done parsed ->
  (forall p, args !! "--purge" = Some (VString p) -> fst (Atoi p) <= 0) ->
  Forall (fun r => is_Delete r = false) (calls (snd (main P clk fuel parsed))).
Proof.
  destruct parsed as [c [e|]]; intros Hparse Hcount.
  { constructor. }
  apply main_without_purge.
  destruct (parseArgs_ok (Ok args) c Hparse) as (args' & [= <-] & _ & _ & ->).
  destruct (args !! "--purge") as [[|p|b]|] eqn:E; cbn [as_string]; try lia.
  apply Hcount. reflexivity.
Qed.

End ArgsExtras.

(** ** The Locator's scan and the sort of the timestamps *)

(** X17. The order of the listing does not matter to the Locator when no two
    snapshots share a creation time: any reordering of the list gives
    the same snapshot and the same time. *)
Theorem latest_scan_order_free (l l' : list DBSnapshot) :
  l ≡ₚ l' ->
  NoDup (map SnapshotCreateTime l) ->
  latest_scan l = latest_scan l'.
Proof.
  intros Hperm Hnd.
  destruct (latest_scan_spec l) as [[Heq Hle] | (l1 & s & l2 & Hsplit & Hr & Hs & _ & Hmax)];
    destruct (latest_scan_spec l')
      as [[Heq' Hle'] | (l1' & s' & l2' & Hsplit' & Hr' & Hs' & _ & Hmax')].
  - now rewrite Heq, Heq'.
  - exfalso. assert (Hin : s' ∈ l) by (rewrite Hperm, Hsplit'; mem).
    rewrite Forall_forall in Hle. specialize (Hle _ Hin). lia.
  - exfalso. assert (Hin : s ∈ l') by (rewrite <- Hperm, Hsplit; mem).
    rewrite Forall_forall in Hle'. specialize (Hle' _ Hin). lia.
  - assert (Hin : s ∈ l) by (rewrite Hsplit; mem).
    assert (Hin' : s' ∈ l) by (rewrite Hperm, Hsplit'; mem).
    assert (Hins : s ∈ l') by (rewrite <- Hperm; exact Hin).
    rewrite Forall_forall in Hmax, Hmax'.
    pose proof (Hmax _ Hin') as H1. pose proof (Hmax' _ Hins) as H2.
    assert (E : s = s').
    { apply (NoDup_map_inj SnapshotCreateTime l); [exact Hnd | exact Hin | exact Hin' | lia]. }
    rewrite Hr, Hr', E. reflexivity.
Qed.

Lemma insert_Permutation_cons (t : list Z) : forall k y h,
  t !! k = Some y -> y :: <[k:=h]> t ≡ₚ h :: t.
Proof.
  induction t as [|z t IH]; intros k y h Hk; [discriminate|].
  destruct k as [|k]; simpl in *.
  - injection Hk as ->. apply perm_swap.
  - rewrite perm_swap, (IH k y h Hk). apply perm_swap.
Qed.

Lemma Swap_Permutation (a b : int64arr) (i j : nat) : Swap a i j = Some b -> b ≡ₚ a.
Proof.
  unfold Swap. unfold int64arr in *.
  destruct (a !! i) as [x|] eqn:Hx; [|discriminate].
  destruct (a !! j) as [y|] eqn:Hy; [|discriminate].
  intros [= <-]. revert i j x y Hx Hy.
  induction a as [|h t IH]; intros i j x y Hx Hy; [discriminate|].
  destruct i as [|i], j as [|j]; simpl in *.
  - injection Hx as <-. reflexivity.
  - injection Hx as <-. now apply insert_Permutation_cons.
  - injection Hy as <-. now apply insert_Permutation_cons.
  - now rewrite (IH i j x y Hx Hy).
Qed.

Lemma swapped_Permutation (a a' : int64arr) : swapped a a' -> a' ≡ₚ a.
Proof.
  induction 1 as [a|a i j b c Hswap _ IH]; [reflexivity|].
  rewrite IH. exact (Swap_Permutation a b i j Hswap).
Qed.

Lemma Less_Sorted (a : int64arr) :
  (forall i, (S i < Len a)%nat -> Less a (S i) i = Some false) -> Sorted Z.le a.
Proof.
  unfold Len, Less. unfold int64arr in *.
  induction a as [|x a IH]; intros Hless; [constructor|].
  constructor.
  - apply IH. intros i Hi. apply (Hless (S i)). simpl. lia.
  - destruct a as [|y a]; constructor.
    specialize (Hless 0%nat ltac:(simpl; lia)). simpl in Hless.
    injection Hless as Hlt. apply Z.ltb_ge in Hlt. exact Hlt.
Qed.

(** X18. [int64arr] fixes what [sort.Sort] leaves in [keys]: an array
    reached from the keys by calls of [Swap] that passes [sort.IsSorted]
    under [Less] (no element is [Less] than the one before it) is the
    ascending list of the keys, whatever calls were made. *)
Theorem sort_contract_fixes_keys (a a' : int64arr) :
  swapped a a' ->
  (forall i, (S i < Len a')%nat -> Less a' (S i) i = Some false) ->
  a' = sort_int64arr a.
Proof.
  intros Hswaps Hsorted. unfold sort_int64arr.
  apply (Sorted_unique Z.le).
  - exact (Less_Sorted a' Hsorted).
  - apply Sorted_merge_sort. apply _.
  - rewrite merge_sort_Permutation. exact (swapped_Permutation a a' Hswaps).
Qed.

(** X19. [Swap] exchanges the elements at its two indices and touches nothing
    else; it panics exactly when an index is out of range. *)
Theorem Swap_exchanges (a : int64arr) (i j : nat) :
  (Swap a i j = None <-> ~ (i < Len a /\ j < Len a)%nat) /\
  forall a', Swap a i j = Some a' ->
    Len a' = Len a /\ a' !! i = a !! j /\ a' !! j = a !! i /\
    (forall k, k <> i -> k <> j -> a' !! k = a !! k) /\
    Swap a' i j = Some a.
Proof.
  unfold Swap, Len. unfold int64arr in *. split.
  - destruct (a !! i) as [x|] eqn:Hx; destruct (a !! j) as [y|] eqn:Hy.
    + apply lookup_lt_Some in Hx, Hy. split; [intros H; discriminate H | tauto].
    + apply lookup_ge_None in Hy. split; [lia | reflexivity].
    + apply lookup_ge_None in Hx. split; [lia | reflexivity].
    + apply lookup_ge_None in Hx. split; [lia | reflexivity].
  - intros a'.
    destruct (a !! i) as [x|] eqn:Hx; [|discriminate].
    destruct (a !! j) as [y|] eqn:Hy; [|discriminate].
    intros [= <-].
    pose proof (lookup_lt_Some _ _ _ Hx) as Hi.
    pose proof (lookup_lt_Some _ _ _ Hy) as Hj.
    assert (Hi' : <[j:=x]> (<[i:=y]> a) !! i = Some y).
    { destruct (decide (i = j)) as [->|Hne].
      - rewrite list_lookup_insert_eq by (rewrite length_insert; lia). congruence.
      - rewrite list_lookup_insert_ne by congruence.
        apply list_lookup_insert_eq. lia. }
    assert (Hj' : <[j:=x]> (<[i:=y]> a) !! j = Some x).
    { apply list_lookup_insert_eq. rewrite length_insert. lia. }
    split; [now rewrite !length_insert|].
    split; [congruence|]. split; [congruence|]. split.
    + intros k Hki Hkj. now rewrite !list_lookup_insert_ne by congruence.
    + rewrite Hi', Hj'. f_equal.
      apply list_eq. intros k.
      destruct (decide (k = j)) as [->|Hkj].
      { rewrite list_lookup_insert_eq by (rewrite !length_insert; lia). congruence. }
      rewrite list_lookup_insert_ne by congruence.
      destruct (decide (k = i)) as [->|Hki].
      { rewrite list_lookup_insert_eq by (rewrite !length_insert; lia). congruence. }
      now rewrite !list_lookup_insert_ne by congruence.
Qed.

(** ** The check and the wait, call by call *)

Section CheckWaitExtras.

Variable P : Provider.

Lemma tag_calls_app c l1 l2 : tag_calls c (l1 ++ l2) = tag_calls c l1 ++ tag_calls c l2.
Proof. unfold tag_calls. apply map_app. Qed.

Lemma checkSnapCopied_loop_match (c : config) (s : DBSnapshot) (l2 : list DBSnapshot)
    (tl : list Tag) (l1 : list DBSnapshot) :
  forall st : state config,
    (forall p, p ∈ tag_reads P (calls st) (dst c) (awsAcctId c) l1 ->
       is_copy_of (arn c) (snd p) = false) ->
    on_ListTagsForResource P (calls st ++ tag_calls c l1) (dst c)
      (snapshot_arn (dst c) (awsAcctId c) (DBSnapshotIdentifier s)) = Ok tl ->
    is_copy_of (arn c) (Ok tl) = true ->
    checkSnapCopied_loop P c (l1 ++ s :: l2) st =
    (Done true, mkState (cfg st) (calls st ++ tag_calls c (l1 ++ [s]))).
Proof.
  induction l1 as [|a l1 IH]; intros st Hbefore Htags Hmatch.
  - simpl. unfold_m. simpl. rewrite app_nil_r in Htags. rewrite Htags.
    rewrite tag_flags_fold. simpl in Hmatch |- *. rewrite Hmatch. reflexivity.
  - simpl app. cbn [checkSnapCopied_loop]. unfold_m. cbn [calls cfg].
    set (name := snapshot_arn (dst c) (awsAcctId c) (DBSnapshotIdentifier a)).
    assert (Ha : is_copy_of (arn c) (on_ListTagsForResource P (calls st) (dst c) name) = false).
    { apply (Hbefore (a, on_ListTagsForResource P (calls st) (dst c) name)). simpl. left. }
    assert (Hrest :
      checkSnapCopied_loop P c (l1 ++ s :: l2) (logged (ListTagsForResource (dst c) name) st) =
      (Done true,
       mkState (cfg st) (calls st ++ tag_calls c ((a :: l1) ++ [s])))).
    { rewrite (IH (logged (ListTagsForResource (dst c) name) st)).
      - rewrite logged_calls, logged_cfg, <- app_assoc. reflexivity.
      - intros p Hp. apply Hbefore. simpl. right. exact Hp.
      - rewrite logged_calls, <- app_assoc. exact Htags.
      - exact Hmatch. }
    destruct (on_ListTagsForResource P (calls st) (dst c) name) as [tl'|e]; [|exact Hrest].
    rewrite tag_flags_fold. simpl in Ha |- *. rewrite Ha. exact Hrest.
Qed.

(** X20. The check stops at the first destination snapshot whose tags match:
    it answers "copied" and reads the tags of no snapshot listed after
    it. *)
Theorem check_stops_at_first_match (st : state config) (l1 l2 : list DBSnapshot)
    (s : DBSnapshot) (tl : list Tag) :
  let c := cfg st in
  let call := DescribeDBSnapshots (dst c) (by_instance (dbid c)) in
  on_DescribeDBSnapshots P (calls st) (dst c) (by_instance (dbid c)) = Ok (l1 ++ s :: l2) ->
  (forall p, p ∈ tag_reads P (calls st ++ [call]) (dst c) (awsAcctId c) l1 ->
     is_copy_of (arn c) (snd p) = false) ->
  on_ListTagsForResource P (calls st ++ call :: tag_calls c l1) (dst c)
    (snapshot_arn (dst c) (awsAcctId c) (DBSnapshotIdentifier s)) = Ok tl ->
  mkTag "managedby" "rdsbackup" ∈ tl ->
  mkTag "sourcearn" (arn c) ∈ tl ->
  checkSnapCopied P st =
  (Done true, mkState c (calls st ++ call :: tag_calls c (l1 ++ [s]))).
Proof.
  intros c call Hlist Hbefore Htags Hm Hs.
  unfold checkSnapCopied. unfold_m. cbn [cfg calls]. fold c. fold call. rewrite Hlist.
  rewrite (checkSnapCopied_loop_match c s l2 tl l1 (logged call st)).
  - rewrite logged_calls, logged_cfg, <- app_assoc. reflexivity.
  - rewrite logged_calls. exact Hbefore.
  - rewrite logged_calls, <- app_assoc. exact Htags.
  - apply is_copy_of_spec. exists tl. auto.
Qed.

(** X21. A poll that fails ends the wait with the poll's own error, after
    polls that all showed "creating"; no further poll is made. *)
Theorem wait_returns_poll_error (st : state config) (n fuel : nat) (e : error) :
  let q := by_snapshot (copyId (cfg st)) in
  let region := dst (cfg st) in
  (n < fuel)%nat ->
  (forall i, (i < n)%nat ->
     exists s, poll_answer P (calls st) region q i = Ok [s] /\ Status s = "creating") ->
  poll_answer P (calls st) region q n = Err e ->
  waitForCopy P fuel st =
  (Done (Some e),
   mkState (cfg st) (calls st ++ repeat (poll region (copyId (cfg st))) (S n))).
Proof.
  intros q region Hfuel Hpre Herr.
  assert (Hcont : forall i, (i < n)%nat ->
            poll_verdict (poll_answer P (calls st) region q i) = Continue).
  { intros i Hi. destruct (Hpre i Hi) as (s & -> & Hs). simpl. now rewrite Hs. }
  match goal with |- _ = (_, ?s) => set (st' := s) end.
  unfold waitForCopy. unfold_m. simpl. fold q region.
  replace fuel with (n + S (fuel - S n))%nat by lia.
  rewrite (waitForCopy_loop_creating P region q n _ st Hcont).
  rewrite waitForCopy_loop_step. simpl calls.
  unfold poll_answer in Herr. rewrite Herr.
  unfold st', poll. fold q. rewrite repeat_snoc, app_assoc. reflexivity.
Qed.

End CheckWaitExtras.

(** ** Two managed snapshots of the same second *)

Section CollisionExtras.

Variable P : Provider.

Lemma sort_two_oldest (t : Z) (ks : list Z) :
  Forall (fun k => t <= k) ks ->
  sort_int64arr (t :: t :: ks) = t :: t :: sort_int64arr ks.
Proof.
  intros Hmin. unfold sort_int64arr.
  assert (Hhd : HdRel Z.le t (merge_sort Z.le ks)).
  { destruct (merge_sort Z.le ks) as [|h s'] eqn:E; constructor.
    rewrite Forall_forall in Hmin. apply Hmin.
    rewrite <- (merge_sort_Permutation Z.le ks), E. left. }
  apply (Sorted_unique Z.le).
  - apply Sorted_merge_sort. apply _.
  - constructor; [constructor|].
    + apply Sorted_merge_sort. apply _.
    + exact Hhd.
    + constructor. lia.
  - rewrite !merge_sort_Permutation. reflexivity.
Qed.

Lemma sort_int64arr_perm (ks ks' : list Z) :
  ks ≡ₚ ks' -> sort_int64arr ks = sort_int64arr ks'.
Proof.
  intros Hperm. unfold sort_int64arr. apply (Sorted_unique Z.le).
  - apply Sorted_merge_sort. apply _.
  - apply Sorted_merge_sort. apply _.
  - now rewrite !merge_sort_Permutation.
Qed.

Lemma fold_put_last_wins (l0 l3 : list DBSnapshot) (b : DBSnapshot) :
  Forall (fun s => stamp s <> stamp b) l3 ->
  fold_left put (l0 ++ b :: l3) ∅ !! stamp b = Some (DBSnapshotIdentifier b).
Proof.
  intros Hlast. rewrite fold_left_app. simpl.
  rewrite fold_put_other.
  - unfold put. apply lookup_insert_eq.
  - intros Hin. change (map stamp l3) with (stamp <$> l3) in Hin.
    apply list_elem_of_fmap in Hin as (s & Hs & Hin).
    rewrite Forall_forall in Hlast. apply (Hlast s Hin). now symmetry.
Qed.

(** X22. When the two oldest counted snapshots were created in the same
    second and at least two snapshots are to be purged, the purge asks
    for the deletion of the one listed last twice in a row, and does not
    ask for the other: [snaps] holds one identifier per second while
    [keys] holds the second twice. *)
Theorem same_second_purged_twice (st : state config) (l l1 l2 l3 : list DBSnapshot)
    (a b : DBSnapshot) :
  let c := cfg st in
  let call := DescribeDBSnapshots (dst c) (by_instance (dbid c)) in
  let reads := tag_reads P (calls st ++ [call]) (dst c) (awsAcctId c) l in
  0 < purge c ->
  on_DescribeDBSnapshots P (calls st) (dst c) (by_instance (dbid c)) = Ok l ->
  (forall s tl, (s, Ok tl) ∈ reads -> NoDup (map Key tl)) ->
  counted reads = l1 ++ a :: l2 ++ b :: l3 ->
  stamp a = stamp b ->
  Forall (fun s => stamp b <= stamp s) (l1 ++ l2 ++ l3) ->
  Forall (fun s => stamp s <> stamp b) l3 ->
  purge c + 2 <= Z.of_nat (size (fst (collected reads))) ->
  (forall h id, is_Err (on_DeleteDBSnapshot P h (dst c) id) = false) ->
  exists tr,
    cleanupSnaps P st =
    (Done None,
     mkState c (calls st ++ call :: tag_calls c l ++
                DeleteDBSnapshot (dst c) (DBSnapshotIdentifier b) ::
                DeleteDBSnapshot (dst c) (DBSnapshotIdentifier b) :: tr)) /\
    (DBSnapshotIdentifier a <> DBSnapshotIdentifier b ->
     NoDup (map DBSnapshotIdentifier (counted reads)) ->
     DeleteDBSnapshot (dst c) (DBSnapshotIdentifier a) ∉ tr).
Proof.
  intros c call reads Hk Hlist Hsets Hsplit Hab Hmin Hlast Hsize Hdel.
  rewrite (cleanupSnaps_enabled P st l Hk Hlist). fold c. fold call. fold reads.
  assert (Hcoll : collected reads =
                  (fold_left put (counted reads) ∅, map stamp (counted reads))).
  { unfold collected. now rewrite (collect_managed reads ∅ [] Hsets). }
  rewrite Hcoll in *. cbn [fst snd] in *.
  set (snaps := fold_left put (counted reads) ∅) in *.
  destruct (Z.of_nat (size snaps) <=? purge c) eqn:Ele; [apply Z.leb_le in Ele; lia|].
  set (n := Z.to_nat (Z.of_nat (size snaps) - purge c)).
  assert (Hperm : map stamp (counted reads)
                  ≡ₚ stamp b :: stamp b :: map stamp (l1 ++ l2 ++ l3)).
  { rewrite Hsplit, !map_app. simpl. rewrite !map_app. simpl. rewrite Hab.
    rewrite <- !Permutation_middle. reflexivity. }
  assert (Hkeys : sort_int64arr (map stamp (counted reads)) =
                  stamp b :: stamp b :: sort_int64arr (map stamp (l1 ++ l2 ++ l3))).
  { rewrite (sort_int64arr_perm _ _ Hperm). apply sort_two_oldest.
    change (map stamp ?l) with (stamp <$> l). apply Forall_fmap. exact Hmin. }
  assert (Hlenk : (size snaps <= length (map stamp (counted reads)))%nat).
  { pose proof (fold_put_size_le (counted reads) ∅) as H.
    rewrite map_size_empty in H. rewrite length_map. exact H. }
  destruct (purge_loop_run P c snaps (sort_int64arr (map stamp (counted reads))) n 0
              (mkState c (calls st ++ call :: tag_calls c l)))
    as (j & r & Hrun & Hj & _ & Hnone & Hok).
  { rewrite sort_int64arr_length. lia. }
  rewrite Hrun. cbn [cfg calls].
  rewrite (Hok Hdel) in *. specialize (Hnone eq_refl). subst j.
  assert (Hb : snaps !! stamp b = Some (DBSnapshotIdentifier b)).
  { unfold snaps. rewrite Hsplit.
    replace (l1 ++ a :: l2 ++ b :: l3) with ((l1 ++ a :: l2) ++ b :: l3)
      by (now rewrite <- app_assoc).
    apply fold_put_last_wins. exact Hlast. }
  assert (Hn : n = S (S (n - 2))) by lia.
  unfold purge_calls. rewrite Hkeys, drop_0, Hn. cbn [take map]. rewrite Hb. cbn [default].
  eexists. split.
  - rewrite <- app_assoc. reflexivity.
  - intros Hne Hnd Hin.
    change (map ?f ?x) with (f <$> x) in Hin.
    apply list_elem_of_fmap in Hin as (k & Heq & Hin).
    injection Heq as Hid.
    apply subseteq_take in Hin. apply (proj1 (elem_of_sort_int64arr _ _)) in Hin.
    change (map stamp ?x) with (stamp <$> x) in Hin.
    apply list_elem_of_fmap in Hin as (s & -> & Hs).
    assert (Hs' : s ∈ counted reads).
    { rewrite Hsplit. revert Hs.
      repeat (rewrite elem_of_app || rewrite elem_of_cons). tauto. }
    destruct (fold_put_last (counted reads) (stamp s) (default EmptyString (snaps !! stamp s)))
      as (m1 & s' & m2 & Hm & Hstamp & Hid' & Hm2).
    { fold snaps. destruct (snaps !! stamp s) as [x|] eqn:E; [reflexivity|].
      exfalso. destruct (collected_inv reads) as (_ & Hsome & _).
      rewrite Hcoll in Hsome. cbn [fst snd] in Hsome.
      destruct (Hsome (stamp s)) as [x Hx].
      - change (map stamp ?x) with (stamp <$> x). now apply list_elem_of_fmap_2.
      - fold snaps in Hx. congruence. }
    assert (Ea : s' = a).
    { apply (NoDup_map_inj DBSnapshotIdentifier (counted reads)); [exact Hnd| | |congruence].
      - rewrite Hm. mem.
      - rewrite Hsplit. mem. }
    subst s'. apply Hne.
    rewrite <- Hstamp, Hab, Hb in Hid. cbn [default] in Hid. now symmetry.
Qed.

End CollisionExtras.

(** ** The further properties on the example runs *)

Lemma purge_only_after_copy_witness :
  let P := provider_of weekly_run in
  let c0 := config0 3 in
  "us-west-1" = dst c0 /\
  exists acct l tags n tr,
    resolved P c0 acct /\ located P c0 l /\
    accepted P clock0 c0 acct l tags /\
    still_creating P clock0 c0 acct l tags n /\
    wait_ended P clock0 c0 acct l tags n None /\
    calls (snd (main P clock0 5 (c0, None))) = at_cleanup clock0 c0 acct l tags n ++ tr /\
    DeleteDBSnapshot "us-west-1" "mydb-2014-12-01at00-00UTC" ∈ tr.
Proof.
  apply (purge_only_after_copy (provider_of weekly_run) clock0 5 (config0 3, None)
           (fst (main (provider_of weekly_run) clock0 5 (config0 3, None)))
           (snd (main (provider_of weekly_run) clock0 5 (config0 3, None)))
           "us-west-1" "mydb-2014-12-01at00-00UTC").
  - apply surjective_pairing.
  - apply list_elem_of_In. vm_compute. auto 20.
Defined.

Lemma at_most_one_copy_witness :
  let st' := snd (main (provider_of fresh_run) clock0 5 (config0 0, None)) in
  (length (filter (fun r => is_Copy r = true) (calls st')) <= 1)%nat /\
  forall region m, CopyDBSnapshot region m ∈ calls st' -> region = "us-west-1".
Proof.
  apply (at_most_one_copy (provider_of fresh_run) clock0 5 (config0 0, None)
           (fst (main (provider_of fresh_run) clock0 5 (config0 0, None)))
           (snd (main (provider_of fresh_run) clock0 5 (config0 0, None)))).
  apply surjective_pairing.
Defined.

Lemma exit_zero_means_copied_witness :
  let P := provider_of fresh_run in
  let c0 := config0 0 in
  exists acct l,
    resolved P c0 acct /\ located P c0 l /\
    ((exists dl s tl,
        on_DescribeDBSnapshots P (at_check c0) (dst c0) (by_instance (dbid c0)) = Ok dl /\
        (s, Ok tl) ∈ tag_reads P (at_check c0 ++ [dest_listing_call c0]) (dst c0) acct dl /\
        mkTag "managedby" "rdsbackup" ∈ tl /\
        mkTag "sourcearn" (chosen_arn c0 acct l) ∈ tl) \/
     (exists tags n s,
        accepted P clock0 c0 acct l tags /\
        poll_answer P (at_wait clock0 c0 acct l tags) (dst c0)
          (by_snapshot (copyId (copying_config clock0 c0 acct l))) n = Ok [s] /\
        Status s <> "creating")).
Proof.
  apply (exit_zero_means_copied (provider_of fresh_run) clock0 5 (config0 0, None)
           (snd (main (provider_of fresh_run) clock0 5 (config0 0, None)))).
  vm_compute. reflexivity.
Defined.

Lemma fuel_only_bounds_the_wait_witness :
  let P := provider_of fresh_run in
  let c0 := config0 0 in
  (forall x, fst (main P clock0 3 (c0, None)) = Done x ->
     forall fuel', (3 <= fuel')%nat ->
       main P clock0 fuel' (c0, None) = (Done x, snd (main P clock0 3 (c0, None)))) /\
  (fst (main P clock0 3 (c0, None)) = Spinning ->
     exists acct l tags,
       accepted P clock0 c0 acct l tags /\ still_creating P clock0 c0 acct l tags 3 /\
       calls (snd (main P clock0 3 (c0, None)))
         = at_wait clock0 c0 acct l tags ++ repeat (poll_call clock0 c0 acct l) 3).
Proof.
  apply (fuel_only_bounds_the_wait (provider_of fresh_run) clock0 3 (config0 0)
           (fst (main (provider_of fresh_run) clock0 3 (config0 0, None)))
           (snd (main (provider_of fresh_run) clock0 3 (config0 0, None)))).
  apply surjective_pairing.
Defined.

Lemma purge_never_exceeds_excess_witness :
  let P := provider_of five_copies in
  let st := purging0 3 in
  let reads := tag_reads P [dest_listing] "us-west-1" "123456789012" dest_five in
  exists tr r,
    cleanupSnaps P st = (Done r, mkState (cfg st) (calls st ++ tr)) /\
    Z.of_nat (length (filter (fun x => is_Delete x = true) tr))
      <= Z.max 0 (Z.of_nat (length (counted reads)) - 3).
Proof.
  apply (purge_never_exceeds_excess (provider_of five_copies) (purging0 3) dest_five).
  - simpl. lia.
  - reflexivity.
Defined.

Lemma purge_names_last_of_timestamp_witness :
  let P := provider_of twins in
  let st := purging0 2 in
  let reads := tag_reads P [dest_listing] "us-west-1" "123456789012" dest_twins in
  exists tr r,
    cleanupSnaps P st = (Done r, mkState (cfg st) (calls st ++ tr)) /\
    forall region id, DeleteDBSnapshot region id ∈ tr ->
      exists l1 s l2,
        counted reads = l1 ++ s :: l2 /\
        DBSnapshotIdentifier s = id /\
        Forall (fun s' => stamp s' <> stamp s) l2.
Proof.
  apply (purge_names_last_of_timestamp (provider_of twins) (purging0 2) dest_twins).
  reflexivity.
Defined.

Lemma purge_stops_at_first_failure_witness :
  let P := provider_of locked_copy in
  let st := purging0 3 in
  exists tr0 x,
    snd (cleanupSnaps P st) = mkState (cfg st) (calls st ++ tr0 ++ [x]) /\
    (x = DescribeDBSnapshots (dst (cfg st)) (by_instance (dbid (cfg st))) \/
     is_Delete x = true) /\
    call_error P (calls st ++ tr0) x = Some (RemoteError "InvalidDBSnapshotState") /\
    Forall benign (annotate P (calls st) tr0).
Proof.
  apply (purge_stops_at_first_failure (provider_of locked_copy) (purging0 3)
           (snd (cleanupSnaps (provider_of locked_copy) (purging0 3)))
           (RemoteError "InvalidDBSnapshotState")).
  vm_compute. reflexivity.
Defined.

Lemma second_run_is_a_no_op_witness :
  fst (main (provider_of rerun) clock0 5 (config0 3, None)) = Done 0 /\
  Forall (fun r => is_write r = false)
         (calls (snd (main (provider_of rerun) clock0 5 (config0 3, None)))).
Proof.
  apply (second_run_is_a_no_op (provider_of rerun) clock0 5 (config0 3) "123456789012"
           source0 [copy5] copy5 clock0 (cfg (purging0 0))
           (scenario_resolved rerun 3 eq_refl) (scenario_located rerun 3 eq_refl) eq_refl).
  - apply list_elem_of_In. vm_compute. auto.
  - reflexivity.
Defined.

Lemma legacy_copies_do_not_count_as_copied_witness :
  fst (checkSnapCopied (provider_of legacy_copies) checking0) = Done false /\
  managed_of (tag_reads (provider_of legacy_copies) (calls checking0 ++ [dest_listing])
                "us-west-1" "123456789012" [copy4; copy5]) = [copy4; copy5].
Proof.
  apply (legacy_copies_do_not_count_as_copied (provider_of legacy_copies) checking0
           [copy4; copy5] eq_refl).
  intros s rt Hin. exists clock0, legacy_made.
  apply elem_of_cons in Hin as [Hin|Hin]; [now injection Hin as -> ->|].
  apply elem_of_cons in Hin as [Hin|Hin]; [now injection Hin as -> ->|].
  inversion Hin.
Defined.

Lemma locators_agree_witness :
  let r := resolve_and_locate (provider_of fresh_run) (mkState (config0 0) []) in
  let r1 := Legacy.findLatestSnap (provider_of fresh_run) (mkState legacy_config0 []) in
  fst r = fst r1 /\
  calls (snd r) = calls (snd r1) /\
  (fst r = Done None -> arn (cfg (snd r)) = Legacy.arn (cfg (snd r1))).
Proof.
  apply (locators_agree (provider_of fresh_run) (config0 0) legacy_config0); reflexivity.
Defined.

Lemma legacy_always_copies_witness :
  let P := provider_of second_run in
  let st' := snd (Legacy.main P clock0 5 (legacy_config0, None)) in
  Forall (fun r => is_ListTags r = false /\ is_Delete r = false) (calls st') /\
  exists m post,
    calls st' = [GetUser "us-east-1";
                 DescribeDBSnapshots "us-east-1" (by_instance "mydb");
                 CopyDBSnapshot "us-west-1" m] ++ post /\
    SourceDBSnapshotIdentifier m = arn0.
Proof.
  destruct (legacy_always_copies (provider_of second_run) clock0 5 legacy_config0
              (fst (Legacy.main (provider_of second_run) clock0 5 (legacy_config0, None)))
              (snd (Legacy.main (provider_of second_run) clock0 5 (legacy_config0, None)))
              (surjective_pairing _))
    as [Hread Hcopy].
  split; [exact Hread|].
  apply (Hcopy user0 "123456789012" source0); try reflexivity; discriminate.
Defined.

Lemma copy_tags_round_trip_witness :
  let name := dst_arn "mydb-2015-01-01at00-00UTC" in
  checkSnapCopied_loop (provider_of rerun) (cfg checking0) [copy5] checking0 =
    (Done true, logged (ListTagsForResource "us-west-1" name) checking0) /\
  cleanup_scan (provider_of rerun) (cfg checking0) [copy5] (∅, []) checking0 =
    (Done (<[1420070460 := "mydb-2015-01-01at00-00UTC"]> ∅, [1420070460]),
     logged (ListTagsForResource "us-west-1" name) checking0).
Proof.
  exact (copy_tags_round_trip (provider_of rerun) clock0 (cfg (purging0 0)) (cfg checking0)
           copy5 (∅, []) checking0 eq_refl).
Defined.

Lemma calls_need_credentials_witness :
  let parsed := (mkConfig "mydb" "us-east-1" "us-west-1" "" "" "" "AKIAEXAMPLE" "secret" 0 false,
                 @None error) in
  snd parsed = None /\
  awsKeyId (fst parsed) <> EmptyString /\ awsSecret (fst parsed) <> EmptyString.
Proof.
  apply (calls_need_credentials (provider_of fresh_run) clock0 env0 atoi0 (Ok args0)
           (mkConfig "mydb" "us-east-1" "us-west-1" "" "" "" "AKIAEXAMPLE" "secret" 0 false,
            None) 5).
  - vm_compute. reflexivity.
  - vm_compute. discriminate.
Defined.

Lemma empty_flag_hides_environment_witness :
  parseArgs env0 atoi0 (Ok args_empty_key) <> Done (config0 0, None).
Proof.
  apply (empty_flag_hides_environment env0 atoi0 args_empty_key (config0 0)).
  left. vm_compute. reflexivity.
Defined.

Lemma no_deletion_without_purge_count_witness :
  Forall (fun r => is_Delete r = false)
    (calls (snd (main (provider_of weekly_run) clock0 5 (config0 0, None)))).
Proof.
  apply (no_deletion_without_purge_count (provider_of weekly_run) clock0 env0 atoi0 args0
           (config0 0, None) 5).
  - vm_compute. reflexivity.
  - intros p Hp. vm_compute in Hp. discriminate Hp.
Defined.

Lemma latest_scan_order_free_witness :
  latest_scan source0 = latest_scan (rev source0).
Proof.
  apply (latest_scan_order_free source0 (rev source0)).
  - apply Permutation_rev.
  - decide_it.
Defined.

Lemma sort_contract_fixes_keys_witness :
  [1417392000; 1418601600; 1419206400]
  = sort_int64arr [1419206400; 1417392000; 1418601600].
Proof.
  apply (sort_contract_fixes_keys [1419206400; 1417392000; 1418601600]
           [1417392000; 1418601600; 1419206400]).
  - apply (swapped_step _ 0 1 [1417392000; 1419206400; 1418601600]); [reflexivity|].
    apply (swapped_step _ 1 2 [1417392000; 1418601600; 1419206400]); [reflexivity|].
    apply swapped_refl.
  - intros [|[|i]] Hi; [reflexivity | reflexivity | simpl in Hi; lia].
Defined.

Lemma Swap_exchanges_witness :
  let a := [1419206400; 1417392000; 1418601600] in
  let a' := [1418601600; 1417392000; 1419206400] in
  Len a' = Len a /\ a' !! 0%nat = a !! 2%nat /\ a' !! 2%nat = a !! 0%nat /\
  (forall k, k <> 0%nat -> k <> 2%nat -> a' !! k = a !! k) /\
  Swap a' 0 2 = Some a.
Proof.
  apply (proj2 (Swap_exchanges [1419206400; 1417392000; 1418601600] 0 2)
           [1418601600; 1417392000; 1419206400]).
  reflexivity.
Defined.

Lemma check_stops_at_first_match_witness :
  checkSnapCopied (provider_of five_copies) checking0 =
  (Done true,
   mkState (cfg checking0)
     (calls checking0 ++ dest_listing :: tag_calls (cfg checking0) [copy3; manual; copy1; copy5])).
Proof.
  apply (check_stops_at_first_match (provider_of five_copies) checking0
           [copy3; manual; copy1] [foreign; copy2; unreadable; copy4] copy5
           (managed_tags arn0) eq_refl).
  - intros p Hp.
    apply elem_of_cons in Hp as [->|Hp]; [reflexivity|].
    apply elem_of_cons in Hp as [->|Hp]; [reflexivity|].
    apply elem_of_cons in Hp as [->|Hp]; [reflexivity|].
    inversion Hp.
  - reflexivity.
  - apply list_elem_of_In. vm_compute. auto 10.
  - apply list_elem_of_In. vm_compute. auto 10.
Defined.

Lemma wait_returns_poll_error_witness :
  waitForCopy (provider_of poll_fails) 5 waiting0 =
  (Done (Some (RemoteError "Throttling")),
   mkState (cfg waiting0)
           (calls waiting0 ++ repeat (poll "us-west-1" "mydb-2015-01-01at00-00UTC") 2)).
Proof.
  apply (wait_returns_poll_error (provider_of poll_fails) waiting0 1 5
           (RemoteError "Throttling") ltac:(lia)
           ltac:(intros [|i] Hi; [eexists; split; reflexivity | lia])).
  reflexivity.
Defined.

Lemma same_second_purged_twice_witness :
  let P := provider_of twins in
  let st := purging0 2 in
  let reads := tag_reads P [dest_listing] "us-west-1" "123456789012" dest_twins in
  exists tr,
    cleanupSnaps P st =
    (Done None,
     mkState (cfg st)
       (calls st ++ dest_listing :: tag_calls (cfg st) dest_twins ++
        DeleteDBSnapshot "us-west-1" "mydb-2014-11-30-by-hand" ::
        DeleteDBSnapshot "us-west-1" "mydb-2014-11-30-by-hand" :: tr)) /\
    ("mydb-2014-11-30at23-59UTC" <> "mydb-2014-11-30-by-hand" ->
     NoDup (map DBSnapshotIdentifier (counted reads)) ->
     DeleteDBSnapshot "us-west-1" "mydb-2014-11-30at23-59UTC" ∉ tr).
Proof.
  apply (same_second_purged_twice (provider_of twins) (purging0 2) dest_twins
           [copy3] [copy4] [copy5] twin_a twin_b).
  - simpl. lia.
  - reflexivity.
  - apply tag_sets_by_cases. vm_compute.
    repeat (apply Forall_cons; split; [try exact I; decide_it|]). constructor.
  - reflexivity.
  - reflexivity.
  - repeat (apply Forall_cons; split; [vm_compute; discriminate|]). constructor.
  - repeat (apply Forall_cons; split; [vm_compute; discriminate|]). constructor.
  - vm_compute. discriminate.
  - intros h id. simpl. reflexivity.
Defined.
